(** * Field columns and import converters of the ORM

    A shallow embedding of
    - [openerp/addons/base/ir/ir_fields.py]: the converter of loosely typed
      import records into values accepted by [write()];
    - [openerp/osv/fields.py]: the relational command protocol of the
      [one2many] and [many2many] columns, and the column descriptors with
      their [new()] specialisation.

    Python exceptions are an explicit result type, mutable state (the log
    sink, the database tables, the heap of descriptor objects) is passed
    explicitly. *)

From Stdlib Require Import ZArith String Ascii List Floats DecimalString.
From stdpp Require Import gmap strings list.

Set Warnings "-register-all".

(** ** Python results: a value or a raised exception *)

Module Py.

(** The [moreinfo] payloads attached to import errors. *)
Record action := Action {
  res_model : option string;      (* action['res_model'] *)
  domain_model : option string;   (* action['domain'] = [('model', '=', m)] *)
}.

Inductive moreinfo :=
| InfoText (s : string)
| InfoLabels (l : list string)
| InfoAction (a : action).

(** The arguments of an exception or warning built by the converters:
    [msg] is the template given to [_()], [params] the sanitized
    parameters it is formatted with, [info] the optional second argument. *)
Record err := Err {
  msg : string;
  params : list string;
  info : option moreinfo;
}.

Inductive exn :=
| ValueError (e : err)
| ExceptionE (e : err)
| KeyError (k : option string)
| TypeError (what : string)
| AttributeError (what : string)
| AssertionError (what : string)
| MissingError (id : Z)
| RecursionError.

Inductive res (A : Type) :=
| Ok (a : A)
| Raise (e : exn).
Arguments Ok {A} a.
Arguments Raise {A} e.

#[global] Instance res_ret : MRet res := @Ok.
#[global] Instance res_bind : MBind res := λ A B k m,
  match m with
  | Ok a => k a
  | Raise e => Raise e
  end.

(** [for x in l: acc = f(acc, x)] where [f] may raise. *)
Fixpoint foldM {A B} (f : B → A → res B) (l : list A) (acc : B) : res B :=
  match l with
  | [] => Ok acc
  | x :: l' => acc' ← f acc x; foldM f l' acc'
  end.

(** [s.split(sep)] for a one-character separator. *)
Fixpoint split (sep : ascii) (s : string) : list string :=
  match s with
  | EmptyString => [EmptyString]
  | String c s' =>
      if Ascii.eqb c sep then EmptyString :: split sep s'
      else match split sep s' with
           | [] => [String c EmptyString]
           | w :: ws => String c w :: ws
           end
  end.

(** [c in s] *)
Fixpoint contains (c : ascii) (s : string) : bool :=
  match s with
  | EmptyString => false
  | String c' s' => Ascii.eqb c' c || contains c s'
  end.

(** [p.replace('%', '%%')] *)
Fixpoint sanitize (p : string) : string :=
  match p with
  | EmptyString => EmptyString
  | String c p' =>
      if Ascii.eqb c "%" then String "%" (String "%" (sanitize p'))
      else String c (sanitize p')
  end.

(** [str(z)] on an integer *)
Definition str_of_Z (z : Z) : string := NilZero.string_of_int (Z.to_int z).

(** The [ValueError] of a failed unpacking [[x] = l]. *)
Definition unpack_error (got : nat) : exn :=
  ValueError (Err (match got with
                   | O => "not enough values to unpack (expected 1, got 0)"
                   | _ => "too many values to unpack (expected 1)"
                   end) [] None).

End Py.
Export Py.

(** ** [ir_fields.py]: the import converter *)

Module IrFields.

(** Keys of an import record: a field name, or [None] for the name
    sub-field of a relational reference. *)
Definition key := option string.

Definition REFERENCING_FIELDS : gset key := {[ None; Some "id"; Some ".id" ]}.

(** A raw import value: text, or a list of nested records. *)
Inductive raw :=
| RStr (s : string)
| RList (rs : list (list (key * raw))).

Definition record := list (key * raw).

(** Python truthiness of a raw value. *)
Definition truthy (v : raw) : bool :=
  match v with
  | RStr EmptyString => false
  | RStr _ => true
  | RList [] => false
  | RList _ => true
  end.

Definition is_ref (k : key) : bool := bool_decide (k ∈ REFERENCING_FIELDS).

Definition only_ref_fields (r : record) : record :=
  List.filter (fun kv => is_ref (fst kv)) r.

Definition exclude_ref_fields (r : record) : record :=
  List.filter (fun kv => negb (is_ref (fst kv))) r.

(** [d[k]] *)
Fixpoint getitem {V} (d : list (key * V)) (k : key) : res V :=
  match d with
  | [] => Raise (KeyError k)
  | (k', v) :: d' => if bool_decide (k' = k) then Ok v else getitem d' k
  end.

(** [d[k] = v]: an existing key keeps its position, a new key goes last. *)
Fixpoint setitem {V} (k : key) (v : V) (d : list (key * V)) : list (key * V) :=
  match d with
  | [] => [(k, v)]
  | (k', v') :: d' =>
      if bool_decide (k' = k) then (k, v) :: d' else (k', v') :: setitem k v d'
  end.

(** The relational commands, as the triples [(tag, id, payload)]. *)
Inductive command (V : Type) :=
| CREATE (values : V)             (* (0, False, values) *)
| UPDATE (id : Z) (values : V)    (* (1, id, values) *)
| DELETE (id : Z)                 (* (2, id, False) *)
| FORGET (id : Z)                 (* (3, id, False) *)
| LINK_TO (id : Z)                (* (4, id, False) *)
| DELETE_ALL                      (* (5, False, False) *)
| REPLACE_WITH (ids : list Z).    (* (6, False, ids) *)
Arguments CREATE {V} values.
Arguments UPDATE {V} id values.
Arguments DELETE {V} id.
Arguments FORGET {V} id.
Arguments LINK_TO {V} id.
Arguments DELETE_ALL {V}.
Arguments REPLACE_WITH {V} ids.

(** The key of a selection item. *)
Inductive sel_key :=
| SelStr (s : string)
| SelInt (z : Z).

(** Converted values. *)
Inductive value :=
| VBool (b : bool)
| VInt (z : Z)
| VFloat (f : float)
| VStr (s : string)
| VSel (k : sel_key)
| VCommands (cs : list (command (list (key * value)))).

Definition dict := list (key * value).

(** A warning returned by a converter: a plain string or an
    [ImportWarning]. *)
Inductive warning :=
| WStr (s : string)
| WImport (w : err).

(** What is reported to the log: an [ImportWarning] or a [ValueError]. *)
Inductive issue :=
| IWarning (w : err)
| IError (e : err).

(** ** [_referencing_subfield] *)

Definition indirect_error : err :=
  Err "Can not create Many-To-One records indirectly, import the field separately" [] None.

Definition ambiguous_error : err :=
  Err "Ambiguous specification for field '%(field)s', only provide one of name, external id or database id" [] None.

Definition _referencing_subfield (r : record) : res (key * list warning) :=
  let fieldset : gset key := list_to_set (map fst r) in
  if negb (bool_decide (fieldset ∖ REFERENCING_FIELDS = ∅)) then
    Raise (ValueError indirect_error)
  else if (1 <? size fieldset)%nat then
    Raise (ValueError ambiguous_error)
  else
    match elements fieldset with
    | [subfield] => Ok (subfield, [])
    | l => Raise (unpack_error (length l))
    end.

(** ** The environment of a conversion

    Python built-ins, the time-zone library and the collaborators reached
    through [self.env] (model registry, translations, external ids, record
    search and name search) are parameters of the embedding. *)

Record field := Field {
  ftype : string;                         (* field.type *)
  comodel_name : string;                  (* field.comodel_name *)
  selection : list (sel_key * string);    (* get_description()['selection'] *)
}.

Record Env := {
  tzinfo : Type;
  naive : Type;
  gettext : string → string;                       (* _() *)
  py_int : string → option Z;                      (* int(s), None: ValueError *)
  py_float : string → option float;                (* float(s), None: ValueError *)
  py_lower : string → string;                      (* s.lower() *)
  strptime_date : string → bool;                   (* time.strptime succeeds *)
  strptime_datetime : string → option naive;       (* None: ValueError *)
  pytz_timezone : string → option tzinfo;          (* None: UnknownTimeZoneError *)
  pytz_UTC : tzinfo;
  localize_to_utc : tzinfo → naive → string;
  context_tz : option string;                      (* self._context.get('tz') *)
  user_tz : option string;                         (* self.env.user.tz *)
  import_current_module : string;   (* _context.get('_import_current_module', '') *)
  translation_values : list string → string → list (option string);
  fields_of : string → list (string * field);      (* self.env[m]._fields *)
  env_ref : string → option Z;                     (* env.ref(x).id, None: ValueError *)
  search_id : string → Z → bool;       (* comodel.search([('id', '=', i)]) is not empty *)
  name_search : string → string → list (Z * string);
}.

(** A converter takes a raw value and returns the converted value with
    warnings, or raises. *)
Definition converter := raw → res (value * list warning).

(** A log callback acts on the state [S] of its sink and may raise. *)
Definition logger (S : Type) := key → issue → S → S * res unit.

(** ** [for_model]: the converter [fn] of a record *)

Section Fn.
Context {S : Type}.
Variable converters : list (key * option converter).
Variable log : logger S.

(** [for w in ws: log(field, w)], a string being wrapped in an
    [ImportWarning] first. *)
Fixpoint log_warnings (field : key) (ws : list warning) (s : S) : S * res unit :=
  match ws with
  | [] => (s, Ok ())
  | w :: ws' =>
      let w' := match w with WStr m => Err m [] None | WImport w => w end in
      match log field (IWarning w') s with
      | (s', Ok _) => log_warnings field ws' s'
      | (s', Raise e) => (s', Raise e)
      end
  end.

(** One iteration of the loop over [record.items()]. *)
Definition fn_entry (converted : dict) (kv : key * raw) (s : S) : S * res dict :=
  let '(field, v) := kv in
  if bool_decide (field ∈ [None; Some "id"; Some ".id"]) then (s, Ok converted)
  else if negb (truthy v) then (s, Ok (setitem field (VBool false) converted))
  else
    match getitem converters field with
    | Raise e => (s, Raise e)
    | Ok None => (s, Raise (TypeError "'NoneType' object is not callable"))
    | Ok (Some conv) =>
        match conv v with
        | Ok (v', ws) =>
            let converted' := setitem field v' converted in
            match log_warnings field ws s with
            | (s', Ok _) => (s', Ok converted')
            | (s', Raise (ValueError e)) =>
                let '(s'', r) := log field (IError e) s' in
                (s'', _ ← r; Ok converted')
            | (s', Raise e) => (s', Raise e)
            end
        | Raise (ValueError e) =>
            let '(s', r) := log field (IError e) s in
            (s', _ ← r; Ok converted)
        | Raise e => (s, Raise e)
        end
    end.

Fixpoint fn_loop (record : record) (converted : dict) (s : S) : S * res dict :=
  match record with
  | [] => (s, Ok converted)
  | kv :: rest =>
      match fn_entry converted kv s with
      | (s', Ok converted') => fn_loop rest converted' s'
      | (s', Raise e) => (s', Raise e)
      end
  end.

Definition fn (record : record) (s : S) : S * res dict := fn_loop record [] s.
End Fn.

(** ** The type-specific converters *)

Section Converters.
Variable env : Env.

(** [_format_import_error]: the arguments the exception or warning is
    built from, the parameters sanitized. *)
Definition _format_import_error (error_msg : string) (error_params : list string)
    (error_args : option moreinfo) : err :=
  Err error_msg (map sanitize error_params) error_args.

(** [_get_translations]: the values of the matching translations that
    are not [False]; the cache on the cursor memoizes this result. *)
Definition _get_translations (types : list string) (src : string) : list string :=
  omap id (translation_values env types src).

Definition _str_to_boolean (model : string) (f : field) (v : string)
    : res (value * list warning) :=
  let yes := gettext env "yes" in
  let trues := map (py_lower env)
    (["1"; "true"; "yes"] ++ _get_translations ["code"] "true"
                          ++ _get_translations ["code"] "yes") in
  if bool_decide (py_lower env v ∈ trues) then Ok (VBool true, [])
  else
    let falses := map (py_lower env)
      ([""; "0"; "false"; "no"] ++ _get_translations ["code"] "false"
                                ++ _get_translations ["code"] "no") in
    if bool_decide (py_lower env v ∈ falses) then Ok (VBool false, [])
    else Ok (VBool true, [WImport (_format_import_error
           "Unknown value '%s' for boolean field '%%(field)s', assuming '%s'"
           [v; yes] (Some (InfoText "Use '1' for yes and '0' for no")))]).

Definition _str_to_integer (model : string) (f : field) (v : string)
    : res (value * list warning) :=
  match py_int env v with
  | Some z => Ok (VInt z, [])
  | None => Raise (ValueError (_format_import_error
      "'%s' does not seem to be an integer for field '%%(field)s'" [v] None))
  end.

Definition _str_to_float (model : string) (f : field) (v : string)
    : res (value * list warning) :=
  match py_float env v with
  | Some x => Ok (VFloat x, [])
  | None => Raise (ValueError (_format_import_error
      "'%s' does not seem to be a number for field '%%(field)s'" [v] None))
  end.

Definition _str_id (model : string) (f : field) (v : string)
    : res (value * list warning) :=
  Ok (VStr v, []).

Definition _str_to_date (model : string) (f : field) (v : string)
    : res (value * list warning) :=
  if strptime_date env v then Ok (VStr v, [])
  else Raise (ValueError (_format_import_error
      "'%s' does not seem to be a valid date for field '%%(field)s'" [v]
      (Some (InfoText "Use the format '2012-12-31'")))).

Definition nonempty (o : option string) : option string :=
  match o with
  | Some EmptyString => None
  | _ => o
  end.

Definition _input_tz : tzinfo env :=
  let from_user :=
    match from_option (pytz_timezone env) None (nonempty (user_tz env)) with
    | Some tz => tz
    | None => pytz_UTC env
    end in
  match from_option (pytz_timezone env) None (nonempty (context_tz env)) with
  | Some tz => tz
  | None => from_user
  end.

Definition _str_to_datetime (model : string) (f : field) (v : string)
    : res (value * list warning) :=
  match strptime_datetime env v with
  | None => Raise (ValueError (_format_import_error
      "'%s' does not seem to be a valid datetime for field '%%(field)s'" [v]
      (Some (InfoText "Use the format '2012-12-31 23:59:59'"))))
  | Some parsed_value => Ok (VStr (localize_to_utc env _input_tz parsed_value), [])
  end.

Definition str_of_sel (k : sel_key) : string :=
  match k with
  | SelStr s => s
  | SelInt z => str_of_Z z
  end.

Definition sel_truthy (k : sel_key) : bool :=
  match k with
  | SelStr EmptyString => false
  | SelInt Z0 => false
  | _ => true
  end.

Definition str_truthy (s : string) : bool :=
  match s with
  | EmptyString => false
  | _ => true
  end.

Fixpoint find_selection (sel : list (sel_key * string)) (v : string) : option sel_key :=
  match sel with
  | [] => None
  | (item, label) :: sel' =>
      let labels := label :: _get_translations ["selection"; "model"; "code"] label in
      if bool_decide (v = str_of_sel item) || bool_decide (v ∈ labels) then Some item
      else find_selection sel' v
  end.

Definition _str_to_selection (model : string) (f : field) (v : string)
    : res (value * list warning) :=
  match find_selection (selection f) v with
  | Some item => Ok (VSel item, [])
  | None => Raise (ValueError (_format_import_error
      "Value '%s' not found in selection field '%%(field)s'" [v]
      (Some (InfoLabels
         (map (λ il, if str_truthy (snd il) then snd il else str_of_sel (fst il))
              (List.filter (λ il, str_truthy (snd il) || sel_truthy (fst il))
                           (selection f)))))))
  end.

(** [db_id_for]: the database id a reference stands for, the name of
    the kind of reference, and warnings. The id column is an integer
    column: searching it for a text that is not an integer is the
    [psycopg2.DataError] the source catches. *)
Definition db_id_for (model : string) (f : field) (subfield : key) (v : string)
    : res (Z * string * list warning) :=
  let action :=
    match subfield with
    | None => Action (Some (comodel_name f)) None
    | Some s =>
        if bool_decide (s ∈ ["id"; ".id"])
        then Action (Some "ir.model.data") (Some (comodel_name f))
        else Action None None
    end in
  '(id, field_type, warnings) ←
    match subfield with
    | Some ".id" =>
        match py_int env v with
        | Some tentative_id =>
            Ok (if search_id env (comodel_name f) tentative_id
                then Some tentative_id else None,
                gettext env "database id", [])
        | None => Raise (ValueError (_format_import_error
            "Invalid database id '%s' for the field '%%(field)s'" [v]
            (Some (InfoAction action))))
        end
    | Some "id" =>
        let xmlid := if contains "." v then v
                     else import_current_module env +:+ "." +:+ v in
        Ok (env_ref env xmlid, gettext env "external id", [])
    | None =>
        let ids := name_search env (comodel_name f) v in
        Ok (match ids with
            | [] => (None, gettext env "name", [])
            | (id, _) :: _ =>
                (Some id, gettext env "name",
                 if (1 <? length ids)%nat
                 then [WImport (Err
                   "Found multiple matches for field '%%(field)s' (%d matches)"
                   [str_of_Z (Z.of_nat (length ids))] None)]
                 else [])
            end)
    | Some s => Raise (ExceptionE (_format_import_error "Unknown sub-field '%s'" [s] None))
    end;
  match id with
  | None => Raise (ValueError (_format_import_error
      "No matching record found for %(field_type)s '%(value)s' in field '%%(field)s'"
      [field_type; v] (Some (InfoAction action))))
  | Some id => Ok (id, field_type, warnings)
  end.

(** [[record] = values] *)
Definition unpack_record (values : raw) : res record :=
  match values with
  | RList [r] => Ok r
  | RList l => Raise (unpack_error (length l))
  | RStr s =>
      if bool_decide (String.length s = 1%nat)
      then Raise (AttributeError "'str' object has no attribute 'keys'")
      else Raise (unpack_error (String.length s))
  end.

(** A reference handed to [db_id_for] is the text of a cell; a nested list
    in its place is outside the input of the converters and is rejected
    here. *)
Definition reference_text (v : raw) : res string :=
  match v with
  | RStr s => Ok s
  | RList _ => Raise (TypeError "reference is not a text")
  end.

(** [record[subfield].split(',')] *)
Definition split_references (v : raw) : res (list string) :=
  match v with
  | RStr s => Ok (split "," s)
  | RList _ => Raise (AttributeError "'list' object has no attribute 'split'")
  end.

Definition _str_to_many2one (model : string) (f : field) (values : raw)
    : res (value * list warning) :=
  r ← unpack_record values;
  '(subfield, w1) ← _referencing_subfield r;
  reference ← getitem r subfield;
  reference ← reference_text reference;
  '(id, _, w2) ← db_id_for model f subfield reference;
  Ok (VInt id, w1 ++ w2).

(** The body of the loop over the references of a many-to-many cell. *)
Definition m2m_reference (model : string) (f : field) (subfield : key)
    (acc : list Z * list warning) (reference : string)
    : res (list Z * list warning) :=
  '(id, _, ws) ← db_id_for model f subfield reference;
  Ok (fst acc ++ [id], snd acc ++ ws).

Definition _str_to_many2many (model : string) (f : field) (v : raw)
    : res (value * list warning) :=
  r ← unpack_record v;
  '(subfield, warnings) ← _referencing_subfield r;
  references ← getitem r subfield ≫= split_references;
  '(ids, warnings) ← foldM (m2m_reference model f subfield) references ([], warnings);
  Ok (VCommands [REPLACE_WITH ids], warnings).

(** The [log] closure of [_str_to_one2many]: warnings are collected,
    anything else is raised. *)
Definition o2m_log : logger (list warning) := λ _ e warnings,
  match e with
  | IWarning w => (warnings ++ [WImport w], Ok ())
  | IError e => (warnings, Raise (ValueError e))
  end.

(** The body of the loop over the nested records. *)
Definition o2m_record
    (convert : logger (list warning) → record → list warning → list warning * res dict)
    (model : string) (f : field)
    (acc : list (command dict) * list warning) (r : record)
    : res (list (command dict) * list warning) :=
  let '(commands, warnings) := acc in
  let refs := only_ref_fields r in
  '(id, warnings) ←
    match refs with
    | [] => Ok (None, warnings)
    | _ =>
        '(subfield, w1) ← _referencing_subfield refs;
        reference ← getitem r subfield;
        reference ← reference_text reference;
        '(id, _, w2) ← db_id_for model f subfield reference;
        Ok (Some id, warnings ++ w1 ++ w2)
    end;
  let '(warnings, writable) := convert o2m_log (exclude_ref_fields r) warnings in
  writable ← writable;
  match id with
  | Some id =>
      if bool_decide (id ≠ 0%Z)
      then Ok (commands ++ [LINK_TO id; UPDATE id writable], warnings)
      else Ok (commands ++ [CREATE writable], warnings)
  | None => Ok (commands ++ [CREATE writable], warnings)
  end.

Definition _str_to_one2many
    (for_model : string →
       logger (list warning) → record → list warning → list warning * res dict)
    (model : string) (f : field) (records : raw)
    : res (value * list warning) :=
  '(records, warnings) ←
    match records with
    | RStr EmptyString => Ok ([], [])
    | RStr _ => Raise (AttributeError "'str' object has no attribute 'items'")
    | RList [r] =>
        match exclude_ref_fields r with
        | [] =>
            '(subfield, ws) ← _referencing_subfield r;
            items ← getitem r subfield ≫= split_references;
            Ok (map (λ item, [(subfield, RStr item)]) items, ws)
        | _ => Ok ([r], [])
        end
    | RList rs => Ok (rs, [])
    end;
  let convert := for_model (comodel_name f) in
  '(commands, warnings) ← foldM (o2m_record convert model f) records ([], warnings);
  Ok (VCommands commands, warnings).

(** ** [to_field] and [for_model] *)

(** A scalar converter receives the text of a cell; a nested list in its
    place is outside the input of the converters and is rejected here. *)
Definition on_text (conv : string → res (value * list warning)) : converter := λ v,
  match v with
  | RStr s => conv s
  | RList _ => Raise (TypeError "value is not a text")
  end.

(** The methods of the converter model named [_<fromtype>_to_<type>]. *)
Definition methods
    (for_model : string →
       logger (list warning) → record → list warning → list warning * res dict)
    : list (string * (string → field → converter)) :=
  [ ("_str_to_boolean", λ m f, on_text (_str_to_boolean m f));
    ("_str_to_integer", λ m f, on_text (_str_to_integer m f));
    ("_str_to_float", λ m f, on_text (_str_to_float m f));
    ("_str_to_reference", λ m f, on_text (_str_id m f));
    ("_str_to_char", λ m f, on_text (_str_id m f));
    ("_str_to_text", λ m f, on_text (_str_id m f));
    ("_str_to_binary", λ m f, on_text (_str_id m f));
    ("_str_to_html", λ m f, on_text (_str_id m f));
    ("_str_to_date", λ m f, on_text (_str_to_date m f));
    ("_str_to_datetime", λ m f, on_text (_str_to_datetime m f));
    ("_str_to_selection", λ m f, on_text (_str_to_selection m f));
    ("_str_to_many2one", _str_to_many2one);
    ("_str_to_many2many", _str_to_many2many);
    ("_str_to_one2many", _str_to_one2many for_model) ].

Fixpoint getattr {A} (ms : list (string * A)) (name : string) : option A :=
  match ms with
  | [] => None
  | (n, m) :: ms' => if bool_decide (n = name) then Some m else getattr ms' name
  end.

Definition to_field
    (for_model : string →
       logger (list warning) → record → list warning → list warning * res dict)
    (model : string) (f : field) (fromtype : string) : option converter :=
  match getattr (methods for_model) ("_" +:+ fromtype +:+ "_to_" +:+ ftype f) with
  | None => None
  | Some converter => Some (converter model f)
  end.

(** The dictionary [converters] built by [for_model]. The nesting of
    [for_model] calls is bounded by [depth], the interpreter's recursion
    limit. *)
Fixpoint converters_of (depth : nat) (fromtype : string) (model : string)
    : list (key * option converter) :=
  let for_model := λ comodel log r s,
    match depth with
    | O => (s, Raise RecursionError)
    | Datatypes.S depth' => fn (converters_of depth' "str" comodel) log r s
    end in
  fold_left (λ d nf, setitem (Some (fst nf)) (to_field for_model model (snd nf) fromtype) d)
            (fields_of env model) [].

Definition for_model {S} (depth : nat) (model : string) (fromtype : string)
    (log : logger S) (r : record) (s : S) : S * res dict :=
  fn (converters_of depth fromtype model) log r s.

End Converters.

End IrFields.

(** ** [fields.py]: the command protocol of relational columns *)

Module Relational.
Import IrFields.

(** *** The tables of the comodel

    A row maps column names to integers, a column that is [NULL] being
    absent; [seq] is the sequence the ids of new rows are drawn from. *)
Abbreviation row := (gmap string Z).

Record table := Table {
  rows : gmap Z row;
  seq : Z;
}.

(** The values of a [create] or [write]: [None] stands for [False]. *)
Definition vals := list (string * option Z).

(** [d[k] = v] on the values of a command. *)
Fixpoint setitem_str (k : string) (v : option Z) (d : vals) : vals :=
  match d with
  | [] => [(k, v)]
  | (k', v') :: d' =>
      if bool_decide (k' = k) then (k, v) :: d' else (k', v') :: setitem_str k v d'
  end.

Definition apply_vals (v : vals) (r : row) : row :=
  fold_left (λ r cv, match snd cv with
                     | Some z => <[fst cv := z]> r
                     | None => delete (fst cv) r
                     end) v r.

(** The methods [create], [write], [unlink], [search] and [browse] of the
    comodel belong to the ORM, which is not in these sources. They are
    modelled as the storage operations of §6 of the specification, on the
    table of the comodel; access rules and the recomputation of stored
    fields are left out. *)

(** Modelled from the spec: [obj.create(values)] stores a new row, its id
    drawn from the sequence, and returns the id. *)
Definition create (v : vals) (t : table) : Z * table :=
  (seq t, Table (<[seq t := apply_vals v ∅]> (rows t)) (seq t + 1)).

(** Modelled from the spec: [obj.write([id], values)] on one record; a
    record that does not exist raises [MissingError]. *)
Definition write1 (v : vals) (t : table) (id : Z) : res table :=
  match rows t !! id with
  | Some r => Ok (Table (<[id := apply_vals v r]> (rows t)) (seq t))
  | None => Raise (MissingError id)
  end.

(** Modelled from the spec: [obj.write(ids, values)], record by record. *)
Definition write (ids : list Z) (v : vals) (t : table) : res table :=
  foldM (write1 v) ids t.

(** Modelled from the spec: [obj.unlink(ids)] deletes the rows. *)
Definition unlink (ids : list Z) (t : table) : table :=
  Table (fold_left (λ m id, delete id m) ids (rows t)) (seq t).

(** Modelled from the spec: [obj.search(domain)], the ids of the rows the
    domain holds of; a domain is a predicate on the rows. *)
Definition search (domain : Z → row → bool) (t : table) : list Z :=
  map fst (map_to_list (filter (λ ir, domain (fst ir) (snd ir) = true) (rows t))).

(** Modelled from the spec: [int(obj.browse(id)[field])], the id the
    many-to-one [field] of the record points to, 0 when it is empty; a
    record that does not exist raises [MissingError]. *)
Definition browse_int (field : string) (id : Z) (t : table) : res Z :=
  match rows t !! id with
  | Some r => Ok (default 0%Z (r !! field))
  | None => Raise (MissingError id)
  end.

(** [update <table> set <field>=null where id=<id>] *)
Definition sql_set_null (field : string) (id : Z) (t : table) : table :=
  Table (alter (delete field) id (rows t)) (seq t).

(** *** [one2many] *)

(** The many-to-one field of the comodel a one-to-many column is the
    inverse of. *)
Record inverse := Inverse {
  ondelete : option string;
}.

Record one2many (T : Type) := One2many {
  _fields_id : string;                         (* self._fields_id *)
  _domain : Z → row → bool;                    (* the static domain, [] is all *)
  inverse_field : option inverse;              (* obj._fields.get(self._fields_id) *)
  _store_get_values : Z → list string → list T;
}.
Arguments _fields_id {T} o.
Arguments _domain {T} o.
Arguments inverse_field {T} o.
Arguments _store_get_values {T} o.

Definition no_m2o : string :=
  "Trying to unlink the content of a o2m but the pointed model does not have a m2o".

Section One2many.
Context {T : Type} (self : one2many T) (id : Z).

Definition is_cascade (f : inverse) : bool :=
  bool_decide (ondelete f = Some "cascade").

(** One iteration of the loop over the commands. *)
Definition o2m_act (st : table * list T) (act : command vals) : res (table * list T) :=
  let '(t, result) := st in
  match act with
  | CREATE values =>
      let values := setitem_str (_fields_id self) (Some id) values in
      let '(id_new, t) := create values t in
      Ok (t, result ++ _store_get_values self id_new (map fst values))
  | UPDATE i values => t ← write [i] values t; Ok (t, result)
  | DELETE i => Ok (unlink [i] t, result)
  | FORGET i =>
      match inverse_field self with
      | None => Raise (AssertionError no_m2o)
      | Some inverse_field =>
          if is_cascade inverse_field then Ok (unlink [i] t, result)
          else Ok (sql_set_null (_fields_id self) i t, result)
      end
  | LINK_TO i =>
      linked ← browse_int (_fields_id self) i t;
      if bool_decide (linked ≠ id)
      then t ← write [i] [(_fields_id self, Some id)] t; Ok (t, result)
      else Ok (t, result)
  | DELETE_ALL =>
      match inverse_field self with
      | None => Raise (AssertionError no_m2o)
      | Some inverse_field =>
          let ids_to_unlink :=
            search (λ i r, bool_decide (r !! _fields_id self = Some id)
                           && _domain self i r) t in
          if is_cascade inverse_field then Ok (unlink ids_to_unlink t, result)
          else t ← write ids_to_unlink [(_fields_id self, None)] t; Ok (t, result)
      end
  | REPLACE_WITH ids =>
      t ← write ids [(_fields_id self, Some id)] t;
      let ids2 := match ids with [] => [0%Z] | _ => ids end in
      let ids3 :=
        search (λ i r, bool_decide (r !! _fields_id self = Some id)
                       && bool_decide (i ∉ ids2)) t in
      t ← write ids3 [(_fields_id self, None)] t;
      Ok (t, result)
  end.

(** [one2many.set]: the new table and the returned list, [None] when
    there is no command. *)
Definition o2m_set (values : list (command vals)) (t : table)
    : res (table * option (list T)) :=
  match values with
  | [] => Ok (t, None)
  | _ => '(t, result) ← foldM o2m_act values (t, []); Ok (t, Some result)
  end.

End One2many.

(** *** [many2many] *)

(** The database of a many-to-many column: the table of the comodel and
    the relation table, whose rows are the pairs [(id1, id2)]. *)
Record m2m_db := M2mDb {
  comodel : table;
  rel : list (Z * Z);
}.

Record many2many := Many2many {
  rule : Z → row → bool;    (* the clauses of [ir.rule.domain_get], "1=1" is all *)
  IN_MAX : positive;         (* cr.IN_MAX *)
}.

(** Modelled from the spec: [split_every(n, ids)] of the tools, which is
    not in these sources, cuts [ids] into consecutive pieces of at most
    [n] ids until none is left; a bulk step over the pieces has to do what
    the single steps do (§3). *)
Fixpoint split_every {A} (fuel : nat) (n : nat) (l : list A) : list (list A) :=
  match fuel, l with
  | O, _ | _, [] => []
  | Datatypes.S fuel', _ => take n l :: split_every fuel' n (drop n l)
  end.

(** [cr.split_for_in_conditions(ids)] *)
Definition split_for_in_conditions (self : many2many) (ids : list Z) : list (list Z) :=
  split_every (length ids) (Pos.to_nat (IN_MAX self)) ids.

(** [(SELECT ...) EXCEPT (SELECT ...)]: the distinct rows of the left
    operand that are not in the right one. *)
Fixpoint except (l r : list (Z * Z)) : list (Z * Z) :=
  match l with
  | [] => []
  | p :: l' => if bool_decide (p ∈ r) then except l' r else p :: except l' (p :: r)
  end.

Section Many2many.
Variable self : many2many.
Variable id : Z.

(** The [INSERT] statement of [link], for one piece of ids. *)
Definition insert_links (sub_ids : list Z) (rel : list (Z * Z)) : list (Z * Z) :=
  rel ++ except (map (λ i, (id, i)) sub_ids) (filter (λ p, fst p = id) rel).

Definition link (ids : list Z) (rel : list (Z * Z)) : list (Z * Z) :=
  fold_left (λ rel sub_ids, insert_links sub_ids rel)
            (split_for_in_conditions self ids) rel.

(** The [DELETE] statement of [unlink_all]: the links of [id] to the
    records of the comodel the rules give access to. *)
Definition unlink_all (db : m2m_db) : list (Z * Z) :=
  filter (λ p, negb (bool_decide (fst p = id)
                     && match rows (comodel db) !! snd p with
                        | Some r => rule self (snd p) r
                        | None => false
                        end)) (rel db).

(** One iteration of the loop over the commands. Deleting a record of
    the comodel deletes its rows of the relation table with it ("that will
    also delete the relationship because of the ondelete"); the foreign
    keys of the relation table are not checked on insertion. *)
Definition m2m_act (db : m2m_db) (act : command vals) : res m2m_db :=
  match act with
  | CREATE values =>
      let '(idnew, t) := create values (comodel db) in
      Ok (M2mDb t (rel db ++ [(id, idnew)]))
  | UPDATE i values => t ← write [i] values (comodel db); Ok (M2mDb t (rel db))
  | DELETE i =>
      Ok (M2mDb (unlink [i] (comodel db)) (filter (λ p, snd p ≠ i) (rel db)))
  | FORGET i =>
      Ok (M2mDb (comodel db) (filter (λ p, ¬ (fst p = id ∧ snd p = i)) (rel db)))
  | LINK_TO i => Ok (M2mDb (comodel db) (link [i] (rel db)))
  | DELETE_ALL => Ok (M2mDb (comodel db) (unlink_all db))
  | REPLACE_WITH ids => Ok (M2mDb (comodel db) (link ids (unlink_all db)))
  end.

(** [many2many.set] *)
Definition m2m_set (values : list (command vals)) (db : m2m_db) : res m2m_db :=
  foldM m2m_act values db.

(** The records linked to [id], in the order of the relation table. *)
Definition m2m_linked (db : m2m_db) : list Z :=
  map snd (filter (λ p, fst p = id) (rel db)).
End Many2many.

End Relational.

(** The effect of a [write] of one column, row by row. *)

Module RelationalSpec.
Import Relational.




End RelationalSpec.

(** ** [fields.py]: column descriptors and [new()] *)

Module Columns.

(** The classes of columns. *)
Inductive class :=
| _column | boolean | integer | reference | char | text | html | float | date
| datetime | binary | selection | many2one | one2many | many2many | function
| related | sparse | dummy | serialized | property.

#[global] Instance class_eq_dec : EqDecision class.
Proof. solve_decision. Defined.

Definition class_name (c : class) : string :=
  match c with
  | _column => "_column" | boolean => "boolean" | integer => "integer"
  | reference => "reference" | char => "char" | text => "text" | html => "html"
  | float => "float" | date => "date" | datetime => "datetime"
  | binary => "binary" | selection => "selection" | many2one => "many2one"
  | one2many => "one2many" | many2many => "many2many" | function => "function"
  | related => "related" | sparse => "sparse" | dummy => "dummy"
  | serialized => "serialized" | property => "property"
  end.


(** The classes whose [new] is [function.new]. *)
Definition is_function (c : class) : bool :=
  match c with
  | function | related | sparse | dummy | property => true
  | _ => false
  end.

(** [__slots__], with the slots of the base classes. *)
Definition column_slots : list string :=
  [ "copy"; "string"; "help"; "required"; "readonly"; "_domain"; "_context";
    "states"; "priority"; "change_default"; "size"; "ondelete"; "translate";
    "select"; "manual"; "write"; "read"; "selectable"; "group_operator";
    "groups"; "deprecated"; "_args"; "_prefetch" ].

Definition function_slots : list string :=
  [ "_type"; "_classic_read"; "_classic_write"; "_symbol_c"; "_symbol_f";
    "_symbol_set"; "_symbol_get"; "_fnct"; "_arg"; "_fnct_inv"; "_fnct_inv_arg";
    "_fnct_search"; "_multi"; "store"; "_digits"; "_digits_compute"; "selection";
    "_obj" ].

Definition slots (c : class) : list string :=
  match c with
  | reference | selection => ["selection"]
  | char => ["_symbol_f"; "_symbol_set"; "_symbol_set_char"]
  | html => ["_sanitize"; "_strip_style"; "_symbol_f"; "_symbol_set"]
  | float => ["_digits"; "_digits_compute"; "_symbol_f"; "_symbol_set"]
  | binary => ["filters"]
  | many2one => ["_obj"; "_auto_join"]
  | one2many => ["_obj"; "_fields_id"; "_limit"; "_auto_join"]
  | many2many => ["_obj"; "_rel"; "_id1"; "_id2"; "_limit"; "_auto_join"]
  | function | property => function_slots
  | related | dummy => ["arg"; "_relations"] ++ function_slots
  | sparse => ["serialization_field"] ++ function_slots
  | _ => []
  end ++ column_slots.

(** The values of attributes are Python objects of any kind. The embedding
    is parametric in them: it uses the constants and the operations below. *)
Class PyValues := {
pyval : Type;
py_eq : pyval → pyval → bool;                   (* a == b *)
py_truthy : pyval → bool;                       (* bool(a) *)
PNone : pyval;
PBool : bool → pyval;
PInt : Z → pyval;
PStr : string → pyval;
PEmptyList : pyval;                              (* [] *)
PEmptyDict : pyval;                              (* {} *)
PTuple : list pyval → pyval;
PFunction : string → positive → pyval;  (* a lambda or method bound to an object *)
py_lower : pyval → res pyval;                    (* a.lower() *)
py_callable : pyval → bool;                      (* callable(a) *)
py_contains_dot : pyval → res bool;              (* '.' in a *)
api_expected : pyval → pyval;         (* api.expected(api.cr_uid_context, a) *)
py_name : pyval → option string;                 (* a as a key of globals() *)
(* The constructors of the function-backed classes install the callbacks of
   the computation; they are taken as they come: from the class, the
   address of the new object and the keyword arguments to the slots and the
   other attributes of the new object, or an exception. *)
function_init : class → positive → gmap string pyval →
                res (gmap string pyval * gmap string pyval);
}.

Section Objects.
Context `{PyValues}.

(** The class attributes that are data. *)
Definition class_attr (c : class) (name : string) : option pyval :=
  if bool_decide (name = "_classic_read") then
    Some (PBool match c with
                | reference | binary | many2one | one2many | many2many => false
                | _ => true
                end)
  else if bool_decide (name = "_classic_write") then
    Some (PBool match c with one2many | many2many => false | _ => true end)
  else if bool_decide (name = "_auto_join") then Some (PBool false)
  else if bool_decide (name = "_properties") then Some (PBool (is_function c))
  else if bool_decide (name = "_type") then
    Some (PStr match c with
               | _column | function | related | sparse | dummy | property => "unknown"
               | _ => class_name c
               end)
  else if bool_decide (name = "_obj") then Some PNone
  else if bool_decide (name = "_multi") then Some (PBool false)
  else if bool_decide (name = "_symbol_c") then Some (PStr "%s")
  else if bool_decide (name = "_deprecated") then Some (PBool false)
  else None.

(** A descriptor: its class, the values of its slots, and the dictionary
    [_args] of its other attributes. *)
Record object := Object {
  obj_class : class;
  obj_slots : gmap string pyval;
  obj_args : gmap string pyval;
}.

(** The heap maps the addresses of the descriptors to them. *)
Abbreviation heap := (gmap positive object).

(** A computation on the heap returns the heap and a value or an exception. *)
Definition M (A : Type) : Type := heap → heap * res A.

#[global] Instance M_ret : MRet M := λ A a h, (h, Ok a).
#[global] Instance M_bind : MBind M := λ A B k m h,
  match m h with
  | (h', Ok a) => k a h'
  | (h', Raise e) => (h', Raise e)
  end.

Definition raise {A} (e : exn) : M A := λ h, (h, Raise e).

Definition lift {A} (r : res A) : M A := λ h, (h, r).

(** [object.__new__(cls)] *)
Definition alloc (c : class) : M positive := λ h,
  let a := fresh (dom h) in (<[a := Object c ∅ ∅]> h, Ok a).

Definition read (a : positive) : M object := λ h,
  match h !! a with
  | Some o => (h, Ok o)
  | None => (h, Raise (TypeError "no such object"))
  end.

(** [__setattr__]: a slot is set, another attribute goes to the dictionary
    [_args]. The dictionary is kept apart from the slots: a parameter that
    is itself named [_args] is kept as the value of a slot. *)
Definition setattr (self : positive) (name : string) (v : pyval) : M unit := λ h,
  match h !! self with
  | Some o =>
      if bool_decide (name ∈ slots (obj_class o))
      then (<[self := Object (obj_class o) (<[name := v]> (obj_slots o)) (obj_args o)]> h,
            Ok ())
      else (<[self := Object (obj_class o) (obj_slots o) (<[name := v]> (obj_args o))]> h,
            Ok ())
  | None => (h, Raise (TypeError "no such object"))
  end.

(** The lookup of an attribute: a slot, a class attribute, and
    [__getattr__] for the rest. *)
Definition lookup_attr (o : object) (name : string) : res pyval :=
  let __getattr__ :=
    match obj_args o !! name with
    | Some v => Ok v
    | None => Raise (AttributeError name)
    end in
  if bool_decide (name ∈ slots (obj_class o)) then
    match obj_slots o !! name with
    | Some v => Ok v
    | None => __getattr__
    end
  else
    match class_attr (obj_class o) name with
    | Some v => Ok v
    | None => __getattr__
    end.

Definition getattr (self : positive) (name : string) : M pyval :=
  o ← read self; lift (lookup_attr o name).

(** [self._args = EMPTY_DICT] *)
Definition reset_args (self : positive) : M unit := λ h,
  match h !! self with
  | Some o => (<[self := Object (obj_class o) (obj_slots o) ∅]> h, Ok ())
  | None => (h, Raise (TypeError "no such object"))
  end.

(** [for key, val in args.items(): setattr(self, key, val)] *)
Fixpoint setattrs (self : positive) (items : list (string * pyval)) : M unit :=
  match items with
  | [] => mret ()
  | (key, val) :: items' => setattr self key val ≫= λ _, setattrs self items'
  end.

(** *** [__init__] *)

Abbreviation kwargs := (gmap string pyval).

(** [args.get(name, default)] *)
Definition get (args : kwargs) (name : string) (default : pyval) : pyval :=
  match args !! name with
  | Some v => v
  | None => default
  end.

(** The keyword arguments left for [**args] once the named parameters
    have taken theirs. *)
Definition rest (args : kwargs) (named : list string) : kwargs :=
  fold_left (λ args name, delete name args) named args.

(** A parameter without default value. *)
Definition required_arg (c : class) (args : kwargs) (name : string) : M pyval :=
  match args !! name with
  | Some v => mret v
  | None => raise (TypeError (class_name c +:+ ".__init__() missing argument " +:+ name))
  end.

(** [a or b] *)
Definition py_or (a b : pyval) : pyval := if py_truthy a then a else b.

(** [_column.__init__(self, **all)] *)
Definition column_init (self : positive) (all : kwargs) : M unit :=
  let string := get all "string" (PStr "unknown") in
  let required := get all "required" (PBool false) in
  let readonly := get all "readonly" (PBool false) in
  let domain := get all "domain" PEmptyList in
  let context := get all "context" PEmptyDict in
  let states := get all "states" PNone in
  let priority := get all "priority" (PInt 0) in
  let change_default := get all "change_default" (PBool false) in
  let size := get all "size" PNone in
  let ondelete := get all "ondelete" PNone in
  let translate := get all "translate" (PBool false) in
  let select := get all "select" (PBool false) in
  let manual := get all "manual" (PBool false) in
  let args := rest all [ "string"; "required"; "readonly"; "domain"; "context";
                         "states"; "priority"; "change_default"; "size"; "ondelete";
                         "translate"; "select"; "manual" ] in
  let args := <["copy" := get args "copy" (PBool true)]> args in
  let args := <["string" := string]> args in
  let args := <["help" := get args "help" (PStr "")]> args in
  let args := <["required" := required]> args in
  let args := <["readonly" := readonly]> args in
  let args := <["_domain" := domain]> args in
  let args := <["_context" := context]> args in
  let args := <["states" := states]> args in
  let args := <["priority" := priority]> args in
  let args := <["change_default" := change_default]> args in
  let args := <["size" := size]> args in
  ondelete ← (if py_truthy ondelete then lift (py_lower ondelete) else mret PNone);
  let args := <["ondelete" := ondelete]> args in
  let args := <["translate" := translate]> args in
  let args := <["select" := select]> args in
  let args := <["manual" := manual]> args in
  let args := <["write" := get args "write" (PBool false)]> args in
  let args := <["read" := get args "read" (PBool false)]> args in
  let args := <["selectable" := get args "selectable" (PBool true)]> args in
  let args := <["group_operator" := get args "group_operator" PNone]> args in
  let args := <["groups" := get args "groups" PNone]> args in
  let args := <["deprecated" := get args "deprecated" PNone]> args in
  let args := <["_prefetch" := get args "_prefetch" (PBool true)]> args in
  reset_args self;;
  setattrs self (map_to_list args);;
  (* prefetch only if _classic_write, not deprecated and not manual *)
  _classic_write ← getattr self "_classic_write";
  no_prefetch ←
    (if negb (py_truthy _classic_write) then mret true
     else deprecated ← getattr self "deprecated";
          if py_truthy deprecated then mret true
          else manual ← getattr self "manual"; mret (py_truthy manual));
  if no_prefetch : bool then setattr self "_prefetch" (PBool false) else mret ().

(** [self._symbol_set = (self._symbol_c, self._symbol_f)] *)
Definition set_symbol_set (self : positive) : M unit :=
  _symbol_c ← getattr self "_symbol_c";
  _symbol_f ← getattr self "_symbol_f";
  setattr self "_symbol_set" (PTuple [_symbol_c; _symbol_f]).

(** A selection that is callable is wrapped. *)
Definition expected (selection : pyval) : pyval :=
  if py_callable selection then api_expected selection else selection.

(** [cls.__init__(self, **all)] *)
Definition init (c : class) (self : positive) (all : kwargs) : M unit :=
  match c with
  | _column | boolean | integer | text | date | datetime => column_init self all
  | reference =>
      _ ← required_arg c all "string";
      selection ← required_arg c all "selection";
      column_init self (<["selection" := expected selection]> all)
  | char =>
      let size := get all "size" PNone in
      column_init self (<["size" := py_or size PNone]> all);;
      setattr self "_symbol_f" (PFunction "_symbol_set_char" self);;
      setattr self "_symbol_set_char" (PFunction "_symbol_set_char" self);;
      set_symbol_set self
  | html =>
      let sanitize := get all "sanitize" (PBool true) in
      let strip_style := get all "strip_style" (PBool false) in
      column_init self (rest all ["sanitize"; "strip_style"]);;
      setattr self "_sanitize" sanitize;;
      setattr self "_strip_style" strip_style;;
      setattr self "_symbol_f" (PFunction "_symbol_set_html" self);;
      set_symbol_set self
  | float =>
      let digits := get all "digits" PNone in
      let digits_compute := get all "digits_compute" PNone in
      column_init self (rest all ["digits"; "digits_compute"]);;
      setattr self "_digits" digits;;
      setattr self "_digits_compute" digits_compute;;
      setattr self "_symbol_f" (PFunction "_symbol_set_float" self);;
      set_symbol_set self
  | binary =>
      let filters := get all "filters" PNone in
      let args := rest all ["string"; "filters"] in
      let args := <["_prefetch" := get args "_prefetch" (PBool false)]> args in
      column_init self (<["filters" := filters]>
                          (<["string" := get all "string" (PStr "unknown")]> args))
  | selection =>
      selection ← required_arg c all "selection";
      column_init self (<["selection" := expected selection]> all)
  | many2one =>
      obj ← required_arg c all "obj";
      let auto_join := get all "auto_join" (PBool false) in
      let args := rest all ["obj"; "auto_join"] in
      let args := <["ondelete" := get args "ondelete" (PStr "set null")]> args in
      column_init self args;;
      setattr self "_obj" obj;;
      setattr self "_auto_join" auto_join
  | one2many =>
      obj ← required_arg c all "obj";
      fields_id ← required_arg c all "fields_id";
      let limit := get all "limit" PNone in
      let auto_join := get all "auto_join" (PBool false) in
      let args := rest all ["obj"; "fields_id"; "limit"; "auto_join"] in
      (* one2many columns are not copied by default *)
      let args := <["copy" := get args "copy" (PBool false)]> args in
      let args := <["_prefetch" := get args "_prefetch" (PBool false)]> args in
      column_init self args;;
      setattr self "_obj" obj;;
      setattr self "_fields_id" fields_id;;
      setattr self "_limit" limit;;
      setattr self "_auto_join" auto_join;;
      (* one2many can't be used as condition for defaults *)
      change_default ← getattr self "change_default";
      if py_eq change_default (PBool true)
      then raise (AssertionError "self.change_default != True") else mret ()
  | many2many =>
      obj ← required_arg c all "obj";
      let rel := get all "rel" PNone in
      let id1 := get all "id1" PNone in
      let id2 := get all "id2" PNone in
      let limit := get all "limit" PNone in
      let args := rest all ["obj"; "rel"; "id1"; "id2"; "limit"] in
      let args := <["_prefetch" := get args "_prefetch" (PBool false)]> args in
      column_init self args;;
      setattr self "_obj" obj;;
      dotted ← (if py_truthy rel then lift (py_contains_dot rel) else mret false);
      (if dotted : bool
       then raise (ExceptionE (Err
         "The second argument of the many2many field %s must be a SQL table !You used %s, which is not a valid SQL table name."
         [] None))
       else mret ());;
      setattr self "_rel" rel;;
      setattr self "_id1" id1;;
      setattr self "_id2" id2;;
      setattr self "_limit" limit;;
      setattr self "_auto_join" (PBool false)
  | serialized =>
      column_init self (<["_prefetch" := get all "_prefetch" (PBool false)]> all)
  | function | related | sparse | dummy | property => λ h,
      match function_init c self all with
      | Ok (slots, args) => (<[self := Object c slots args]> h, Ok ())
      | Raise e => (h, Raise e)
      end
  end.

(** The call of a class with keyword arguments: a new object, initialised. *)
Definition construct (c : class) (args : kwargs) : M positive :=
  self ← alloc c; init c self args;; mret self.

(** *** [to_field_args] *)







(** *** [new] *)






End Objects.

Abbreviation heap := (gmap positive object).
Abbreviation kwargs := (gmap string pyval).

End Columns.

(** ** [fields.py]: the values handed to and read from the database *)

Module Codec.

(** The values these functions are given, as far as they tell them apart:
    [None], booleans, integers and texts. *)
Inductive pyv :=
| PyNone
| PyBool (b : bool)
| PyInt (z : Z)
| PyStr (s : string).

(** [bool(v)] *)
Definition truthy (v : pyv) : bool :=
  match v with
  | PyNone | PyBool false | PyInt Z0 | PyStr EmptyString => false
  | _ => true
  end.

Definition is_None (v : pyv) : bool :=
  match v with
  | PyNone => true
  | _ => false
  end.

(** [v == False]: [False] itself and the integer 0. *)
Definition eq_False (v : pyv) : bool :=
  match v with
  | PyBool false | PyInt Z0 => true
  | _ => false
  end.

(** [str(v)] *)
Definition py_str (v : pyv) : string :=
  match v with
  | PyNone => "None"
  | PyBool true => "True"
  | PyBool false => "False"
  | PyInt z => str_of_Z z
  | PyStr s => s
  end.


(** The first [n] characters of a text. *)
Fixpoint take_str (n : nat) (s : string) : string :=
  match n, s with
  | O, _ => EmptyString
  | _, EmptyString => EmptyString
  | Datatypes.S n', String c s' => String c (take_str n' s')
  end.

(** [s[:size]]: all of [s] when [size] is [None], its first [size]
    characters when [size] is not negative, and all but its last [-size]
    characters otherwise. *)
Definition slice_to (size : option Z) (s : string) : string :=
  match size with
  | None => s
  | Some n =>
      if (0 <=? n)%Z then take_str (Z.to_nat n) s
      else take_str (String.length s - Z.to_nat (- n)) s
  end.

Section Tools.
(** [tools.ustr] and [tools.human_size] are not in these sources: the
    functions below are parametric in them. [ustr v] is the text
    [tools.ustr] makes of a value. *)
Variable ustr : pyv → string.
Variable human_size : Z → pyv.

(** [_symbol_set_char], the setter of [char] columns; [size] is
    [self.size]. *)
Definition _symbol_set_char (size : option Z) (symb : pyv) : option string :=
  if is_None symb || eq_False symb then None
  else
    let u_symb := ustr symb in
    Some (slice_to size u_symb).

(** *** Binary values of function fields *)

(** What a read returns for a binary value: a value as above, or the byte
    string [base64.b64encode] makes. *)
Inductive out :=
| Val (v : pyv)
| Bytes (b : string).

(** The character class of [invalid_xml_low_bytes]:
    [[\x00-\x08\x0b-\x0c\x0e-\x1f]]. *)
Definition invalid_xml_low_byte (c : ascii) : bool :=
  let n := nat_of_ascii c in
  (n <=? 8)%nat || ((11 <=? n)%nat && (n <=? 12)%nat)
  || ((14 <=? n)%nat && (n <=? 31)%nat).

(** [invalid_xml_low_bytes.search(s)] finds a match. *)
Fixpoint invalid_xml_low_bytes (s : string) : bool :=
  match s with
  | EmptyString => false
  | String c s' => invalid_xml_low_byte c || invalid_xml_low_bytes s'
  end.

Definition b64_alphabet : string :=
  "ABCDEFGHIJKLMNOPQRSTUVWXYZabcdefghijklmnopqrstuvwxyz0123456789+/".

Definition b64_char (n : nat) : ascii :=
  match String.get n b64_alphabet with
  | Some c => c
  | None => "A"%char
  end.

(** [base64.b64encode], on the bytes of a text of characters below 256
    ([value.encode('latin-1')]): three bytes give four characters of the
    alphabet, the last group is padded with ["="]. *)
Fixpoint b64encode (s : string) : string :=
  match s with
  | EmptyString => EmptyString
  | String a EmptyString =>
      let a := nat_of_ascii a in
      String (b64_char (a / 4)) (String (b64_char (a mod 4 * 16)) "==")
  | String a (String b EmptyString) =>
      let a := nat_of_ascii a in
      let b := nat_of_ascii b in
      String (b64_char (a / 4))
        (String (b64_char (a mod 4 * 16 + b / 16))
           (String (b64_char (b mod 16 * 4)) "="))
  | String a (String b (String c s')) =>
      let a := nat_of_ascii a in
      let b := nat_of_ascii b in
      let c := nat_of_ascii c in
      String (b64_char (a / 4))
        (String (b64_char (a mod 4 * 16 + b / 16))
           (String (b64_char (b mod 16 * 4 + c / 64))
              (String (b64_char (c mod 64)) (b64encode s'))))
  end.

(** [sanitize_binary_value], on the values above (the containers and
    [xmlrpc] binaries that pass untouched are not among them). *)
Definition sanitize_binary_value (value : pyv) : out :=
  let value := ustr value in
  if invalid_xml_low_bytes value then Bytes (b64encode value)
  else Val (PyStr value).

(** [get_nice_size] *)
Definition get_nice_size (value : pyv) : pyv :=
  match value with
  | PyInt size => human_size size
  | PyBool b => human_size (Z.b2z b)
  | PyStr (String _ _ as s) =>
      let size := String.length s in
      if (size <? 12)%nat then value (* suppose human size *)
      else human_size (Z.of_nat size)
  | _ => human_size 0
  end.

(** The keys [bin_size] and [bin_raw] of the context, as [context.get]
    finds them true or not. *)
Record context := Context {
  bin_size : bool;
  bin_raw : bool;
}.

(** [for rid, value in values.items(): if value: new_values[rid] = f(value)] *)
Definition replace_truthy (f : pyv → out) (values : gmap Z pyv) (new_values : gmap Z out)
    : gmap Z out :=
  map_fold (λ rid value new_values,
              if truthy value then <[rid := f value]> new_values else new_values)
           new_values values.

(** [function._postprocess_batch]; [_columns] gives the type of the
    columns of the model, by name. *)
Definition _postprocess_batch (_columns : gmap string string) (field : string)
    (values : gmap Z pyv) (context : context) : res (gmap Z out) :=
  if bool_decide (values = ∅) then Ok (Val <$> values)
  else
    match _columns !! field with
    | None => Raise (KeyError (Some field))
    | Some field_type =>
        let new_values := Val <$> values in
        if bool_decide (field_type = "binary") then
          if bin_size context then
            (* client requests only the size of binary fields *)
            Ok (replace_truthy (λ value, Val (get_nice_size value)) values new_values)
          else if negb (bin_raw context) then
            Ok (replace_truthy sanitize_binary_value values new_values)
          else Ok new_values
        else Ok new_values
    end.

(** [function.postprocess] *)
Definition postprocess (_columns : gmap string string) (field : string)
    (value : pyv) (context : context) : res out :=
  new_values ← _postprocess_batch _columns field {[ 0%Z := value ]} context;
  match new_values !! 0%Z with
  | Some v => Ok v
  | None => Raise (KeyError (Some "0"))
  end.
End Tools.

End Codec.

(** ** [fields.py]: the names of the relation table of a [many2many] *)

Module SqlNames.

(** The slots [_rel], [_id1] and [_id2] of the column: a name, or [None]. *)
Record many2many := Many2many {
  _rel : option string;
  _id1 : option string;
  _id2 : option string;
}.

(** The truth value of a name: [None] and the empty text are false. *)
Definition named (name : option string) : bool :=
  match name with
  | Some (String _ _) => true
  | _ => false
  end.

(** [tuple(sorted([a, b]))] *)
Definition sorted (a b : string) : string * string :=
  if String.ltb b a then (b, a) else (a, b).

Definition same_model : string :=
  "Implicit/Canonical naming of m2m relationship table is not possible when source and destination models are the same".

(** [many2many._sql_names]; [source_table] is [source_model._table], and
    [dest_model] the table of [source_model.pool[self._obj]], or the error
    of this lookup. *)
Definition _sql_names (self : many2many) (source_table : string)
    (dest_model : res string) : res (string * string * string) :=
  let '(tbl, col1, col2) := (_rel self, _id1 self, _id2 self) in
  if negb (named tbl && named col1 && named col2) then
    (* the default table name is based on the stable alphabetical order of tables *)
    dest_table ← dest_model;
    let tables := sorted source_table dest_table in
    tbl ← (if negb (named tbl) then
             if bool_decide (fst tables ≠ snd tables)
             then Ok (fst tables +:+ "_" +:+ snd tables +:+ "_rel")
             else Raise (AssertionError same_model)
           else Ok (default "" tbl));
    let col1 := if negb (named col1) then source_table +:+ "_id" else default "" col1 in
    let col2 := if negb (named col2) then dest_table +:+ "_id" else default "" col2 in
    Ok (tbl, col1, col2)
  else Ok (default "" tbl, default "" col1, default "" col2).

End SqlNames.

(** ** [fields.py]: reading a [one2many] *)

Module RelationalGet.
Import IrFields Relational.

(** Modelled from the spec: [comodel.search(domain, limit=n)] keeps the
    first [n] of the records the domain holds of; without a limit it keeps
    them all. *)
Definition search_limit (domain : Z → row → bool) (limit : option positive) (t : table)
    : list Z :=
  match limit with
  | None => search domain t
  | Some n => take (Pos.to_nat n) (search domain t)
  end.

Section One2many.
Context {T : Type} (self : one2many T).
(** [self._limit] *)
Variable _limit : option positive.

(** One iteration of the loop over the records found:
    [result[int(record[inverse])].append(record.id)]. *)
Definition o2m_get_record (t : table) (result : gmap Z (list Z)) (record : Z)
    : res (gmap Z (list Z)) :=
  parent ← browse_int (_fields_id self) record t;
  match result !! parent with
  | Some l => Ok (<[parent := l ++ [record]]> result)
  | None => Raise (KeyError (Some (str_of_Z parent)))
  end.

(** [one2many.get]: for each of [ids], the records of the comodel whose
    inverse field is that id. *)
Definition o2m_get (ids : list Z) (t : table) : res (gmap Z (list Z)) :=
  let inverse := _fields_id self in
  let domain := λ i r,
    _domain self i r
    && match r !! inverse with
       | Some p => bool_decide (p ∈ ids)
       | None => false
       end in
  let records := search_limit domain _limit t in
  let result := list_to_map ((λ id, (id, [])) <$> ids) in
  foldM (o2m_get_record t) records result.
End One2many.

End RelationalGet.

(** ** Sinks, and records every field of which is handled *)

Module IrFieldsSpec.
Import IrFields.

(** The sink of a top-level import, [(field, error) -> None]: it records
    what it is given and never raises. *)
Definition record_log : logger (list (key * issue)) := λ field e s,
  (s ++ [(field, e)], Ok ()).

(** An entry the loop of [fn] gets past: it is a reference sub-field, or
    empty, or its field has a converter which returns or raises a
    [ValueError] on it. *)
Definition handled (converters : list (key * option converter)) (kv : key * raw) : Prop :=
  is_ref (fst kv) = true ∨ truthy (snd kv) = false ∨
  ∃ conv, getitem converters (fst kv) = Ok (Some conv) ∧
          match conv (snd kv) with
          | Ok _ | Raise (ValueError _) => True
          | Raise _ => False
          end.

(** What the converted record [d] and the log hold for the entry of
    field [k] with value [v]. *)
Definition outcome (converters : list (key * option converter))
    (logged : list (key * issue)) (d : dict) (k : key) (v : raw) : Prop :=
  if is_ref k then getitem d k = Raise (KeyError k)
  else if negb (truthy v) then getitem d k = Ok (VBool false)
  else match getitem converters k with
       | Ok (Some conv) =>
           match conv v with
           | Ok (v', ws) => getitem d k = Ok v'
           | Raise (ValueError e) =>
               (k, IError e) ∈ logged ∧ getitem d k = Raise (KeyError k)
           | Raise _ => False
           end
       | _ => False
       end.

End IrFieldsSpec.

(** ** Example data *)

Module Examples.
Import IrFields.

(** A registry with partners, their children (one-to-many), categories
    (many-to-many) and a serialized field, which has no converter. *)
Definition partner_fields : list (string * field) :=
  [ ("name", Field "char" "" []);
    ("credit", Field "float" "" []);
    ("active", Field "boolean" "" []);
    ("parent_id", Field "many2one" "res.partner" []);
    ("child_ids", Field "one2many" "res.partner" []);
    ("category_id", Field "many2many" "res.partner.category" []);
    ("blob", Field "serialized" "" []) ].

Definition decimal_digit (c : ascii) : option Z :=
  let n := Z.of_nat (nat_of_ascii c) in
  if ((48 <=? n) && (n <=? 57))%Z then Some (n - 48)%Z else None.

(** Texts made of decimal digits only, enough of [int()] for the examples. *)
Fixpoint digits (acc : Z) (s : string) : option Z :=
  match s with
  | EmptyString => Some acc
  | String c s' =>
      match decimal_digit c with
      | Some d => digits (10 * acc + d)%Z s'
      | None => None
      end
  end.

Definition example_env : Env := {|
  tzinfo := unit;
  naive := string;
  gettext := id;
  py_int := λ s, match s with EmptyString => None | _ => digits 0 s end;
  py_float := λ _, None;
  py_lower := id;
  strptime_date := λ _, false;
  strptime_datetime := λ _, None;
  pytz_timezone := λ _, None;
  pytz_UTC := ();
  localize_to_utc := λ _ s, s;
  context_tz := None;
  user_tz := None;
  import_current_module := "base";
  translation_values := λ _ _, [];
  fields_of := λ m, if bool_decide (m = "res.partner") then partner_fields else [];
  env_ref := λ x, if bool_decide (x = "base.ref1") then Some 42%Z else None;
  search_id := λ _ i, bool_decide (i = 42%Z);
  name_search := λ _ _, [];
|}.

Import Relational.

(** Categories 7 and 8; the record 1 is linked to the category 7, which
    the rules of the user hide. *)
Definition categories : m2m_db :=
  M2mDb (Table {[ 7%Z := ∅; 8%Z := ∅ ]} 9) [(1%Z, 7%Z)].


Definition no_rule : many2many := Many2many (λ _ _, true) 1000.

(** Children 7 and 8 of the partner 1, and the partner 9 without parent. *)
Definition partners : table :=
  Table {[ 7%Z := {[ "parent_id" := 1%Z ]};
           8%Z := {[ "parent_id" := 1%Z ]};
           9%Z := ∅ ]} 10.

Definition child_ids (ondelete : option string) (domain : Z → row → bool)
    : one2many unit :=
  One2many unit "parent_id" domain (Some (Inverse ondelete)) (λ _ _, []).

Import Columns.

(** A small universe of Python values for the examples. *)
Inductive sval :=
| SNone
| SBool (b : bool)
| SInt (z : Z)
| SStr (s : string)
| SEmptyList
| SEmptyDict
| STuple (l : list sval)
| SFunction (name : string) (self : positive).

(** [a == b]: [True] is 1 and [False] is 0. *)
Fixpoint sval_eq (a b : sval) : bool :=
  match a, b with
  | SNone, SNone | SEmptyList, SEmptyList | SEmptyDict, SEmptyDict => true
  | SBool x, SBool y => Bool.eqb x y
  | SBool x, SInt z | SInt z, SBool x => (z =? (if x then 1 else 0))%Z
  | SInt x, SInt y => (x =? y)%Z
  | SStr x, SStr y => String.eqb x y
  | STuple l1, STuple l2 =>
      (fix go (l1 l2 : list sval) : bool :=
         match l1, l2 with
         | [], [] => true
         | x :: l1', y :: l2' => sval_eq x y && go l1' l2'
         | _, _ => false
         end) l1 l2
  | SFunction n a, SFunction n' a' => String.eqb n n' && (a =? a')%positive
  | _, _ => false
  end.

Definition sval_truthy (a : sval) : bool :=
  match a with
  | SNone | SEmptyList | SEmptyDict | SBool false | SInt Z0 | SStr EmptyString
  | STuple [] => false
  | _ => true
  end.

Definition lower_ascii (c : ascii) : ascii :=
  let n := nat_of_ascii c in
  if ((65 <=? n) && (n <=? 90))%nat then ascii_of_nat (n + 32) else c.

Fixpoint lower (s : string) : string :=
  match s with
  | EmptyString => EmptyString
  | String c s' => String (lower_ascii c) (lower s')
  end.

(** In the examples no function-backed column is built by a call of its
    class, which needs the function that computes it. *)
Definition example_values : PyValues := {|
  pyval := sval;
  py_eq := sval_eq;
  py_truthy := sval_truthy;
  PNone := SNone;
  PBool := SBool;
  PInt := SInt;
  PStr := SStr;
  PEmptyList := SEmptyList;
  PEmptyDict := SEmptyDict;
  PTuple := STuple;
  PFunction := SFunction;
  py_lower := λ a, match a with
                   | SStr s => Ok (SStr (lower s))
                   | _ => Raise (AttributeError "lower")
                   end;
  py_callable := λ a, match a with SFunction _ _ => true | _ => false end;
  py_contains_dot := λ a, match a with
                          | SStr s => Ok (contains "." s)
                          | _ => Raise (TypeError "argument is not iterable")
                          end;
  api_expected := λ a, a;
  py_name := λ a, match a with SStr s => Some s | _ => None end;
  function_init := λ _ _ _, Raise (TypeError "__init__() missing argument fnct");
|}.





End Examples.

(** * Properties of the import converter *)

Module IrFieldsFacts.
Import IrFields IrFieldsSpec Examples.

(** Closes a decidable goal on concrete data by evaluation. *)
Ltac decide_by_compute := apply (bool_decide_unpack _); vm_compute; exact I.

Example split_two : split "," "ref1,ref2" = ["ref1"; "ref2"].
Proof. reflexivity. Qed.

Example split_empty : split "," "" = [""].
Proof. reflexivity. Qed.

(** *** Dictionaries *)

Lemma getitem_setitem_eq {V} (d : list (key * V)) k v :
  getitem (setitem k v d) k = Ok v.
Proof.
  induction d as [|[k' v'] d IH]; simpl.
  - by rewrite bool_decide_eq_true_2.
  - destruct (decide (k' = k)) as [->|Hne].
    + rewrite bool_decide_eq_true_2 by done. simpl.
      by rewrite bool_decide_eq_true_2.
    + rewrite bool_decide_eq_false_2 by done. simpl.
      by rewrite bool_decide_eq_false_2.
Qed.

Lemma getitem_setitem_ne {V} (d : list (key * V)) k k' v :
  k ≠ k' → getitem (setitem k v d) k' = getitem d k'.
Proof.
  intros Hne. induction d as [|[k0 v0] d IH]; simpl.
  - by rewrite bool_decide_eq_false_2.
  - destruct (decide (k0 = k)) as [->|Hne0].
    + rewrite bool_decide_eq_true_2 by done. simpl.
      by rewrite !bool_decide_eq_false_2.
    + rewrite bool_decide_eq_false_2 by done. simpl.
      by rewrite IH.
Qed.

Lemma is_ref_tuple k :
  bool_decide (k ∈ [None; Some "id"; Some ".id"]) = is_ref k.
Proof.
  unfold is_ref, REFERENCING_FIELDS. apply bool_decide_ext.
  rewrite !elem_of_cons, elem_of_nil, !elem_of_union, !elem_of_singleton. tauto.
Qed.

Lemma getitem_exclude_ref {V} (d : list (key * V)) k :
  is_ref k = false →
  getitem (List.filter (λ kv, negb (is_ref (fst kv))) d) k = getitem d k.
Proof.
  intros Hk. induction d as [|[k' v'] d IH]; simpl; [done|].
  destruct (decide (k' = k)) as [->|Hne].
  - rewrite Hk. simpl. by rewrite !bool_decide_eq_true_2.
  - rewrite (bool_decide_eq_false_2 _ Hne).
    destruct (is_ref k'); simpl; [done|].
    by rewrite (bool_decide_eq_false_2 _ Hne).
Qed.

(** *** The loop of [fn] *)

Section FnFacts.
Context {S : Type} (log : logger S).

Lemma fn_entry_exclude_ref cs d kv s :
  is_ref (fst kv) = false →
  fn_entry (List.filter (λ kv, negb (is_ref (fst kv))) cs) log d kv s
  = fn_entry cs log d kv s.
Proof.
  intros Hk. destruct kv as [k v]. unfold fn_entry.
  by rewrite getitem_exclude_ref.
Qed.

Lemma fn_loop_exclude_ref cs r d s :
  fn_loop cs log r d s
  = fn_loop (List.filter (λ kv, negb (is_ref (fst kv))) cs) log
            (exclude_ref_fields r) d s.
Proof.
  revert d s. induction r as [|[k v] r IH]; intros d s; [done|].
  cbn [fn_loop exclude_ref_fields List.filter fst].
  destruct (is_ref k) eqn:Hk; cbn [negb fn_loop].
  - assert (fn_entry cs log d (k, v) s = (s, Ok d)) as ->; [|apply IH].
    unfold fn_entry. by rewrite is_ref_tuple, Hk.
  - rewrite (fn_entry_exclude_ref cs d (k, v) s Hk).
    destruct (fn_entry cs log d (k, v) s) as [s' [d'|e]]; [apply IH|done].
Qed.

Lemma fn_entry_keys cs d kv s s' d' :
  Forall (λ kv, is_ref (fst kv) = false) d →
  fn_entry cs log d kv s = (s', Ok d') →
  Forall (λ kv, is_ref (fst kv) = false) d'.
Proof.
  assert (Hset : ∀ k (v : value) d, is_ref k = false →
            Forall (λ kv, is_ref (fst kv) = false) d →
            Forall (λ kv, is_ref (fst kv) = false) (setitem k v d)).
  { intros k v d0 Hk. induction 1 as [|[k0 v0] d1 H0 H1 IH]; simpl.
    - by repeat constructor.
    - case_bool_decide; constructor; done. }
  intros Hd. destruct kv as [k v]. unfold fn_entry.
  rewrite is_ref_tuple. destruct (is_ref k) eqn:Hk; [naive_solver|].
  destruct (truthy v); simpl; [|intros E; simplify_eq; by apply Hset].
  destruct (getitem cs k) as [[conv|]|]; [|done..].
  destruct (conv v) as [[v' ws]|[]]; try done.
  - destruct (log_warnings log k ws s) as [s1 [[]|[]]]; try done.
    + intros E; simplify_eq. by apply Hset.
    + destruct (log k (IError e) s1) as [s2 [[]|]]; simpl; [|done].
      intros E; simplify_eq. by apply Hset.
  - destruct (log k (IError e) s) as [s2 [[]|]]; simpl; [|done].
    by intros E; simplify_eq.
Qed.

Lemma fn_loop_keys cs r d s s' d' :
  Forall (λ kv, is_ref (fst kv) = false) d →
  fn_loop cs log r d s = (s', Ok d') →
  Forall (λ kv, is_ref (fst kv) = false) d'.
Proof.
  revert d s. induction r as [|kv r IH]; intros d s Hd; simpl.
  - by intros E; simplify_eq.
  - destruct (fn_entry cs log d kv s) as [s1 [d1|e]] eqn:E; [|done].
    apply IH. eapply fn_entry_keys; eauto.
Qed.
End FnFacts.

(** C10: the converter returned by [for_model] ignores the entries of the
    keys [None], ['id'] and ['.id']: the record converts exactly as the
    record without them does, with the same effect on the sink, also when
    the converters registered under these keys are taken away; and no
    such key is in the converted record. *)
Theorem c10_reference_keys_ignored {S : Type} (env : Env) (depth : nat)
    (model fromtype : string) (log : logger S) (r : record) (s : S) :
  for_model env depth model fromtype log r s
  = fn (List.filter (λ kv, negb (is_ref (fst kv)))
          (converters_of env depth fromtype model))
       log (exclude_ref_fields r) s
  ∧ match snd (for_model env depth model fromtype log r s) with
    | Ok d => Forall (λ kv, fst kv ∉ REFERENCING_FIELDS) d
    | Raise _ => True
    end.
Proof.
  unfold for_model, fn. split; [apply fn_loop_exclude_ref|].
  destruct (fn_loop _ log r [] s) as [s' [d|e]] eqn:E; simpl; [|done].
  eapply Forall_impl; [eapply fn_loop_keys; eauto|].
  intros [k v]. unfold is_ref. simpl. by intros ?%bool_decide_eq_false.
Qed.

(** *** Fatal errors at the field boundary *)

Lemma log_warnings_record k ws s :
  log_warnings record_log k ws s
  = (s ++ map (λ w, (k, IWarning match w with
                                 | WStr m => Err m [] None
                                 | WImport w => w
                                 end)) ws, Ok ()).
Proof.
  revert s. induction ws as [|w ws IH]; intros s; simpl.
  - by rewrite app_nil_r.
  - rewrite IH. by rewrite <- app_assoc.
Qed.

Lemma outcome_logged_app cs l1 l2 d k v :
  outcome cs l2 d k v → outcome cs (l1 ++ l2) d k v.
Proof.
  unfold outcome. destruct (is_ref k); [done|].
  destruct (negb (truthy v)); [done|].
  destruct (getitem cs k) as [[conv|]|]; [|done..].
  destruct (conv v) as [[v' ws]|[]]; try done.
  intros [Hin Hd]. split; [|done]. apply elem_of_app. by right.
Qed.

Lemma fn_loop_handled cs r : ∀ d0 s,
  NoDup (map fst r) →
  (∀ k, k ∈ map fst r → getitem d0 k = Raise (KeyError k)) →
  Forall (handled cs) r →
  ∃ logged d,
    fn_loop cs record_log r d0 s = (s ++ logged, Ok d)
    ∧ (∀ k, k ∉ map fst r → getitem d k = getitem d0 k)
    ∧ (∀ k v, (k, v) ∈ r → outcome cs logged d k v).
Proof.
  induction r as [|[k v] r IH]; intros d0 s Hnd Hd0 Hall.
  - exists [], d0. simpl. rewrite app_nil_r. split_and!; [done..|].
    intros k v Hin. by apply elem_of_nil in Hin.
  - apply NoDup_cons in Hnd as [Hk Hnd]. apply Forall_cons in Hall as [Hkv Hall].
    (* the entry of [k] extends the log by [l1] and gives the dictionary [d1] *)
    assert (∃ l1 d1, fn_entry cs record_log d0 (k, v) s = (s ++ l1, Ok d1)
              ∧ (∀ k', k' ≠ k → getitem d1 k' = getitem d0 k')
              ∧ (∀ l2 d, getitem d k = getitem d1 k → outcome cs (l1 ++ l2) d k v))
      as (l1 & d1 & Hentry & Hother & Hout).
    { unfold fn_entry, outcome. rewrite is_ref_tuple.
      destruct (is_ref k) eqn:Hr.
      { exists [], d0. rewrite app_nil_r. split_and!; [done..|].
        intros l2 d ->. apply Hd0. simpl. apply elem_of_cons. by left. }
      destruct (truthy v) eqn:Hv; simpl.
      2:{ exists [], (setitem k (VBool false) d0). rewrite app_nil_r.
          split_and!; [done| |].
          - intros k' Hne. by apply getitem_setitem_ne.
          - intros l2 d ->. apply getitem_setitem_eq. }
      destruct Hkv as [Hkv|[Hkv|(conv & Hconv & Hres)]]; simpl in *; [congruence..|].
      rewrite Hconv. destruct (conv v) as [[v' ws]|[]]; try done.
      - rewrite log_warnings_record. eexists _, (setitem k v' d0).
        split_and!; [done| |].
        + intros k' Hne. by apply getitem_setitem_ne.
        + intros l2 d ->. apply getitem_setitem_eq.
      - unfold record_log. simpl. exists [(k, IError e)], d0.
        split_and!; [done..|].
        intros l2 d ->. split.
        + apply elem_of_cons. by left.
        + apply Hd0. simpl. apply elem_of_cons. by left. }
    destruct (IH d1 (s ++ l1) Hnd) as (l2 & d & Hloop & Hrest & Houts); [|done|].
    { intros k' Hk'. rewrite Hother.
      - apply Hd0. simpl. apply elem_of_cons. by right.
      - intros ->. done. }
    exists (l1 ++ l2), d. cbn [fn_loop]. rewrite Hentry, Hloop, app_assoc.
    split_and!; [done| |].
    + intros k' Hk'. simpl in Hk'. apply not_elem_of_cons in Hk' as [Hne Hk'].
      rewrite Hrest by done. by apply Hother.
    + intros k' v' Hin. apply elem_of_cons in Hin as [Heq|Hin].
      * simplify_eq. apply Hout. by apply Hrest.
      * apply outcome_logged_app. by apply Houts.
Qed.

Lemma fn_loop_app {S : Type} cs (log : logger S) pre post d s :
  fn_loop cs log (pre ++ post) d s
  = match fn_loop cs log pre d s with
    | (s1, Ok d1) => fn_loop cs log post d1 s1
    | (s1, Raise e) => (s1, Raise e)
    end.
Proof.
  revert d s. induction pre as [|kv pre IH]; intros d s; [done|].
  cbn [app fn_loop]. destruct (fn_entry cs log d kv s) as [s' [d'|e]]; [apply IH|done].
Qed.

(** With a recording sink the loop appends to the log, whatever the log
    holds. *)
Lemma fn_entry_record_log cs d kv s :
  fn_entry cs record_log d kv s
  = (s ++ fst (fn_entry cs record_log d kv []), snd (fn_entry cs record_log d kv [])).
Proof.
  destruct kv as [k v]. unfold fn_entry.
  destruct (bool_decide _); [by rewrite app_nil_r|].
  destruct (truthy v); cbn [negb]; [|by rewrite app_nil_r].
  destruct (getitem cs k) as [[conv|]|]; [|by rewrite app_nil_r..].
  destruct (conv v) as [[v' ws]|[]]; try by rewrite app_nil_r.
  - by rewrite (log_warnings_record k ws s), (log_warnings_record k ws []).
  - done.
Qed.

Lemma fn_loop_record_log cs r d s :
  fn_loop cs record_log r d s
  = (s ++ fst (fn_loop cs record_log r d []), snd (fn_loop cs record_log r d [])).
Proof.
  revert d s. induction r as [|kv r IH]; intros d s; cbn [fn_loop].
  - by rewrite app_nil_r.
  - rewrite (fn_entry_record_log cs d kv s).
    destruct (fn_entry cs record_log d kv []) as [l1 [d1|e]]; cbn [fst snd]; [|done].
    rewrite (IH d1 (s ++ l1)), (IH d1 l1). cbn [fst snd].
    by rewrite (assoc_L (++)).
Qed.

(** C2: in the converter returned by [for_model], with a recording sink, a
    field whose converter raises a [ValueError] has that error logged
    against it and, for the rest, the record converts exactly as the
    record without this field does: the same result from the other
    fields, the same log around the error. On a record whose entries are
    all handled the conversion returns normally; the field of the error is
    absent from the converted record; every other field is in it: with the
    converted value when its converter returns, with [False] when its
    value is empty. *)
Theorem c2_value_error_logged_field_omitted (env : Env) (depth : nat)
    (model fromtype : string) :
  (∀ pre k v post conv e s s1 d1,
     is_ref k = false → truthy v = true →
     getitem (converters_of env depth fromtype model) k = Ok (Some conv) →
     conv v = Raise (ValueError e) →
     for_model env depth model fromtype record_log pre s = (s1, Ok d1) →
     ∃ logged res,
       for_model env depth model fromtype record_log (pre ++ (k, v) :: post) s
       = (s1 ++ (k, IError e) :: logged, res)
       ∧ for_model env depth model fromtype record_log (pre ++ post) s
         = (s1 ++ logged, res))
  ∧ (∀ r s,
     NoDup (map fst r) →
     Forall (handled (converters_of env depth fromtype model)) r →
     ∃ logged d,
       for_model env depth model fromtype record_log r s = (s ++ logged, Ok d)
       ∧ (∀ k v conv e, (k, v) ∈ r → is_ref k = false → truthy v = true →
            getitem (converters_of env depth fromtype model) k = Ok (Some conv) →
            conv v = Raise (ValueError e) →
            (k, IError e) ∈ logged ∧ getitem d k = Raise (KeyError k))
       ∧ (∀ k v conv v' ws, (k, v) ∈ r → is_ref k = false → truthy v = true →
            getitem (converters_of env depth fromtype model) k = Ok (Some conv) →
            conv v = Ok (v', ws) →
            getitem d k = Ok v')
       ∧ (∀ k v, (k, v) ∈ r → is_ref k = false → truthy v = false →
            getitem d k = Ok (VBool false))).
Proof.
  split.
  - intros pre k v post conv e s s1 d1 Hk Hv Hconv He Hpre.
    unfold for_model, fn in *.
    exists (fst (fn_loop (converters_of env depth fromtype model) record_log post d1 [])),
           (snd (fn_loop (converters_of env depth fromtype model) record_log post d1 [])).
    rewrite !fn_loop_app, Hpre. cbn [fn_loop].
    assert (fn_entry (converters_of env depth fromtype model) record_log d1 (k, v) s1
            = (s1 ++ [(k, IError e)], Ok d1)) as ->.
    { unfold fn_entry. by rewrite is_ref_tuple, Hk, Hv, Hconv, He. }
    split.
    + rewrite fn_loop_record_log. by rewrite <- app_assoc.
    + apply fn_loop_record_log.
  - intros r s Hnd Hall.
    destruct (fn_loop_handled (converters_of env depth fromtype model) r [] s Hnd)
      as (logged & d & Hfn & _ & Hout); [done..|].
    exists logged, d. split; [done|]. split_and!.
    + intros k v conv e Hin Hr Hv Hc He. specialize (Hout k v Hin).
      unfold outcome in Hout. by rewrite Hr, Hv, Hc, He in Hout.
    + intros k v conv v' ws Hin Hr Hv Hc He. specialize (Hout k v Hin).
      unfold outcome in Hout. by rewrite Hr, Hv, Hc, He in Hout.
    + intros k v Hin Hr Hv. specialize (Hout k v Hin).
      unfold outcome in Hout. by rewrite Hr, Hv in Hout.
Qed.

Lemma c2_witness :
  (∃ logged res,
     for_model example_env 1 "res.partner" "str" record_log
       ([(Some "name", RStr "Agrolait")] ++ (Some "credit", RStr "12,5")
          :: [(Some "blob", RStr "x")]) []
     = ([] ++ (Some "credit", IError (Err
           "'%s' does not seem to be a number for field '%%(field)s'" ["12,5"] None))
           :: logged, res)
     ∧ for_model example_env 1 "res.partner" "str" record_log
         ([(Some "name", RStr "Agrolait")] ++ [(Some "blob", RStr "x")]) []
       = ([] ++ logged, res))
  ∧ ∃ logged d,
      for_model example_env 1 "res.partner" "str" record_log
        [(Some "credit", RStr "12,5"); (Some "name", RStr "Agrolait")] []
      = ([] ++ logged, Ok d)
      ∧ (Some "credit", IError (Err
           "'%s' does not seem to be a number for field '%%(field)s'" ["12,5"] None))
        ∈ logged
      ∧ getitem d (Some "credit") = Raise (KeyError (Some "credit"))
      ∧ getitem d (Some "name") = Ok (VStr "Agrolait").
Proof.
  destruct (c2_value_error_logged_field_omitted example_env 1 "res.partner" "str")
    as [Hlocal Hall].
  split.
  - apply (Hlocal [(Some "name", RStr "Agrolait")] (Some "credit") (RStr "12,5")
             [(Some "blob", RStr "x")]
             (on_text (_str_to_float example_env "res.partner" (Field "float" "" [])))
             _ [] [] [(Some "name", VStr "Agrolait")]); vm_compute; reflexivity.
  - destruct (Hall [(Some "credit", RStr "12,5"); (Some "name", RStr "Agrolait")] [])
      as (logged & d & Hfn & Herr & Hok & _).
    + decide_by_compute.
    + apply Forall_cons_2; [|apply Forall_cons_2; [|apply Forall_nil_2]];
        right; right; eexists; (split; [vm_compute; reflexivity|vm_compute; exact I]).
    + exists logged, d. split; [exact Hfn|].
      destruct (Herr (Some "credit") (RStr "12,5")
                     (on_text (_str_to_float example_env "res.partner"
                                 (Field "float" "" [])))
                     (Err "'%s' does not seem to be a number for field '%%(field)s'"
                          ["12,5"] None)) as [H1 H2];
        [apply elem_of_cons; by left|vm_compute; reflexivity..|].
      split; [exact H1|]. split; [exact H2|].
      apply (Hok (Some "name") (RStr "Agrolait")
                 (on_text (_str_id "res.partner" (Field "char" "" [])))
                 (VStr "Agrolait") []);
        [apply elem_of_cons; right; apply elem_of_cons; by left
        |vm_compute; reflexivity..].
Defined.

(** *** Reference sub-fields *)

Lemma in_keys_ref (r : record) :
  (list_to_set (map fst r) : gset key) ∖ REFERENCING_FIELDS = ∅
  ↔ ∀ k, k ∈ map fst r → k ∈ REFERENCING_FIELDS.
Proof.
  split.
  - intros Hempty k Hk. destruct (decide (k ∈ REFERENCING_FIELDS)); [done|].
    assert (k ∈ (list_to_set (map fst r) : gset key) ∖ REFERENCING_FIELDS) as Hin.
    { apply elem_of_difference. split; [by apply elem_of_list_to_set|done]. }
    rewrite Hempty in Hin. by apply not_elem_of_empty in Hin.
  - intros Hall. apply set_eq. intros k.
    rewrite elem_of_difference, elem_of_list_to_set. split.
    + intros [Hin Hnot]. destruct Hnot. by apply Hall.
    + intros Hin. by apply not_elem_of_empty in Hin.
Qed.

(** C5, as the code has it: a reference record with a sub-field outside
    [None], ['id'], ['.id'] is rejected with the error on indirect
    creation, whatever else it holds; a record of referencing sub-fields
    only which has two or more of them is rejected with the error on
    ambiguous specifications. Both are [ValueError]s. *)
Theorem c5_referencing_subfield_errors (r : record) :
  ((∃ k, k ∈ map fst r ∧ k ∉ REFERENCING_FIELDS) →
     _referencing_subfield r = Raise (ValueError indirect_error))
  ∧ ((∀ k, k ∈ map fst r → k ∈ REFERENCING_FIELDS) →
     (∃ k1 k2, k1 ∈ map fst r ∧ k2 ∈ map fst r ∧ k1 ≠ k2) →
     _referencing_subfield r = Raise (ValueError ambiguous_error)).
Proof.
  unfold _referencing_subfield. split.
  - intros (k & Hk & Hnot). rewrite bool_decide_eq_false_2; [done|].
    rewrite in_keys_ref. intros Hall. by apply Hnot, Hall.
  - intros Hall (k1 & k2 & H1 & H2 & Hne).
    rewrite bool_decide_eq_true_2 by by apply in_keys_ref.
    cbn [negb].
    assert (1 < size (list_to_set (map fst r) : gset key))%nat as Hsize.
    { assert (({[k1; k2]} : gset key) ⊆ list_to_set (map fst r)) as Hsub.
      { intros k. rewrite elem_of_union, !elem_of_singleton, elem_of_list_to_set.
        by intros [->| ->]. }
      apply subseteq_size in Hsub.
      rewrite size_union, !size_singleton in Hsub; [lia|].
      intros k. rewrite !elem_of_singleton. congruence. }
    apply Nat.ltb_lt in Hsize. by rewrite Hsize.
Qed.

Lemma c5_witness :
  _referencing_subfield [(Some "id", RStr "base.main"); (Some "name", RStr "x")]
  = Raise (ValueError indirect_error)
  ∧ _referencing_subfield [(Some "id", RStr "base.main"); (Some ".id", RStr "1")]
    = Raise (ValueError ambiguous_error).
Proof.
  split.
  - apply (c5_referencing_subfield_errors
             [(Some "id", RStr "base.main"); (Some "name", RStr "x")]).
    exists (Some "name"). split; decide_by_compute.
  - apply (c5_referencing_subfield_errors
             [(Some "id", RStr "base.main"); (Some ".id", RStr "1")]).
    + intros k Hk. simpl in Hk.
      rewrite !elem_of_cons, elem_of_nil in Hk.
      destruct Hk as [->|[->|[]]]; decide_by_compute.
    + exists (Some "id"), (Some ".id").
      split_and!; decide_by_compute.
Defined.

(** C5, as stated, fails: a record that supplies two referencing
    sub-fields and a third, unrelated sub-field is not rejected with the
    error on ambiguous specifications. *)
Lemma c5_counterexample :
  let r := [(Some "id", RStr "base.main"); (Some ".id", RStr "1");
            (Some "name", RStr "x")] in
  Some "id" ∈ map fst r ∧ Some ".id" ∈ map fst r
  ∧ _referencing_subfield r = Raise (ValueError indirect_error)
  ∧ _referencing_subfield r ≠ Raise (ValueError ambiguous_error).
Proof.
  split_and!.
  - decide_by_compute.
  - decide_by_compute.
  - vm_compute. reflexivity.
  - vm_compute. discriminate.
Qed.

Lemma referencing_subfield_single k v :
  k ∈ REFERENCING_FIELDS → _referencing_subfield [(k, v)] = Ok (k, []).
Proof.
  unfold REFERENCING_FIELDS. rewrite !elem_of_union, !elem_of_singleton.
  intros [[->| ->]| ->]; vm_compute; reflexivity.
Qed.

(** *** Resolution of references *)

(** On a referencing sub-field, [db_id_for] returns an id or raises a
    [ValueError]. *)
Lemma db_id_for_ref env model f k v :
  k ∈ REFERENCING_FIELDS →
  (∃ out, db_id_for env model f k v = Ok out)
  ∨ (∃ e, db_id_for env model f k v = Raise (ValueError e)).
Proof.
  unfold REFERENCING_FIELDS. rewrite !elem_of_union, !elem_of_singleton.
  unfold db_id_for. intros [[->| ->]| ->]; simpl.
  - destruct (name_search env (comodel_name f) v) as [|[id n] ids]; simpl; eauto.
  - destruct (env_ref env _); simpl; eauto.
  - destruct (py_int env v) as [z|]; simpl; [|eauto].
    destruct (search_id env (comodel_name f) z); simpl; eauto.
Qed.

Lemma db_id_for_external env model f v id :
  contains "." v = false →
  env_ref env (import_current_module env +:+ "." +:+ v) = Some id →
  db_id_for env model f (Some "id") v = Ok (id, gettext env "external id", []).
Proof. unfold db_id_for. simpl. by intros -> ->. Qed.

Lemma m2m_reference_ok env model f k acc r id ft w :
  db_id_for env model f k r = Ok (id, ft, w) →
  m2m_reference env model f k acc r = Ok (fst acc ++ [id], snd acc ++ w).
Proof. unfold m2m_reference. by intros ->. Qed.

Lemma m2m_reference_raise env model f k acc r e :
  db_id_for env model f k r = Raise e →
  m2m_reference env model f k acc r = Raise e.
Proof. unfold m2m_reference. by intros ->. Qed.

Lemma m2m_references_resolved env model f k refs : ∀ outs ids ws,
  Forall2 (λ r out, db_id_for env model f k r = Ok out) refs outs →
  foldM (m2m_reference env model f k) refs (ids, ws)
  = Ok (ids ++ map (λ out, fst (fst out)) outs, ws ++ concat (map snd outs)).
Proof.
  induction refs as [|r refs IH]; intros outs ids ws Hall.
  - apply Forall2_nil_inv_l in Hall as ->. simpl. by rewrite !app_nil_r.
  - apply Forall2_cons_inv_l in Hall as ([[id ft] w] & outs' & Hr & Hall & ->).
    cbn [foldM]. rewrite (m2m_reference_ok _ _ _ _ _ _ _ _ _ Hr).
    cbn [mbind res_bind fst snd map concat].
    rewrite (IH outs' _ _ Hall). by rewrite <- !app_assoc.
Qed.

Lemma m2m_references_unresolved env model f k refs : ∀ acc r,
  k ∈ REFERENCING_FIELDS →
  r ∈ refs → (∀ out, db_id_for env model f k r ≠ Ok out) →
  ∃ e, foldM (m2m_reference env model f k) refs acc = Raise (ValueError e).
Proof.
  intros acc r Hk. revert acc.
  induction refs as [|r0 refs IH]; intros acc Hin Hfail.
  - by apply elem_of_nil in Hin.
  - cbn [foldM].
    destruct (db_id_for_ref env model f k r0 Hk) as [[[[id ft] w] Hr0]|[e Hr0]].
    + rewrite (m2m_reference_ok _ _ _ _ _ _ _ _ _ Hr0). cbn [mbind res_bind].
      apply elem_of_cons in Hin as [->|Hin]; [by destruct (Hfail _ Hr0)|].
      by apply IH.
    + rewrite (m2m_reference_raise _ _ _ _ _ _ _ Hr0). cbn [mbind res_bind]. eauto.
Qed.

(** C4: for a many-to-many field given one nested record whose single
    sub-field is a referencing one and holds a comma-separated list of
    references, every reference is resolved by its own call of
    [db_id_for]; when each resolves, the result is the single command
    [REPLACE_WITH] of the resolved ids, in order, with the warnings of
    the resolutions; when one does not resolve, the conversion raises a
    [ValueError] and returns no command at all. *)
Theorem c4_many2many_replace_with_or_fatal (env : Env) (model : string) (f : field)
    (k : key) (s : string) :
  k ∈ REFERENCING_FIELDS →
  (∀ outs, Forall2 (λ r out, db_id_for env model f k r = Ok out) (split "," s) outs →
     _str_to_many2many env model f (RList [[(k, RStr s)]])
     = Ok (VCommands [REPLACE_WITH (map (λ out, fst (fst out)) outs)],
           concat (map snd outs)))
  ∧ (∀ r, r ∈ split "," s → (∀ out, db_id_for env model f k r ≠ Ok out) →
     ∃ e, _str_to_many2many env model f (RList [[(k, RStr s)]])
          = Raise (ValueError e)).
Proof.
  intros Hk. unfold _str_to_many2many. cbn [unpack_record mbind res_bind].
  rewrite (referencing_subfield_single k (RStr s) Hk). cbn [mbind res_bind getitem].
  rewrite bool_decide_eq_true_2 by done. cbn [mbind res_bind split_references].
  split.
  - intros outs Hall. by rewrite (m2m_references_resolved _ _ _ _ _ outs [] [] Hall).
  - intros r Hin Hfail.
    destruct (m2m_references_unresolved env model f k (split "," s) ([], []) r)
      as [e ->]; eauto.
Qed.

Lemma c4_witness :
  _str_to_many2many example_env "res.partner"
    (Field "many2many" "res.partner.category" []) (RList [[(Some ".id", RStr "42,42")]])
  = Ok (VCommands [REPLACE_WITH [42%Z; 42%Z]], [])
  ∧ ∃ e, _str_to_many2many example_env "res.partner"
           (Field "many2many" "res.partner.category" [])
           (RList [[(Some "id", RStr "ref1,ref2")]])
         = Raise (ValueError e).
Proof.
  split.
  - apply (proj1 (c4_many2many_replace_with_or_fatal example_env "res.partner"
                    (Field "many2many" "res.partner.category" [])
                    (Some ".id") "42,42" ltac:(decide_by_compute))
                 [(42%Z, "database id", []); (42%Z, "database id", [])]).
    repeat constructor.
  - apply (proj2 (c4_many2many_replace_with_or_fatal example_env "res.partner"
                    (Field "many2many" "res.partner.category" [])
                    (Some "id") "ref1,ref2" ltac:(decide_by_compute)) "ref2").
    + decide_by_compute.
    + intros out. vm_compute. discriminate.
Defined.

(** C3: converting the one-to-many value [[{"id": "ref1"}]], where the
    external id [ref1] of the current module stands for the record 42,
    yields the commands [LINK_TO(42)] and [UPDATE(42, {})], and no
    warning. *)
Theorem c3_one2many_reference_links_and_updates (env : Env) (depth : nat)
    (model : string) (f : field) :
  env_ref env (import_current_module env +:+ ".ref1") = Some 42%Z →
  _str_to_one2many env (λ comodel, for_model env depth comodel "str") model f
    (RList [[(Some "id", RStr "ref1")]])
  = Ok (VCommands [LINK_TO 42; UPDATE 42 []], []).
Proof.
  intros Href. unfold _str_to_one2many.
  change (exclude_ref_fields [(Some "id", RStr "ref1")]) with (@nil (key * raw)).
  rewrite referencing_subfield_single by decide_by_compute.
  cbn [mbind res_bind getitem]. rewrite bool_decide_eq_true_2 by done.
  cbn [split_references split mbind res_bind map foldM Ascii.eqb Bool.eqb].
  unfold o2m_record.
  change (only_ref_fields [(Some "id", RStr "ref1")])
    with [(Some "id", RStr "ref1")].
  change (exclude_ref_fields [(Some "id", RStr "ref1")]) with (@nil (key * raw)).
  rewrite referencing_subfield_single by decide_by_compute.
  cbn [mbind res_bind getitem]. rewrite bool_decide_eq_true_2 by done.
  cbn [reference_text mbind res_bind].
  rewrite (db_id_for_external env model f "ref1" 42) by done.
  reflexivity.
Qed.

Lemma c3_witness :
  _str_to_one2many example_env (λ comodel, for_model example_env 1 comodel "str")
    "res.partner" (Field "one2many" "res.partner" [])
    (RList [[(Some "id", RStr "ref1")]])
  = Ok (VCommands [LINK_TO 42; UPDATE 42 []], []).
Proof.
  apply (c3_one2many_reference_links_and_updates example_env 1 "res.partner"
           (Field "one2many" "res.partner" [])).
  vm_compute. reflexivity.
Defined.

(** C7 fails on the code: a field with a value, whose type has no
    converter, makes the converter of the record raise a [TypeError];
    the fields after it are not converted. The serialized field [blob]
    is such a field. *)
Theorem c7_missing_converter_raises :
  (∀ for_model, to_field example_env for_model "res.partner"
                  (Field "serialized" "" []) "str" = None)
  ∧ for_model example_env 1 "res.partner" "str" record_log
      [(Some "blob", RStr "x"); (Some "name", RStr "Agrolait")] []
    = ([], Raise (TypeError "'NoneType' object is not callable")).
Proof. split; [intros fm|]; vm_compute; reflexivity. Qed.

(** The same, for every model: reaching an entry with a value whose
    field has no converter raises the [TypeError] and leaves the sink as
    it is. *)
Lemma missing_converter_raises {S : Type} (env : Env) (depth : nat)
    (model fromtype : string) (log : logger S) (k : key) (v : raw) (rest : record)
    (s : S) :
  is_ref k = false → truthy v = true →
  getitem (converters_of env depth fromtype model) k = Ok None →
  for_model env depth model fromtype log ((k, v) :: rest) s
  = (s, Raise (TypeError "'NoneType' object is not callable")).
Proof.
  intros Hk Hv Hc. unfold for_model, fn. cbn [fn_loop]. unfold fn_entry.
  by rewrite is_ref_tuple, Hk, Hv, Hc.
Qed.

End IrFieldsFacts.

(** * Properties of the relational commands *)

Module RelationalFacts.
Import IrFields Relational RelationalSpec Examples.

(** *** The relation table of a many-to-many column *)

Lemma elem_of_except l r p : p ∈ except l r ↔ p ∈ l ∧ p ∉ r.
Proof.
  revert r. induction l as [|q l IH]; intros r; simpl.
  - rewrite elem_of_nil. tauto.
  - case_bool_decide as Hq.
    + rewrite IH, elem_of_cons. split; [tauto|].
      intros [[->|?] ?]; tauto.
    + rewrite !elem_of_cons, IH, elem_of_cons.
      destruct (decide (p = q)) as [->|Hne]; tauto.
Qed.

Lemma NoDup_except l r : NoDup (except l r).
Proof.
  revert r. induction l as [|q l IH]; intros r; simpl; [constructor|].
  case_bool_decide; [apply IH|].
  constructor; [|apply IH].
  rewrite elem_of_except, elem_of_cons. tauto.
Qed.

Lemma except_ext l r r' : (∀ p, p ∈ r ↔ p ∈ r') → except l r = except l r'.
Proof.
  revert r r'. induction l as [|q l IH]; intros r r' Hrr'; simpl; [done|].
  rewrite (bool_decide_ext (q ∈ r) (q ∈ r')) by apply Hrr'.
  case_bool_decide; [by apply IH|].
  f_equal. apply IH. intros p. rewrite !elem_of_cons, Hrr'. tauto.
Qed.

Lemma except_app l1 l2 r :
  except (l1 ++ l2) r = except l1 r ++ except l2 (except l1 r ++ r).
Proof.
  revert r. induction l1 as [|q l1 IH]; intros r; simpl; [done|].
  case_bool_decide; [apply IH|].
  simpl. f_equal. rewrite IH. f_equal. apply except_ext.
  intros p. rewrite !elem_of_app, !elem_of_cons, elem_of_app. tauto.
Qed.

Lemma filter_none {A} (P : A → Prop) `{∀ x, Decision (P x)} (l : list A) :
  (∀ x, x ∈ l → ¬ P x) → filter P l = [].
Proof.
  induction l as [|x l IH]; intros Hl; [done|].
  rewrite filter_cons_False by (apply Hl, elem_of_cons; by left).
  apply IH. intros y Hy. apply Hl, elem_of_cons. by right.
Qed.

Section Many2manyFacts.
Variable self : many2many.
Variable id : Z.

Lemma elem_of_insert_links sub_ids rel p :
  p ∈ insert_links id sub_ids rel ↔ p ∈ rel ∨ ∃ i, p = (id, i) ∧ i ∈ sub_ids.
Proof.
  unfold insert_links.
  rewrite elem_of_app, elem_of_except, list_elem_of_fmap, list_elem_of_filter.
  split.
  - intros [?|[(i & -> & ?) ?]]; eauto.
  - intros [?|(i & -> & ?)]; [by left|].
    destruct (decide ((id, i) ∈ rel)); [by left|right].
    split; [eauto|]. intros [_ ?]. done.
Qed.

Lemma insert_links_app a b rel :
  insert_links id (a ++ b) rel = insert_links id b (insert_links id a rel).
Proof.
  unfold insert_links. rewrite map_app, except_app, <- app_assoc.
  do 2 f_equal. apply except_ext. intros p.
  rewrite filter_app, !elem_of_app.
  assert (p ∈ filter (λ p, fst p = id)
                (except (map (λ i, (id, i)) a) (filter (λ p, fst p = id) rel))
          ↔ p ∈ except (map (λ i, (id, i)) a) (filter (λ p, fst p = id) rel))
    as ->; [|tauto].
  rewrite list_elem_of_filter, elem_of_except, list_elem_of_fmap.
  split; [tauto|].
  intros [(i & -> & ?) ?]. split; [done|]. split; [eauto|done].
Qed.

Lemma insert_links_nil rel : insert_links id [] rel = rel.
Proof. unfold insert_links. simpl. apply app_nil_r. Qed.

Lemma fold_split_every fuel n l rel :
  (0 < n)%nat → (length l ≤ fuel)%nat →
  fold_left (λ rel sub_ids, insert_links id sub_ids rel) (split_every fuel n l) rel
  = insert_links id l rel.
Proof.
  intros Hn. revert l rel. induction fuel as [|fuel IH]; intros l rel Hlen.
  - destruct l; [|simpl in Hlen; lia]. simpl. by rewrite insert_links_nil.
  - destruct l as [|x l]; [simpl; by rewrite insert_links_nil|].
    cbn [split_every fold_left].
    rewrite IH.
    + by rewrite <- insert_links_app, take_drop.
    + rewrite length_drop. simpl in *. lia.
Qed.

(** [link] cuts its ids in pieces only for the size of the statements:
    it inserts what one statement for all the ids inserts. *)
Lemma link_insert_links ids rel : link self id ids rel = insert_links id ids rel.
Proof.
  unfold link, split_for_in_conditions. apply fold_split_every; lia.
Qed.

Lemma link_present i rel : (id, i) ∈ rel → link self id [i] rel = rel.
Proof.
  intros Hin. rewrite link_insert_links. unfold insert_links. simpl.
  rewrite bool_decide_eq_true_2; [apply app_nil_r|].
  by apply list_elem_of_filter.
Qed.





(** A second [LINK_TO] of the same id changes nothing. *)
Lemma m2m_link_to_twice i db :
  m2m_set self id [LINK_TO i; LINK_TO i] db = m2m_set self id [LINK_TO i] db.
Proof.
  unfold m2m_set. cbn [foldM m2m_act mbind res_bind comodel rel].
  do 2 f_equal. apply link_present.
  rewrite link_insert_links. apply elem_of_insert_links. right.
  exists i. split; [done|]. apply elem_of_cons. by left.
Qed.
End Many2manyFacts.

(** *** The table of the comodel *)







Lemma write_cons i ids v t : write (i :: ids) v t = write1 v t i ≫= write ids v.
Proof. reflexivity. Qed.


Lemma elem_of_search domain t i :
  i ∈ search domain t ↔ ∃ r, rows t !! i = Some r ∧ domain i r = true.
Proof.
  unfold search. rewrite list_elem_of_fmap. split.
  - intros ([j r] & -> & Hin). apply elem_of_map_to_list in Hin.
    apply map_lookup_filter_Some in Hin as [Hr Hd]. eauto.
  - intros (r & Hr & Hd). exists (i, r). split; [done|].
    apply elem_of_map_to_list, map_lookup_filter_Some. done.
Qed.




(** *** The commands of a one-to-many column *)

Section One2manyFacts.
Context {T : Type} (self : one2many T) (id : Z).




Lemma o2m_act_link_to t result i :
  o2m_act self id (t, result) (LINK_TO i)
  = match rows t !! i with
    | None => Raise (MissingError i)
    | Some r =>
        if bool_decide (default 0%Z (r !! _fields_id self) ≠ id)
        then Ok (Table (<[i := <[_fields_id self := id]> r]> (rows t)) (seq t), result)
        else Ok (t, result)
    end.
Proof.
  unfold o2m_act, browse_int. destruct (rows t !! i) as [r|] eqn:Hi; [|done].
  cbn [mbind res_bind]. case_bool_decide; [|done].
  rewrite write_cons. unfold write1. by rewrite Hi.
Qed.






(** A second [LINK_TO] of the same id changes nothing. *)
Lemma o2m_link_to_twice i t :
  o2m_set self id [LINK_TO i; LINK_TO i] t = o2m_set self id [LINK_TO i] t.
Proof.
  unfold o2m_set. cbn [foldM]. rewrite o2m_act_link_to.
  destruct (rows t !! i) as [r|] eqn:Hi; [|done].
  case_bool_decide as Hlinked; cbn [mbind res_bind]; rewrite o2m_act_link_to.
  - cbn [rows]. rewrite lookup_insert_eq, lookup_insert_eq. simpl.
    by rewrite bool_decide_eq_false_2 by (intros ?; done).
  - rewrite Hi. by rewrite bool_decide_eq_false_2 by (intros ?; done).
Qed.

Lemma o2m_link_to_linked i t r :
  rows t !! i = Some r → r !! _fields_id self = Some id →
  o2m_set self id [LINK_TO i] t = Ok (t, Some []).
Proof.
  intros Hi Hfk. unfold o2m_set. cbn [foldM]. rewrite o2m_act_link_to, Hi, Hfk.
  simpl. by rewrite bool_decide_eq_false_2 by (intros ?; done).
Qed.
End One2manyFacts.

(** *** The claims on [REPLACE_WITH] and [LINK_TO] *)




(** C6: a [LINK_TO] of the same id applied twice does what it does
    applied once. For a many-to-many column a link that is there is not
    inserted again, the relation table stays as it is, and a link that
    is not there is inserted once. For a one-to-many column a record
    whose inverse field is the source record is left as it is. *)
Theorem c6_link_to_idempotent :
  (∀ (self : many2many) (id i : Z) (db : m2m_db),
     m2m_set self id [LINK_TO i; LINK_TO i] db = m2m_set self id [LINK_TO i] db
     ∧ ((id, i) ∈ rel db → m2m_set self id [LINK_TO i] db = Ok db)
     ∧ ((id, i) ∉ rel db →
        m2m_set self id [LINK_TO i] db
        = Ok (M2mDb (comodel db) (rel db ++ [(id, i)]))))
  ∧ (∀ (T : Type) (self : one2many T) (id i : Z) (t : table),
     o2m_set self id [LINK_TO i; LINK_TO i] t = o2m_set self id [LINK_TO i] t
     ∧ (∀ r, rows t !! i = Some r → r !! _fields_id self = Some id →
             o2m_set self id [LINK_TO i] t = Ok (t, Some []))).
Proof.
  split.
  - intros self id i db. split_and!.
    + apply m2m_link_to_twice.
    + intros Hin. unfold m2m_set. cbn [foldM m2m_act mbind res_bind].
      rewrite link_present by done. by destruct db.
    + intros Hnotin. unfold m2m_set. cbn [foldM m2m_act mbind res_bind].
      rewrite link_insert_links. unfold insert_links. cbn [map except].
      rewrite bool_decide_eq_false_2; [done|].
      intros [_ ?]%list_elem_of_filter. done.
  - intros T self id i t. split; [apply o2m_link_to_twice|].
    intros r. apply o2m_link_to_linked.
Qed.

Lemma c6_witness :
  m2m_set no_rule 1 [LINK_TO 7%Z] categories = Ok categories
  ∧ m2m_set no_rule 1 [LINK_TO 8%Z] categories
    = Ok (M2mDb (comodel categories) (rel categories ++ [(1%Z, 8%Z)]))
  ∧ o2m_set (child_ids None (λ _ _, true)) 1 [LINK_TO 7%Z] partners
    = Ok (partners, Some []).
Proof.
  destruct c6_link_to_idempotent as [Hm2m Ho2m].
  split_and!.
  - apply (proj1 (proj2 (Hm2m no_rule 1%Z 7%Z categories))).
    by apply (bool_decide_unpack _).
  - apply (proj2 (proj2 (Hm2m no_rule 1%Z 8%Z categories))).
    by apply (bool_decide_unpack _).
  - apply (proj2 (Ho2m unit (child_ids None (λ _ _, true)) 1%Z 7%Z partners)
             {[ "parent_id" := 1%Z ]}); vm_compute; reflexivity.
Defined.

End RelationalFacts.

(** * Properties of the column descriptors *)

Module ColumnsFacts.
Import Columns.

Section Frame.
Context `{PyValues}.

(** A computation is [local_to] the object at [a], of class [c], when it
    leaves every other object of the heap as it is and the object at [a] in
    its class. *)
Definition local_to (a : positive) (c : class) {A} (m : M A) : Prop :=
  ∀ h h' r, m h = (h', r) →
    (∀ b, b ≠ a → h' !! b = h !! b)
    ∧ ((∃ o, h !! a = Some o ∧ obj_class o = c) →
       ∃ o', h' !! a = Some o' ∧ obj_class o' = c).

Lemma local_to_ret a c {A} (x : A) : local_to a c (mret x : M A).
Proof. intros h h' r [= <- <-]. done. Qed.

Lemma local_to_raise a c {A} e : local_to a c (raise e : M A).
Proof. intros h h' r [= <- <-]. done. Qed.

Lemma local_to_lift a c {A} (x : res A) : local_to a c (lift x).
Proof. intros h h' r [= <- <-]. done. Qed.

Lemma local_to_bind a c {A B} (m : M A) (k : A → M B) :
  local_to a c m → (∀ x, local_to a c (k x)) → local_to a c (m ≫= k).
Proof.
  intros Hm Hk h h' r. unfold mbind, M_bind.
  destruct (m h) as [h1 [x|e]] eqn:Hmh.
  - intros Hkx. destruct (Hm _ _ _ Hmh) as [Hm1 Hm2].
    destruct (Hk x _ _ _ Hkx) as [Hk1 Hk2]. split.
    + intros b Hb. by rewrite Hk1, Hm1.
    + intros Ho. by apply Hk2, Hm2.
  - intros [= <- <-]. by apply (Hm _ _ _ Hmh).
Qed.

Lemma local_to_read a c b : local_to a c (read b).
Proof. intros h h' r. unfold read. destruct (h !! b); intros [= <- <-]; done. Qed.

Lemma local_to_getattr a c b name : local_to a c (getattr b name).
Proof.
  apply local_to_bind; [apply local_to_read|]. intros o. apply local_to_lift.
Qed.

Lemma local_to_setattr a c name v : local_to a c (setattr a name v).
Proof.
  intros h h' r. unfold setattr. destruct (h !! a) as [o|] eqn:Ha.
  - case_bool_decide; intros [= <- <-]; (split;
      [intros b Hb; by rewrite lookup_insert_ne
      |intros (o' & [= <-] & Hc); rewrite lookup_insert_eq; eauto]).
  - intros [= <- <-]. split; [done|]. by intros (o & ? & _).
Qed.

Lemma local_to_reset_args a c : local_to a c (reset_args a).
Proof.
  intros h h' r. unfold reset_args. destruct (h !! a) as [o|] eqn:Ha.
  - intros [= <- <-]. split.
    + intros b Hb. by rewrite lookup_insert_ne.
    + intros (o' & [= <-] & Hc). rewrite lookup_insert_eq. eauto.
  - intros [= <- <-]. split; [done|]. by intros (o & ? & _).
Qed.

Lemma local_to_setattrs a c items : local_to a c (setattrs a items).
Proof.
  induction items as [|[key val] items IH]; simpl.
  - apply local_to_ret.
  - apply local_to_bind; [apply local_to_setattr|done].
Qed.

Lemma local_to_required_arg a c c' args name :
  local_to a c (required_arg c' args name).
Proof.
  unfold required_arg. destruct (args !! name); [apply local_to_ret|apply local_to_raise].
Qed.

End Frame.

Create HintDb frame.
#[global] Hint Resolve local_to_ret local_to_raise local_to_lift local_to_read
  local_to_getattr local_to_setattr local_to_reset_args local_to_setattrs
  local_to_required_arg : frame.


Section New.
Context `{PyValues}.










End New.

Import Examples.



End ColumnsFacts.

(** * Further properties of the import converter *)

Module ConverterFacts.
Import IrFields IrFieldsSpec Examples IrFieldsFacts.

(** *** Reference sub-fields and the other fields of a record *)

(** X1: [only_ref_fields] and [exclude_ref_fields] split a record in two:
    every entry goes to exactly one of them, in the order of the record;
    the first holds the entries of the keys [None], ['id'] and ['.id'],
    the second those of the other keys. *)
Theorem x1_ref_fields_split_record (r : record) :
  r ≡ₚ only_ref_fields r ++ exclude_ref_fields r
  ∧ only_ref_fields r `sublist_of` r
  ∧ exclude_ref_fields r `sublist_of` r
  ∧ Forall (λ kv, fst kv ∈ REFERENCING_FIELDS) (only_ref_fields r)
  ∧ Forall (λ kv, fst kv ∉ REFERENCING_FIELDS) (exclude_ref_fields r).
Proof.
  unfold only_ref_fields, exclude_ref_fields.
  induction r as [|[k v] r (IHp & IH1 & IH2 & IH3 & IH4)]; simpl.
  - split_and!; constructor.
  - destruct (is_ref k) eqn:Hk; simpl.
    + apply bool_decide_eq_true in Hk. split_and!.
      * by apply perm_skip.
      * by apply sublist_skip.
      * by apply sublist_cons.
      * by apply Forall_cons_2.
      * done.
    + apply bool_decide_eq_false in Hk. split_and!.
      * rewrite <- Permutation_middle. by apply perm_skip.
      * by apply sublist_cons.
      * by apply sublist_skip.
      * done.
      * by apply Forall_cons_2.
Qed.

(** *** Scalar converters *)



Lemma find_selection_Some env sel v item :
  find_selection env sel v = Some item →
  ∃ label, (item, label) ∈ sel
    ∧ (v = str_of_sel item ∨ v = label
       ∨ v ∈ _get_translations env ["selection"; "model"; "code"] label).
Proof.
  induction sel as [|[item0 label0] sel IH]; simpl; [done|].
  destruct (bool_decide (v = str_of_sel item0)) eqn:Hkey; simpl.
  - intros [= <-]. apply bool_decide_eq_true in Hkey.
    exists label0. split; [by left|by left].
  - destruct (bool_decide (v ∈ _)) eqn:Hlabel.
    + intros [= <-]. apply bool_decide_eq_true in Hlabel.
      exists label0. split; [by left|]. right.
      apply elem_of_cons in Hlabel as [->|Hin]; [by left|by right].
    + intros Hfind. destruct (IH Hfind) as (label & Hin & Hmatch).
      exists label. split; [by right|done].
Qed.

Lemma find_selection_None env sel v :
  find_selection env sel v = None →
  ∀ item label, (item, label) ∈ sel →
    v ≠ str_of_sel item ∧ v ≠ label
    ∧ v ∉ _get_translations env ["selection"; "model"; "code"] label.
Proof.
  induction sel as [|[item0 label0] sel IH]; simpl.
  - intros _ item label Hin. by apply elem_of_nil in Hin.
  - destruct (bool_decide (v = str_of_sel item0)) eqn:Hkey; simpl; [done|].
    destruct (bool_decide (v ∈ _)) eqn:Hlabel; [done|].
    apply bool_decide_eq_false in Hkey, Hlabel.
    intros Hfind item label [[= -> ->]|Hin]%elem_of_cons.
    + split; [done|]. rewrite not_elem_of_cons in Hlabel. tauto.
    + by apply IH.
Qed.

(** X3: [_str_to_selection] returns a key of the selection, without
    warning, exactly when the text is the [str()] of the key of an item,
    or its label, or a translation of its label; the key is that of such
    an item. When no item matches it raises a [ValueError] whose first
    parameter is the text. *)
Theorem x3_str_to_selection_matches (env : Env) (model : string) (f : field)
    (v : string) :
  (∀ out, _str_to_selection env model f v = Ok out →
     ∃ item label, out = (VSel item, []) ∧ (item, label) ∈ selection f
       ∧ (v = str_of_sel item ∨ v = label
          ∨ v ∈ _get_translations env ["selection"; "model"; "code"] label))
  ∧ ((∃ item label, (item, label) ∈ selection f
        ∧ (v = str_of_sel item ∨ v = label
           ∨ v ∈ _get_translations env ["selection"; "model"; "code"] label)) →
     ∃ item, _str_to_selection env model f v = Ok (VSel item, []))
  ∧ ((∀ item, _str_to_selection env model f v ≠ Ok (VSel item, [])) →
     ∃ e, _str_to_selection env model f v = Raise (ValueError e)
          ∧ params e = [sanitize v]).
Proof.
  unfold _str_to_selection.
  destruct (find_selection env (selection f) v) as [item|] eqn:Hfind.
  - destruct (find_selection_Some _ _ _ _ Hfind) as (label & Hin & Hmatch).
    split_and!.
    + intros out [= <-]. eauto.
    + intros _. eauto.
    + intros Hno. by destruct (Hno item).
  - pose proof (find_selection_None _ _ _ Hfind) as Hnone. split_and!.
    + done.
    + intros (item & label & Hin & Hmatch).
      destruct (Hnone item label Hin) as (? & ? & ?). tauto.
    + intros _. eexists. split; [reflexivity|done].
Qed.

Lemma x3_witness :
  ∃ item, _str_to_selection example_env "res.partner"
            (Field "selection" "" [(SelStr "draft", "New"); (SelInt 2, "Done")]) "2"
          = Ok (VSel item, []).
Proof.
  apply (proj1 (proj2 (x3_str_to_selection_matches example_env "res.partner"
           (Field "selection" "" [(SelStr "draft", "New"); (SelInt 2, "Done")]) "2"))).
  exists (SelInt 2), "Done". split.
  - apply elem_of_cons. right. apply elem_of_cons. by left.
  - left. vm_compute. reflexivity.
Defined.

(** *** References to existing records *)

Lemma referencing_subfield_Ok (r : record) k ws :
  _referencing_subfield r = Ok (k, ws) →
  ws = [] ∧ k ∈ REFERENCING_FIELDS ∧ k ∈ map fst r
  ∧ ∀ k', k' ∈ map fst r → k' = k.
Proof.
  unfold _referencing_subfield.
  destruct (bool_decide (_ ∖ REFERENCING_FIELDS = ∅)) eqn:Href; [|done].
  apply bool_decide_eq_true in Href. rewrite in_keys_ref in Href. cbn [negb].
  destruct (1 <? size _)%nat; [done|].
  destruct (elements _) as [|k0 [|k1 l]] eqn:Hel; [done| |done].
  intros [= <- <-].
  assert (∀ k', k' ∈ map fst r ↔ k' = k0) as Hkeys.
  { intros k'. rewrite <- (elem_of_list_to_set (C:=gset key)), <- elem_of_elements, Hel.
    apply list_elem_of_singleton. }
  split_and!; [done| |by apply Hkeys|intros k'; apply Hkeys].
  apply Href. by apply Hkeys.
Qed.

Lemma referencing_subfield_Raise (r : record) e :
  _referencing_subfield r = Raise e → ∃ e', e = ValueError e'.
Proof.
  unfold _referencing_subfield.
  destruct (negb _); [intros [= <-]; eauto|].
  destruct (1 <? size _)%nat; [intros [= <-]; eauto|].
  destruct (elements _) as [|k0 [|k1 l]]; [|done|]; intros [= <-];
    unfold unpack_error; eauto.
Qed.

Lemma getitem_elem_of {V} (d : list (key * V)) k :
  k ∈ map fst d → ∃ v, getitem d k = Ok v ∧ (k, v) ∈ d.
Proof.
  induction d as [|[k0 v0] d IH]; simpl.
  - by intros ?%elem_of_nil.
  - destruct (decide (k0 = k)) as [->|Hne].
    + intros _. rewrite bool_decide_eq_true_2 by done.
      exists v0. split; [done|by left].
    + rewrite bool_decide_eq_false_2 by done.
      intros [?|Hin]%elem_of_cons; [done|].
      destruct (IH Hin) as (v & Hv & Hin'). exists v. split; [done|by right].
Qed.

Lemma contains_append c a b : contains c (a +:+ b) = contains c a || contains c b.
Proof.
  induction a as [|c' a IH]; simpl; [done|]. by rewrite IH, orb_assoc.
Qed.

Lemma subfield_cases {A} (s : string) (a b c : A) :
  match s with
  | ".id" => a
  | "id" => b
  | _ => c
  end = if bool_decide (s = ".id") then a else if bool_decide (s = "id") then b else c.
Proof. repeat (destruct s as [|[[] [] [] [] [] [] [] []] s]; try reflexivity). Qed.

Lemma db_id_for_unknown env model f s v :
  s ≠ "id" → s ≠ ".id" →
  db_id_for env model f (Some s) v
  = Raise (ExceptionE (_format_import_error "Unknown sub-field '%s'" [s] None)).
Proof.
  intros Hid Hdbid. unfold db_id_for. rewrite (subfield_cases s).
  rewrite (bool_decide_eq_false_2 (s = ".id")), (bool_decide_eq_false_2 (s = "id"))
    by done.
  done.
Qed.

(** X4: [db_id_for] returns an id only when the lookup of the kind the
    sub-field stands for found it: for ['.id'] the text is that integer and
    a record of the comodel has this id; for ['id'] it is the record of the
    external id, which is looked up in the current module when the text has
    no dot; for a name it is the first record the name search returns, with
    a warning exactly when the search returns more. So an external id
    without module and the same id with the current module in front stand
    for the same record. *)
Theorem x4_db_id_for_found_by_lookup (env : Env) (model : string) (f : field)
    (v : string) :
  (∀ k id ft ws, db_id_for env model f k v = Ok (id, ft, ws) →
     (k = Some ".id" ∧ py_int env v = Some id
      ∧ search_id env (comodel_name f) id = true ∧ ws = [])
     ∨ (k = Some "id" ∧ ws = []
        ∧ env_ref env (if contains "." v then v
                       else import_current_module env +:+ "." +:+ v) = Some id)
     ∨ (k = None ∧ ∃ name others,
          name_search env (comodel_name f) v = (id, name) :: others
          ∧ (ws = [] ↔ others = [])))
  ∧ (contains "." v = false →
     ∀ id, (∃ ft ws, db_id_for env model f (Some "id") v = Ok (id, ft, ws))
           ↔ (∃ ft ws, db_id_for env model f (Some "id")
                         (import_current_module env +:+ "." +:+ v) = Ok (id, ft, ws))).
Proof.
  split.
  - intros k id ft ws. unfold db_id_for.
    destruct k as [s|].
    + destruct (decide (s = ".id")) as [->|Hdbid].
      { destruct (py_int env v) as [z|]; cbn [mbind res_bind]; [|done].
        destruct (search_id env (comodel_name f) z) eqn:Hz; cbn [mbind res_bind];
          [|done].
        intros [= <- <- <-]. left. done. }
      destruct (decide (s = "id")) as [->|Hid].
      { cbn [mbind res_bind]. destruct (env_ref env _) as [z|] eqn:Hz; [|done].
        intros [= <- <- <-]. right. left. done. }
      fold (db_id_for env model f (Some s) v). by rewrite db_id_for_unknown.
    + destruct (name_search env (comodel_name f) v) as [|[z name] others] eqn:Hsearch;
        cbn [mbind res_bind]; [done|].
      intros [= <- <- <-]. right. right. split; [done|].
      exists name, others. split; [done|].
      destruct others; simpl; split; done.
  - intros Hdot id. unfold db_id_for.
    rewrite !contains_append. rewrite Hdot. simpl. rewrite orb_true_r.
    destruct (env_ref env _) as [z|]; cbn [mbind res_bind].
    + split; intros (ft & ws & [= <- <- <-]); eauto.
    + split; intros (ft & ws & ?); done.
Qed.

Lemma x4_witness :
  (∃ ft ws, db_id_for example_env "res.partner" (Field "many2one" "res.partner" [])
              (Some "id") "ref1" = Ok (42%Z, ft, ws))
  ↔ (∃ ft ws, db_id_for example_env "res.partner"
                (Field "many2one" "res.partner" []) (Some "id")
                (import_current_module example_env +:+ "." +:+ "ref1")
              = Ok (42%Z, ft, ws)).
Proof.
  apply (proj2 (x4_db_id_for_found_by_lookup example_env "res.partner"
                  (Field "many2one" "res.partner" []) "ref1") eq_refl 42%Z).
Defined.

(** X5: for a list of nested records whose cells are texts,
    [_str_to_many2one] returns a database id or raises a [ValueError], and
    nothing else. When it returns, the list holds one record, every entry of
    which is under one referencing sub-field, and the id and the warnings
    are those [db_id_for] gives for the first reference under it. *)
Theorem x5_many2one_id_or_value_error (env : Env) (model : string) (f : field)
    (rs : list record) :
  Forall (Forall (λ kv, ∃ s, snd kv = RStr s)) rs →
  (∃ id ws r k v ft,
     _str_to_many2one env model f (RList rs) = Ok (VInt id, ws)
     ∧ rs = [r] ∧ k ∈ REFERENCING_FIELDS ∧ Forall (λ kv, fst kv = k) r
     ∧ getitem r k = Ok (RStr v)
     ∧ db_id_for env model f k v = Ok (id, ft, ws))
  ∨ (∃ e, _str_to_many2one env model f (RList rs) = Raise (ValueError e)).
Proof.
  intros Htext. unfold _str_to_many2one.
  destruct rs as [|r [|r' rs]]; cbn [unpack_record mbind res_bind];
    [right; unfold unpack_error; eauto| |right; unfold unpack_error; eauto].
  apply Forall_cons in Htext as [Htext _].
  destruct (_referencing_subfield r) as [[k w1]|e] eqn:Hsub; cbn [mbind res_bind].
  2:{ right. apply referencing_subfield_Raise in Hsub as [e' ->]. eauto. }
  apply referencing_subfield_Ok in Hsub as (-> & Hk & Hin & Hall).
  destruct (getitem_elem_of r k Hin) as (x & Hx & Hinx). rewrite Hx.
  cbn [mbind res_bind].
  rewrite Forall_forall in Htext. destruct (Htext _ Hinx) as [v Hv].
  simpl in Hv. subst x. cbn [reference_text mbind res_bind].
  destruct (db_id_for_ref env model f k v Hk) as [[[[id ft] w2] Hdb]|[e Hdb]];
    rewrite Hdb; cbn [mbind res_bind]; [|right; eauto].
  left. exists id, w2, r, k, v, ft. split_and!; try done.
  apply Forall_forall. intros [k' v'] Hin'. simpl. apply Hall.
  apply (list_elem_of_fmap_2 fst) in Hin'. done.
Qed.

Lemma x5_witness :
  (∃ id ws r k v ft,
     _str_to_many2one example_env "res.partner" (Field "many2one" "res.partner" [])
       (RList [[(Some "id", RStr "ref1")]]) = Ok (VInt id, ws)
     ∧ [[(Some "id", RStr "ref1")]] = [r] ∧ k ∈ REFERENCING_FIELDS
     ∧ Forall (λ kv, fst kv = k) r
     ∧ getitem r k = Ok (RStr v)
     ∧ db_id_for example_env "res.partner" (Field "many2one" "res.partner" []) k v
       = Ok (id, ft, ws))
  ∨ (∃ e, _str_to_many2one example_env "res.partner"
            (Field "many2one" "res.partner" [])
            (RList [[(Some "id", RStr "ref1")]]) = Raise (ValueError e)).
Proof.
  apply (x5_many2one_id_or_value_error example_env "res.partner"
           (Field "many2one" "res.partner" []) [[(Some "id", RStr "ref1")]]).
  repeat constructor. by exists "ref1".
Defined.

(** *** The loop over the fields of a record *)

Lemma getitem_not_in {V} (d : list (key * V)) k :
  k ∉ map fst d → getitem d k = Raise (KeyError k).
Proof.
  induction d as [|[k0 v0] d IH]; simpl; [done|].
  rewrite not_elem_of_cons. intros [Hne Hnot].
  rewrite bool_decide_eq_false_2 by done. by apply IH.
Qed.

Lemma setitem_new {V} (d : list (key * V)) k v :
  k ∉ map fst d → setitem k v d = d ++ [(k, v)].
Proof.
  induction d as [|[k0 v0] d IH]; simpl; [done|].
  rewrite not_elem_of_cons. intros [Hne Hnot].
  rewrite bool_decide_eq_false_2 by done. by rewrite IH.
Qed.

Lemma fn_loop_empty_cells {S : Type} cs (log : logger S) r : ∀ d s,
  Forall (λ kv, truthy (snd kv) = false) r →
  NoDup (map fst r) →
  (∀ k, k ∈ map fst r → k ∉ map fst d) →
  fn_loop cs log r d s
  = (s, Ok (d ++ map (λ kv, (fst kv, VBool false)) (exclude_ref_fields r))).
Proof.
  induction r as [|[k v] r IH]; intros d s Hempty Hnd Hfresh.
  - simpl. by rewrite app_nil_r.
  - apply Forall_cons in Hempty as [Hv Hempty]. simpl in Hv.
    apply NoDup_cons in Hnd as [Hk Hnd].
    cbn [fn_loop fn_entry exclude_ref_fields List.filter fst].
    rewrite is_ref_tuple. destruct (is_ref k) eqn:Href; cbn [negb].
    + apply IH; [done..|]. intros k' Hk'. apply Hfresh. simpl. by right.
    + rewrite Hv. cbn [negb]. rewrite setitem_new.
      2:{ apply Hfresh. simpl. by left. }
      rewrite IH; [|done..|].
      * simpl. by rewrite <- app_assoc.
      * intros k' Hk'. rewrite fmap_app. simpl.
        rewrite elem_of_app, list_elem_of_singleton.
        intros [Hin| ->]; [|done]. revert Hin. apply Hfresh. simpl. by right.
Qed.

(** X6: a record whose cells are all empty converts to the record that
    gives [False] to each of its fields that is not a referencing
    sub-field, in the order of the record. No converter is looked up, so
    this holds for fields the model does not have or cannot convert, and
    nothing is logged. *)
Theorem x6_empty_cells_convert_to_false {S : Type} (env : Env) (depth : nat)
    (model fromtype : string) (log : logger S) (r : record) (s : S) :
  Forall (λ kv, truthy (snd kv) = false) r →
  NoDup (map fst r) →
  for_model env depth model fromtype log r s
  = (s, Ok (map (λ kv, (fst kv, VBool false)) (exclude_ref_fields r))).
Proof.
  intros Hempty Hnd. unfold for_model, fn.
  rewrite fn_loop_empty_cells; [done..|]. intros k _. simpl. apply not_elem_of_nil.
Qed.

Lemma x6_witness :
  for_model example_env 1 "res.partner" "str" record_log
    [(Some "id", RStr ""); (Some "blob", RStr ""); (Some "colour", RList [])] []
  = ([], Ok [(Some "blob", VBool false); (Some "colour", VBool false)]).
Proof.
  apply (x6_empty_cells_convert_to_false example_env 1 "res.partner" "str" record_log
           [(Some "id", RStr ""); (Some "blob", RStr ""); (Some "colour", RList [])] []).
  - repeat constructor.
  - decide_by_compute.
Defined.

Lemma getitem_converters_of env depth fromtype model name :
  name ∉ map fst (fields_of env model) →
  getitem (converters_of env depth fromtype model) (Some name)
  = Raise (KeyError (Some name)).
Proof.
  intros Hname.
  assert (Hfold : ∀ (g : string * field → option converter) l d,
            name ∉ map fst l →
            getitem (fold_left (λ d nf, setitem (Some (fst nf)) (g nf) d) l d)
                    (Some name)
            = getitem d (Some name)).
  { intros g l. induction l as [|[n f0] l IH]; intros d Hl; [done|].
    simpl in Hl. apply not_elem_of_cons in Hl as [Hne Hl].
    cbn [fold_left]. rewrite IH by done.
    apply getitem_setitem_ne. simpl. congruence. }
  destruct depth; cbn [converters_of]; by rewrite Hfold.
Qed.

(** X7: the dictionary of converters has the fields of the model as its
    keys. A record with a cell that is not empty under a name that is not
    a field of the model makes the converter raise a [KeyError]: the error
    is not reported to the sink, and the entries after it are not
    converted. *)
Theorem x7_unknown_field_raises_key_error {S : Type} (env : Env) (depth : nat)
    (model fromtype : string) (log : logger S) (pre post : record)
    (name : string) (v : raw) (s s1 : S) (d1 : dict) :
  name ∉ map fst (fields_of env model) →
  name ≠ "id" → name ≠ ".id" →
  truthy v = true →
  for_model env depth model fromtype log pre s = (s1, Ok d1) →
  for_model env depth model fromtype log (pre ++ (Some name, v) :: post) s
  = (s1, Raise (KeyError (Some name))).
Proof.
  intros Hname Hid Hdbid Hv Hpre. unfold for_model, fn in *.
  rewrite fn_loop_app, Hpre. cbn [fn_loop fn_entry].
  rewrite bool_decide_eq_false_2.
  2:{ rewrite !elem_of_cons, elem_of_nil. intros [?|[?|[?|[]]]]; congruence. }
  rewrite Hv. cbn [negb]. by rewrite getitem_converters_of.
Qed.

Lemma x7_witness :
  for_model example_env 1 "res.partner" "str" record_log
    ([(Some "name", RStr "Agrolait")]
       ++ (Some "colour", RStr "red") :: [(Some "active", RStr "1")]) []
  = ([], Raise (KeyError (Some "colour"))).
Proof.
  apply (x7_unknown_field_raises_key_error example_env 1 "res.partner" "str"
           record_log [(Some "name", RStr "Agrolait")] [(Some "active", RStr "1")]
           "colour" (RStr "red") [] [] [(Some "name", VStr "Agrolait")]).
  - decide_by_compute.
  - discriminate.
  - discriminate.
  - reflexivity.
  - vm_compute. reflexivity.
Defined.

(** *** Nested records *)

(** A [CREATE], or a [LINK_TO] followed by the [UPDATE] of the same
    record, which is not the record 0. *)
Lemma o2m_record_commands env convert model f commands warnings r commands' warnings' :
  o2m_record env convert model f (commands, warnings) r = Ok (commands', warnings') →
  ∃ group, commands' = commands ++ group
    ∧ ((∃ w, group = [CREATE w])
       ∨ (∃ id w, id ≠ 0%Z ∧ group = [LINK_TO id; UPDATE id w])).
Proof.
  unfold o2m_record.
  destruct (match only_ref_fields r with [] => _ | _ => _ end) as [[id ws]|e];
    cbn [mbind res_bind]; [|done].
  destruct (convert o2m_log (exclude_ref_fields r) ws) as [ws' [w|e]];
    cbn [mbind res_bind]; [|done].
  destruct id as [id|].
  - case_bool_decide; intros [= <- <-]; eexists; (split; [reflexivity|]);
      [right; eauto|left; eauto].
  - intros [= <- <-]. eexists. split; [reflexivity|]. left. eauto.
Qed.

Lemma o2m_records_commands env convert model f records : ∀ commands warnings out,
  foldM (o2m_record env convert model f) records (commands, warnings) = Ok out →
  ∃ groups, fst out = commands ++ concat groups
    ∧ length groups = length records
    ∧ Forall (λ group, (∃ w, group = [CREATE w])
                       ∨ (∃ id w, id ≠ 0%Z ∧ group = [LINK_TO id; UPDATE id w]))
             groups.
Proof.
  induction records as [|r records IH]; intros commands warnings out; cbn [foldM].
  - intros [= <-]. exists []. simpl. by rewrite app_nil_r.
  - destruct (o2m_record env convert model f (commands, warnings) r)
      as [[commands1 warnings1]|e] eqn:Hr; cbn [mbind res_bind]; [|done].
    apply o2m_record_commands in Hr as (group & -> & Hgroup).
    intros (groups & -> & Hlen & Hall)%IH. exists (group :: groups).
    cbn [concat length]. rewrite <- app_assoc. split_and!; [done|by f_equal|].
    by apply Forall_cons_2.
Qed.

(** X8: the commands [_str_to_one2many] returns are, for each nested
    record in turn, one [CREATE], or one [LINK_TO] followed by the
    [UPDATE] of the same record, whose id is not 0. There is no other
    command among them: an import never deletes or unlinks the records a
    one-to-many field holds. *)
Theorem x8_one2many_links_or_creates (env : Env)
    (for_model : string → logger (list warning) → record → list warning
                 → list warning * res dict)
    (model : string) (f : field) (records : raw) (out : value) (ws : list warning) :
  _str_to_one2many env for_model model f records = Ok (out, ws) →
  ∃ groups, out = VCommands (concat groups)
    ∧ Forall (λ group, (∃ w, group = [CREATE w])
                       ∨ (∃ id w, id ≠ 0%Z ∧ group = [LINK_TO id; UPDATE id w]))
             groups
    ∧ match records with
      | RList ((_ :: _ :: _) as rs) => length groups = length rs
      | _ => True
      end.
Proof.
  unfold _str_to_one2many.
  destruct (match records with RStr _ => _ | RList _ => _ end)
    as [[rs ws0]|e] eqn:Hrecords; cbn [mbind res_bind]; [|done].
  destruct (foldM _ rs ([], ws0)) as [[commands warnings]|e] eqn:Hfold;
    cbn [mbind res_bind]; [|done].
  intros [= <- <-].
  apply o2m_records_commands in Hfold as (groups & Hc & Hlen & Hall).
  simpl in Hc. subst commands. exists groups. split_and!; [done..|].
  destruct records as [|[|r1 [|r2 rs']]]; try done.
  injection Hrecords as <- <-. done.
Qed.

Lemma x8_witness :
  ∃ groups, VCommands [LINK_TO 42; UPDATE 42 []] = VCommands (concat groups)
    ∧ Forall (λ group, (∃ w, group = [CREATE w])
                       ∨ (∃ id w, id ≠ 0%Z ∧ group = [LINK_TO id; UPDATE id w]))
             groups
    ∧ True.
Proof.
  apply (x8_one2many_links_or_creates example_env
           (λ comodel, for_model example_env 1 comodel "str")
           "res.partner" (Field "one2many" "res.partner" [])
           (RList [[(Some "id", RStr "ref1")]]) _ []).
  vm_compute. reflexivity.
Defined.

Lemma exclude_ref_fields_all (r : record) :
  only_ref_fields r = [] → exclude_ref_fields r = r.
Proof.
  unfold only_ref_fields, exclude_ref_fields.
  induction r as [|[k v] r IH]; simpl; [done|].
  destruct (is_ref k); simpl; [done|]. intros Hr. by rewrite IH.
Qed.

Lemma getitem_converters_of_field env depth fromtype model name f :
  NoDup (map fst (fields_of env model)) →
  (name, f) ∈ fields_of env model →
  getitem (converters_of env depth fromtype model) (Some name)
  = Ok (to_field env
          (λ comodel log r s,
             match depth with
             | O => (s, Raise RecursionError)
             | Datatypes.S depth' => fn (converters_of env depth' "str" comodel) log r s
             end)
          model f fromtype).
Proof.
  intros Hnd Hin.
  assert (Hfold : ∀ (g : field → option converter) l d,
            NoDup (map fst l) → (name, f) ∈ l →
            getitem (fold_left (λ d nf, setitem (Some (fst nf)) (g (snd nf)) d) l d)
                    (Some name)
            = Ok (g f)).
  { intros g l. induction l as [|[n f0] l IH]; intros d Hl Hf.
    - by apply elem_of_nil in Hf.
    - simpl in Hl. apply NoDup_cons in Hl as [Hn Hl]. cbn [fold_left fst snd].
      apply elem_of_cons in Hf as [[= <- <-]|Hf]; [|by apply IH].
      clear IH. revert d. induction l as [|[n' f'] l IH']; intros d.
      + apply getitem_setitem_eq.
      + cbn [fold_left fst snd]. simpl in Hn, Hl.
        apply not_elem_of_cons in Hn as [Hne Hn]. apply NoDup_cons in Hl as [_ Hl].
        specialize (IH' Hn Hl).
        assert (∀ d0, getitem d0 (Some name) = Ok (g f) →
                  getitem (fold_left (λ d nf, setitem (Some (fst nf)) (g (snd nf)) d) l d0)
                          (Some name) = Ok (g f)) as Hkeep.
        { clear -Hn. induction l as [|[n1 f1] l IHl]; intros d0 Hd0; [done|].
          simpl in Hn. apply not_elem_of_cons in Hn as [Hne Hn].
          cbn [fold_left fst snd]. apply IHl; [done|].
          rewrite getitem_setitem_ne by congruence. done. }
        apply Hkeep. rewrite getitem_setitem_ne by congruence.
        apply getitem_setitem_eq. }
  destruct depth; cbn [converters_of]; by apply (Hfold (λ f0, to_field env _ model f0 fromtype)).
Qed.

(** X10: a [ValueError] raised by the converter of a field of a nested
    record of a one-to-many field leaves [_str_to_one2many] as it is: the
    converter of the parent record reports it against the one-to-many field,
    and this field is left out of the converted record. *)
Theorem x10_nested_error_reported_on_parent (env : Env) (depth : nat)
    (model name : string) (f : field) (r rpre rpost : record) (post : list record)
    (k : key) (v : raw) (conv : converter) (e : err) (ws1 : list warning) (d1 : dict)
    (s : list (key * issue)) :
  NoDup (map fst (fields_of env model)) →
  (name, f) ∈ fields_of env model → ftype f = "one2many" →
  name ≠ "id" → name ≠ ".id" →
  only_ref_fields r = [] → r = rpre ++ (k, v) :: rpost →
  truthy v = true →
  getitem (converters_of env depth "str" (comodel_name f)) k = Ok (Some conv) →
  conv v = Raise (ValueError e) →
  for_model env depth (comodel_name f) "str" o2m_log rpre [] = (ws1, Ok d1) →
  _str_to_one2many env (λ comodel, for_model env depth comodel "str") model f
    (RList (r :: post)) = Raise (ValueError e)
  ∧ for_model env (Datatypes.S depth) model "str" record_log
      [(Some name, RList (r :: post))] s
    = (s ++ [(Some name, IError e)], Ok []).
Proof.
  intros Hnd Hfield Htype Hid Hdbid Hrefs -> Hv Hconv He Hpre.
  assert (is_ref k = false) as Hk.
  { unfold only_ref_fields in Hrefs. rewrite List.filter_app in Hrefs.
    apply app_eq_nil in Hrefs as [_ Hrefs]. simpl in Hrefs.
    by destruct (is_ref k). }
  assert (_str_to_one2many env (λ comodel, for_model env depth comodel "str") model f
            (RList ((rpre ++ (k, v) :: rpost) :: post)) = Raise (ValueError e)) as Ho2m.
  { assert (o2m_record env (for_model env depth (comodel_name f) "str") model f
              ([], []) (rpre ++ (k, v) :: rpost) = Raise (ValueError e)) as Hrecord.
    { unfold o2m_record. rewrite Hrefs. cbn [mbind res_bind].
      rewrite exclude_ref_fields_all by done.
      unfold for_model, fn in *. rewrite fn_loop_app, Hpre.
      cbn [fn_loop fn_entry]. rewrite is_ref_tuple, Hk, Hv. cbn [negb].
      rewrite Hconv, He. done. }
    unfold _str_to_one2many. destruct post as [|r2 post]; cbn [mbind res_bind].
    - rewrite exclude_ref_fields_all by done.
      replace (match rpre ++ (k, v) :: rpost with
               | [] => _ | _ => Ok ([rpre ++ (k, v) :: rpost], [])
               end) with (Ok ([rpre ++ (k, v) :: rpost], @nil warning) : res _)
        by (by destruct rpre).
      cbn [mbind res_bind foldM]. by rewrite Hrecord.
    - cbn [foldM]. by rewrite Hrecord. }
  split; [done|].
  unfold for_model at 1, fn. cbn [fn_loop fn_entry].
  rewrite bool_decide_eq_false_2.
  2:{ rewrite !elem_of_cons, elem_of_nil. intros [?|[?|[?|[]]]]; congruence. }
  cbn [truthy negb].
  rewrite (getitem_converters_of_field env (Datatypes.S depth) "str" model name f Hnd Hfield).
  unfold to_field. rewrite Htype.
  change (getattr (methods env _) ("_" +:+ "str" +:+ "_to_" +:+ "one2many"))
    with (Some (_str_to_one2many env
                  (λ comodel log r s, fn (converters_of env depth "str" comodel) log r s))).
  change (λ comodel log r s, fn (converters_of env depth "str" comodel) log r s)
    with (λ comodel : string, @for_model env (list warning) depth comodel "str").
  cbv beta iota.
  match goal with
  | |- context [match ?x with Ok _ => _ | Raise _ => _ end] =>
      replace x with (Raise (ValueError e) : res (value * list warning))
        by (symmetry; exact Ho2m)
  end.
  done.
Qed.

(** *** The converters of the types of fields *)

Lemma getattr_None {A} (ms : list (string * A)) name :
  getattr ms name = None ↔ name ∉ map fst ms.
Proof.
  induction ms as [|[n m] ms IH]; simpl.
  - split; [intros _; apply not_elem_of_nil|done].
  - rewrite not_elem_of_cons. case_bool_decide as Hn.
    + split; [done|]. intros [Hne _]. by subst.
    + rewrite IH. split; [|tauto]. intros Hnot. split; [congruence|done].
Qed.

Lemma append_inj_r (p a b : string) : p +:+ a = p +:+ b → a = b.
Proof. induction p as [|c p IH]; simpl; [done|]. intros [= ?]. auto. Qed.

Lemma x10_witness :
  _str_to_one2many example_env (λ comodel, for_model example_env 1 comodel "str")
    "res.partner" (Field "one2many" "res.partner" [])
    (RList [[(Some "credit", RStr "abc")]])
  = Raise (ValueError
             (Err "'%s' does not seem to be a number for field '%%(field)s'"
                  ["abc"] None))
  ∧ for_model example_env 2 "res.partner" "str" record_log
      [(Some "child_ids", RList [[(Some "credit", RStr "abc")]])] []
    = ([] ++ [(Some "child_ids",
               IError (Err "'%s' does not seem to be a number for field '%%(field)s'"
                           ["abc"] None))],
       Ok []).
Proof.
  apply (x10_nested_error_reported_on_parent example_env 1 "res.partner" "child_ids"
           (Field "one2many" "res.partner" []) [(Some "credit", RStr "abc")] [] [] []
           (Some "credit") (RStr "abc")
           (on_text (_str_to_float example_env "res.partner" (Field "float" "" [])))
           (Err "'%s' does not seem to be a number for field '%%(field)s'" ["abc"] None)
           [] [] []).
  - decide_by_compute.
  - change (fields_of example_env "res.partner") with partner_fields.
    unfold partner_fields. do 4 (apply elem_of_cons; right).
    apply elem_of_cons. by left.
  - reflexivity.
  - discriminate.
  - discriminate.
  - reflexivity.
  - reflexivity.
  - reflexivity.
  - reflexivity.
  - reflexivity.
  - reflexivity.
Defined.

(** X9: from texts, [to_field] has a converter for the fields of the
    types boolean, integer, float, reference, char, text, binary, html,
    date, datetime, selection, many2one, many2many and one2many, and for no
    other: for a field of any other type it returns [None]. *)
Theorem x9_to_field_converts_these_types (env : Env)
    (for_model : string → logger (list warning) → record → list warning
                 → list warning * res dict)
    (model : string) (f : field) :
  to_field env for_model model f "str" = None
  ↔ ftype f ∉ [ "boolean"; "integer"; "float"; "reference"; "char"; "text";
                "binary"; "html"; "date"; "datetime"; "selection"; "many2one";
                "many2many"; "one2many" ].
Proof.
  unfold to_field.
  assert (getattr (methods env for_model) ("_" +:+ "str" +:+ "_to_" +:+ ftype f) = None
          ↔ ftype f ∉ [ "boolean"; "integer"; "float"; "reference"; "char"; "text";
                        "binary"; "html"; "date"; "datetime"; "selection";
                        "many2one"; "many2many"; "one2many" ]) as <-.
  { rewrite getattr_None.
    change (map fst (methods env for_model))
      with (map (String.append "_str_to_")
              [ "boolean"; "integer"; "float"; "reference"; "char"; "text";
                "binary"; "html"; "date"; "datetime"; "selection"; "many2one";
                "many2many"; "one2many" ]).
    change ("_" +:+ "str" +:+ "_to_" +:+ ftype f) with ("_str_to_" +:+ ftype f).
    split; intros Hnot Hin; apply Hnot.
    - by apply (list_elem_of_fmap_2 (String.append "_str_to_")).
    - apply list_elem_of_fmap in Hin as (t & Heq & Hin).
      apply append_inj_r in Heq. by subst. }
  by destruct (getattr _ _).
Qed.

End ConverterFacts.

(** * Properties of the values handed to the database *)

Module CodecFacts.
Import Codec.

(** *** Texts of [char] columns *)

Lemma take_str_length n s :
  String.length (take_str n s) = Nat.min n (String.length s).
Proof.
  revert s. induction n as [|n IH]; intros [|c s]; simpl; [done..|].
  by rewrite IH.
Qed.

Lemma take_str_prefix n s : ∃ rest, s = take_str n s +:+ rest.
Proof.
  revert s. induction n as [|n IH]; intros s.
  - exists s. by destruct s.
  - destruct s as [|c s]; [by exists EmptyString|].
    destruct (IH s) as [rest Hrest]. exists rest.
    change (String c s = String c (take_str n s +:+ rest)). by rewrite <- Hrest.
Qed.

Lemma take_str_all n s : (String.length s ≤ n)%nat → take_str n s = s.
Proof.
  revert s. induction n as [|n IH]; intros [|c s]; simpl; try done; [lia|].
  intros Hlen. rewrite IH; [done|lia].
Qed.

Lemma take_str_idemp n s : take_str n (take_str n s) = take_str n s.
Proof. apply take_str_all. rewrite take_str_length. lia. Qed.

(** X11: the setter of a [char] column of size [n], not negative, never
    raises on a long value: for a value other than [None], [False] and 0
    it gives the first [n] characters of the text of the value, and all of
    them when there are fewer. *)
Theorem x11_char_truncates_to_size (ustr : pyv → string) (n : Z) (symb : pyv) :
  (0 ≤ n)%Z →
  is_None symb || eq_False symb = false →
  ∃ s rest, _symbol_set_char ustr (Some n) symb = Some s
    ∧ ustr symb = s +:+ rest
    ∧ String.length s = Nat.min (Z.to_nat n) (String.length (ustr symb)).
Proof.
  intros Hn Hsymb. unfold _symbol_set_char. rewrite Hsymb. cbn [slice_to].
  rewrite (proj2 (Z.leb_le 0 n) Hn).
  destruct (take_str_prefix (Z.to_nat n) (ustr symb)) as [rest Hrest].
  eexists _, rest. split_and!; [done|done|apply take_str_length].
Qed.

Lemma x11_witness :
  ∃ s rest, _symbol_set_char py_str (Some 4%Z) (PyStr "Agrolait") = Some s
    ∧ py_str (PyStr "Agrolait") = s +:+ rest
    ∧ String.length s
      = Nat.min (Z.to_nat 4) (String.length (py_str (PyStr "Agrolait"))).
Proof.
  apply (x11_char_truncates_to_size py_str 4 (PyStr "Agrolait")); [lia|reflexivity].
Defined.

(** X12: with a size that is [None] or not negative, and [tools.ustr]
    leaving a text as it is, storing what the setter of a [char] column has
    made of a value gives the same again: a text that was truncated once is
    not truncated further, and [NULL] stays [NULL]. *)
Theorem x12_char_setter_is_idempotent (ustr : pyv → string) (size : option Z)
    (symb : pyv) :
  (∀ s, ustr (PyStr s) = s) →
  match size with
  | Some n => (0 ≤ n)%Z
  | None => True
  end →
  _symbol_set_char ustr size
    match _symbol_set_char ustr size symb with
    | Some s => PyStr s
    | None => PyNone
    end
  = _symbol_set_char ustr size symb.
Proof.
  intros Hustr Hsize. unfold _symbol_set_char at 2 3.
  destruct (is_None symb || eq_False symb); [done|].
  unfold _symbol_set_char. cbn [is_None eq_False orb]. rewrite Hustr. f_equal.
  destruct size as [n|]; [|done]. cbn [slice_to].
  rewrite (proj2 (Z.leb_le 0 n) Hsize). apply take_str_idemp.
Qed.

Lemma x12_witness :
  _symbol_set_char py_str (Some 4%Z)
    match _symbol_set_char py_str (Some 4%Z) (PyStr "Agrolait") with
    | Some s => PyStr s
    | None => PyNone
    end
  = _symbol_set_char py_str (Some 4%Z) (PyStr "Agrolait").
Proof.
  apply (x12_char_setter_is_idempotent py_str (Some 4%Z) (PyStr "Agrolait")).
  - reflexivity.
  - simpl. lia.
Defined.


(** *** Binary values *)

Example b64encode_Man : b64encode "Man" = "TWFu".
Proof. reflexivity. Qed.

Example b64encode_Ma : b64encode "Ma" = "TWE=".
Proof. reflexivity. Qed.

Example b64encode_M : b64encode "M" = "TQ==".
Proof. reflexivity. Qed.








End CodecFacts.

(** * Properties of the names of relation tables *)

Module SqlNamesFacts.
Import SqlNames.

Lemma sorted_comm a b : a ≠ b → sorted a b = sorted b a.
Proof.
  intros Hne. unfold sorted, String.ltb.
  rewrite (String.compare_antisym a b).
  destruct (String.compare b a) eqn:Hcmp; simpl; try done.
  apply String.compare_eq_iff in Hcmp. by subst.
Qed.

Lemma sorted_distinct a b : a ≠ b → fst (sorted a b) ≠ snd (sorted a b).
Proof. intros Hne. unfold sorted. destruct (String.ltb b a); simpl; congruence. Qed.

Lemma append_cons c (a b : string) : String c a +:+ b = String c (a +:+ b).
Proof. reflexivity. Qed.

Lemma length_append (a b : string) :
  String.length (a +:+ b) = (String.length a + String.length b)%nat.
Proof.
  induction a as [|c a IH]; [done|]. rewrite append_cons. simpl. by rewrite IH.
Qed.

Lemma append_inj_l (a b p : string) : a +:+ p = b +:+ p → a = b.
Proof.
  revert b. induction a as [|c a IH]; intros [|c' b]; [done| | |].
  - intros Heq. apply (f_equal String.length) in Heq.
    rewrite !length_append in Heq. simpl in Heq. lia.
  - intros Heq. apply (f_equal String.length) in Heq.
    rewrite !length_append in Heq. simpl in Heq. lia.
  - rewrite !append_cons. intros [= -> Heq]. f_equal. by apply IH.
Qed.

(** X16: a many-to-many relation declared without table and column names
    between two models of different tables gets the same relation table
    from either end, with the two columns in exchanged roles: the table of
    the relation is named after the two tables in alphabetical order. *)
Theorem x16_sql_names_same_table_from_both_ends (self other : many2many)
    (source_table dest_table : string) :
  named (_rel self) = false → named (_id1 self) = false → named (_id2 self) = false →
  named (_rel other) = false → named (_id1 other) = false → named (_id2 other) = false →
  source_table ≠ dest_table →
  ∃ tbl,
    _sql_names self source_table (Ok dest_table)
    = Ok (tbl, source_table +:+ "_id", dest_table +:+ "_id")
    ∧ _sql_names other dest_table (Ok source_table)
      = Ok (tbl, dest_table +:+ "_id", source_table +:+ "_id")
    ∧ source_table +:+ "_id" ≠ dest_table +:+ "_id".
Proof.
  intros Hr1 Ha1 Hb1 Hr2 Ha2 Hb2 Hne. unfold _sql_names.
  rewrite Hr1, Ha1, Hb1, Hr2, Ha2, Hb2. cbn [andb negb mbind res_bind].
  rewrite (sorted_comm dest_table source_table) by done.
  rewrite bool_decide_eq_true_2 by by apply sorted_distinct.
  eexists. split_and!; [done|done|].
  intros Heq. by apply append_inj_l in Heq.
Qed.

Lemma x16_witness :
  ∃ tbl,
    _sql_names (Many2many None None None) "res_partner" (Ok "res_groups")
    = Ok (tbl, "res_partner" +:+ "_id", "res_groups" +:+ "_id")
    ∧ _sql_names (Many2many None (Some "") None) "res_groups" (Ok "res_partner")
      = Ok (tbl, "res_groups" +:+ "_id", "res_partner" +:+ "_id")
    ∧ "res_partner" +:+ "_id" ≠ "res_groups" +:+ "_id".
Proof.
  apply (x16_sql_names_same_table_from_both_ends (Many2many None None None)
           (Many2many None (Some "") None) "res_partner" "res_groups");
    try reflexivity.
  discriminate.
Defined.

(** X17: when the table and the two columns of the relation are all
    named, [_sql_names] returns these names and does not look the comodel
    up. When the table is not named and the two models have the same table,
    it fails on its assertion. When the table is named but the columns are
    not, a relation of a model with itself gets the same name for both
    columns. *)
Theorem x17_sql_names_explicit_and_self (self : many2many) (source_table : string)
    (dest_model : res string) :
  (named (_rel self) = true → named (_id1 self) = true → named (_id2 self) = true →
   _sql_names self source_table dest_model
   = Ok (default "" (_rel self), default "" (_id1 self), default "" (_id2 self)))
  ∧ (named (_rel self) = false → dest_model = Ok source_table →
     _sql_names self source_table dest_model = Raise (AssertionError same_model))
  ∧ (named (_rel self) = true → named (_id1 self) = false → named (_id2 self) = false →
     dest_model = Ok source_table →
     _sql_names self source_table dest_model
     = Ok (default "" (_rel self), source_table +:+ "_id", source_table +:+ "_id")).
Proof.
  unfold _sql_names. split_and!.
  - by intros -> -> ->.
  - intros -> ->. cbn [andb negb mbind res_bind].
    rewrite bool_decide_eq_false_2; [done|].
    unfold sorted. destruct (String.ltb _ _); simpl; by intros ?.
  - by intros -> -> -> ->.
Qed.

Lemma x17_witness :
  _sql_names (Many2many (Some "partner_rel") (Some "a_id") (Some "b_id")) "res_partner"
    (Raise (KeyError (Some "res.unknown")))
  = Ok ("partner_rel", "a_id", "b_id").
Proof.
  apply (proj1 (x17_sql_names_explicit_and_self
                  (Many2many (Some "partner_rel") (Some "a_id") (Some "b_id"))
                  "res_partner" (Raise (KeyError (Some "res.unknown")))));
    reflexivity.
Defined.

End SqlNamesFacts.

(** * Further properties of the relational columns *)

Module RelationalGetFacts.
Import IrFields Relational RelationalSpec RelationalGet RelationalFacts.

(** *** Reading a one-to-many column *)

Section One2manyGet.
Context {T : Type} (self : one2many T) (t : table).

(** The parent of a record: what its inverse field points to. *)
Let parent (c : Z) : option Z := rows t !! c ≫= λ r, r !! _fields_id self.

Lemma o2m_get_records records : ∀ result0,
  (∀ c, c ∈ records → ∃ p, parent c = Some p ∧ is_Some (result0 !! p)) →
  ∃ result, foldM (o2m_get_record self t) records result0 = Ok result
    ∧ ∀ p, result !! p
           = (λ l, l ++ filter (λ c, parent c = Some p) records) <$> result0 !! p.
Proof.
  induction records as [|c records IH]; intros result0 Hparents.
  - exists result0. split; [done|]. intros p.
    destruct (result0 !! p); simpl; [|done]. by rewrite app_nil_r.
  - destruct (Hparents c) as (p & Hp & [l Hl]); [by left|].
    unfold parent in Hp. destruct (rows t !! c) as [r|] eqn:Hc; [|done].
    simpl in Hp.
    assert (o2m_get_record self t result0 c = Ok (<[p := l ++ [c]]> result0)) as Hstep.
    { unfold o2m_get_record, browse_int. rewrite Hc, Hp. simpl. by rewrite Hl. }
    destruct (IH (<[p := l ++ [c]]> result0)) as (result & Hfold & Hresult).
    { intros c' Hc'. destruct (Hparents c') as (p' & Hp' & Hsome); [by right|].
      exists p'. split; [done|].
      destruct (decide (p = p')) as [->|Hne];
        [rewrite lookup_insert_eq; eauto|by rewrite lookup_insert_ne]. }
    exists result. cbn [foldM]. rewrite Hstep. cbn [mbind res_bind].
    split; [done|]. intros p'. rewrite Hresult.
    assert (parent c = Some p) as Hpc by (unfold parent; by rewrite Hc).
    destruct (decide (p = p')) as [->|Hne].
    + rewrite lookup_insert_eq, Hl. simpl. f_equal.
      rewrite filter_cons_True by done. by rewrite <- app_assoc.
    + rewrite lookup_insert_ne by done.
      rewrite (filter_cons_False _ c) by (rewrite Hpc; congruence). done.
Qed.

Lemma empty_lists_lookup (ids : list Z) p :
  (list_to_map ((λ id, (id, [])) <$> ids) : gmap Z (list Z)) !! p
  = if bool_decide (p ∈ ids) then Some [] else None.
Proof.
  induction ids as [|i ids IH]; [done|]. rewrite fmap_cons, list_to_map_cons.
  destruct (decide (i = p)) as [->|Hne].
  - rewrite lookup_insert_eq. by rewrite bool_decide_eq_true_2 by by left.
  - rewrite lookup_insert_ne, IH by done. apply (f_equal (λ b : bool, if b then _ else _)).
    apply bool_decide_ext. rewrite elem_of_cons. split; [by right|].
    intros [?|?]; [congruence|done].
Qed.

(** The records [one2many.get] finds. *)
Let found (_limit : option positive) (ids : list Z) : list Z :=
  search_limit (λ i r, _domain self i r
                       && match r !! _fields_id self with
                          | Some p => bool_decide (p ∈ ids)
                          | None => false
                          end) _limit t.

Lemma elem_of_found _limit ids c :
  c ∈ found _limit ids →
  ∃ r p, rows t !! c = Some r ∧ r !! _fields_id self = Some p ∧ p ∈ ids
         ∧ _domain self c r = true.
Proof.
  unfold found, search_limit. intros Hc.
  assert (c ∈ search (λ i r, _domain self i r
                             && match r !! _fields_id self with
                                | Some p => bool_decide (p ∈ ids)
                                | None => false
                                end) t) as Hsearch.
  { destruct _limit as [n|]; [|done]. eapply elem_of_sublist; [exact Hc|apply sublist_take]. }
  apply elem_of_search in Hsearch as (r & Hr & Hd).
  apply andb_true_iff in Hd as [Hdomain Hin].
  destruct (r !! _fields_id self) as [p|] eqn:Hp; [|done].
  apply bool_decide_eq_true in Hin. eauto 10.
Qed.

Lemma NoDup_search domain : NoDup (search domain t).
Proof. unfold search. apply NoDup_fst_map_to_list. Qed.

Lemma NoDup_found _limit ids : NoDup (found _limit ids).
Proof.
  unfold found, search_limit.
  destruct _limit; [eapply sublist_NoDup; [|apply sublist_take]|]; apply NoDup_search.
Qed.

Lemma o2m_get_found _limit ids :
  ∃ result, o2m_get self _limit ids t = Ok result
    ∧ ∀ p, result !! p
           = if bool_decide (p ∈ ids)
             then Some (filter (λ c, parent c = Some p) (found _limit ids))
             else None.
Proof.
  destruct (o2m_get_records (found _limit ids)
              (list_to_map ((λ id, (id, [])) <$> ids))) as (result & Hfold & Hresult).
  { intros c (r & p & Hr & Hp & Hin & _)%elem_of_found. exists p. split.
    - unfold parent. by rewrite Hr.
    - rewrite empty_lists_lookup, bool_decide_eq_true_2 by done. eauto. }
  exists result. split; [exact Hfold|]. intros p.
  rewrite Hresult, empty_lists_lookup. by case_bool_decide.
Qed.

Lemma o2m_get_no_limit (ids : list Z) :
  ∃ result, o2m_get self None ids t = Ok result
    ∧ (∀ p, is_Some (result !! p) ↔ p ∈ ids)
    ∧ (∀ p l, result !! p = Some l →
         NoDup l
         ∧ ∀ c, c ∈ l ↔ ∃ r, rows t !! c = Some r
                            ∧ r !! _fields_id self = Some p
                            ∧ _domain self c r = true).
Proof.
  destruct (o2m_get_found None ids) as (result & Hget & Hresult).
  exists result. split; [exact Hget|]. split.
  - intros p. rewrite Hresult. case_bool_decide; split; try done; eauto.
  - intros p l. rewrite Hresult. case_bool_decide as Hp; [|done].
    intros [= <-]. split; [apply NoDup_filter, (NoDup_found None ids)|].
    intros c. rewrite list_elem_of_filter. split.
    + intros [Hparent (r & p' & Hr & Hp' & _ & Hdomain)%(elem_of_found None ids)].
      unfold parent in Hparent. rewrite Hr in Hparent. simpl in Hparent.
      exists r. by rewrite <- Hparent in *.
    + intros (r & Hr & Hfk & Hdomain). split.
      * unfold parent. by rewrite Hr.
      * unfold found, search_limit. apply elem_of_search. exists r.
        split; [done|]. rewrite Hdomain, Hfk. simpl. by apply bool_decide_eq_true_2.
Qed.

(** X18: [one2many.get] without limit never raises. Its result has an
    entry for each of the given ids and for no other id; the entry of an id
    lists, each once, the records of the comodel whose inverse field is
    this id and of which the static domain of the column holds. So no
    record is listed under two ids. *)
Theorem x18_o2m_get_groups_by_parent (ids : list Z) :
  ∃ result, o2m_get self None ids t = Ok result
    ∧ (∀ p, is_Some (result !! p) ↔ p ∈ ids)
    ∧ (∀ p l, result !! p = Some l →
         NoDup l
         ∧ ∀ c, c ∈ l ↔ ∃ r, rows t !! c = Some r
                            ∧ r !! _fields_id self = Some p
                            ∧ _domain self c r = true).
Proof. apply o2m_get_no_limit. Qed.

Lemma total_insert (m : gmap Z (list Z)) p l l' :
  m !! p = Some l →
  (sum_list_with length (snd <$> map_to_list (<[p := l']> m)) + length l
   = sum_list_with length (snd <$> map_to_list m) + length l')%nat.
Proof.
  intros Hp. rewrite <- (insert_delete_eq m p l').
  rewrite map_to_list_insert by apply lookup_delete_eq.
  rewrite <- (map_to_list_delete m p l Hp). simpl. lia.
Qed.

Lemma o2m_get_record_Ok result0 c result1 :
  o2m_get_record self t result0 c = Ok result1 →
  ∃ p l, result0 !! p = Some l ∧ result1 = <[p := l ++ [c]]> result0.
Proof.
  unfold o2m_get_record.
  destruct (browse_int (_fields_id self) c t) as [p|e]; cbn [mbind res_bind]; [|done].
  destruct (result0 !! p) as [l|] eqn:Hp; [|done]. intros [= <-]. eauto.
Qed.

Lemma total_get_records records : ∀ result0 result,
  foldM (o2m_get_record self t) records result0 = Ok result →
  sum_list_with length (snd <$> map_to_list result)
  = (sum_list_with length (snd <$> map_to_list result0) + length records)%nat.
Proof.
  induction records as [|c records IH]; intros result0 result; cbn [foldM].
  - intros [= <-]. simpl. lia.
  - destruct (o2m_get_record self t result0 c) as [result1|e] eqn:Hstep;
      cbn [mbind res_bind]; [|done].
    apply o2m_get_record_Ok in Hstep as (p & l & Hp & ->).
    intros Hfold. rewrite (IH _ _ Hfold).
    pose proof (total_insert result0 p l (l ++ [c]) Hp) as Htotal.
    rewrite length_app in Htotal. simpl in *. lia.
Qed.

Lemma total_empty_lists (ids : list Z) :
  sum_list_with length
    (snd <$> map_to_list (list_to_map ((λ id, (id, [])) <$> ids) : gmap Z (list Z)))
  = 0%nat.
Proof.
  assert (∀ l : list (Z * list Z), Forall (λ pl, snd pl = []) l →
            sum_list_with length (snd <$> l) = 0%nat) as Hzero.
  { induction 1 as [|[p l] ls Hl _ IH]; [done|]. simpl in Hl. subst l.
    rewrite fmap_cons. cbn [sum_list_with snd length]. exact IH. }
  apply Hzero, Forall_forall. intros [p l] Hin.
  apply elem_of_map_to_list in Hin. rewrite empty_lists_lookup in Hin.
  simpl. case_bool_decide; congruence.
Qed.

(** X19: the limit of a one-to-many column bounds the number of records
    [one2many.get] returns for all the given ids together, not for each of
    them: with the limit [n] the lists of the result hold at most [n]
    records in all, each a record whose inverse field is the id it is
    listed under. *)
Theorem x19_o2m_get_limit_is_global (n : positive) (ids : list Z) :
  ∃ result, o2m_get self (Some n) ids t = Ok result
    ∧ (∀ p, is_Some (result !! p) ↔ p ∈ ids)
    ∧ (sum_list_with length (snd <$> map_to_list result) ≤ Pos.to_nat n)%nat
    ∧ (∀ p l c, result !! p = Some l → c ∈ l →
         ∃ r, rows t !! c = Some r ∧ r !! _fields_id self = Some p
              ∧ _domain self c r = true).
Proof.
  destruct (o2m_get_found (Some n) ids) as (result & Hget & Hresult).
  exists result. split; [exact Hget|]. split_and!.
  - intros p. rewrite Hresult. case_bool_decide; split; try done; eauto.
  - unfold o2m_get in Hget. rewrite (total_get_records _ _ _ Hget).
    rewrite total_empty_lists. unfold search_limit. rewrite length_take. lia.
  - intros p l c. rewrite Hresult. case_bool_decide as Hp; [|done].
    intros [= <-]. rewrite list_elem_of_filter.
    intros [Hparent (r & p' & Hr & Hp' & _ & Hdomain)%(elem_of_found (Some n) ids)].
    unfold parent in Hparent. rewrite Hr in Hparent. simpl in Hparent.
    exists r. by rewrite <- Hparent in *.
Qed.

End One2manyGet.

(** *** Creating a record through a one-to-many column *)





(** *** The commands of a many-to-many column *)

Section Many2manySet.
Variable self : many2many.
Variable id : Z.

Lemma filter_filter_implied {A} (P Q : A → Prop) `{∀ x, Decision (P x)}
    `{∀ x, Decision (Q x)} (l : list A) :
  (∀ x, P x → Q x) → filter P (filter Q l) = filter P l.
Proof.
  intros HPQ. induction l as [|x l IH]; [done|].
  destruct (decide (Q x)) as [Hq|Hq].
  - rewrite (filter_cons_True Q) by done.
    destruct (decide (P x)) as [Hp|Hp].
    + rewrite !(filter_cons_True P) by done. by rewrite IH.
    + rewrite !(filter_cons_False P) by done. done.
  - rewrite (filter_cons_False Q) by done.
    rewrite (filter_cons_False P) by (intros ?; apply Hq; auto). done.
Qed.

Lemma filter_insert_links_other sub_ids rel j :
  j ≠ id →
  filter (λ p, fst p = j) (insert_links id sub_ids rel) = filter (λ p, fst p = j) rel.
Proof.
  intros Hne. unfold insert_links. rewrite filter_app.
  rewrite (filter_none (λ p, fst p = j) (except _ _)); [apply app_nil_r|].
  intros p [(i & -> & _)%list_elem_of_fmap _]%elem_of_except. simpl. congruence.
Qed.

Lemma m2m_act_other_links db db' act j :
  j ≠ id → m2m_act self id db act = Ok db' →
  (∀ i, act ≠ DELETE i) →
  filter (λ p, fst p = j) (rel db') = filter (λ p, fst p = j) (rel db).
Proof.
  intros Hne Hact Hdelete. destruct act as [values|i values|i|i|i| |ids];
    cbn [m2m_act] in Hact.
  - destruct (create values (comodel db)) as [idnew t']. injection Hact as <-.
    cbn [rel]. rewrite filter_app. rewrite (filter_cons_False _ (id, idnew)) by (simpl; congruence).
    apply app_nil_r.
  - destruct (write [i] values (comodel db)); [|done]. by injection Hact as <-.
  - by destruct (Hdelete i).
  - injection Hact as <-. cbn [rel]. apply filter_filter_implied.
    intros [a b]. simpl. intros -> [? _]. congruence.
  - injection Hact as <-. cbn [rel]. rewrite link_insert_links.
    by apply filter_insert_links_other.
  - injection Hact as <-. cbn [rel]. unfold unlink_all. apply filter_filter_implied.
    intros [a b]. simpl. intros ->. rewrite bool_decide_eq_false_2 by done. done.
  - injection Hact as <-. cbn [rel]. rewrite link_insert_links.
    rewrite filter_insert_links_other by done.
    unfold unlink_all. apply filter_filter_implied.
    intros [a b]. simpl. intros ->. rewrite bool_decide_eq_false_2 by done. done.
Qed.

Lemma m2m_act_delete db i :
  m2m_act self id db (DELETE i)
  = Ok (M2mDb (unlink [i] (comodel db)) (filter (λ p, snd p ≠ i) (rel db))).
Proof. reflexivity. Qed.

(** X21: the commands of [many2many.set] on a record leave the links of
    the other records as they are, but for [DELETE], which takes away the
    links of every record to the record it deletes. So [set] never gives a
    link to another record. *)
Theorem x21_m2m_set_keeps_the_links_of_others (values : list (command vals))
    (db db' : m2m_db) (j : Z) :
  j ≠ id →
  m2m_set self id values db = Ok db' →
  (Forall (λ act, ∀ i, act ≠ DELETE i) values →
     filter (λ p, fst p = j) (rel db') = filter (λ p, fst p = j) (rel db))
  ∧ (∀ i, (j, i) ∈ rel db' → (j, i) ∈ rel db).
Proof.
  intros Hne. unfold m2m_set. revert db.
  induction values as [|act values IH]; intros db; cbn [foldM].
  - intros [= <-]. done.
  - destruct (m2m_act self id db act) as [db1|e] eqn:Hact; cbn [mbind res_bind]; [|done].
    intros Hset. destruct (IH db1 Hset) as [IHeq IHsub]. split.
    + intros [Hdelete Hall]%Forall_cons. rewrite IHeq by done.
      by apply (m2m_act_other_links db db1 act).
    + intros i Hin%IHsub.
      assert ((∃ i0, act = DELETE i0) ∨ (∀ i0, act ≠ DELETE i0)) as [[i0 ->]|Hdelete]
        by (destruct act; eauto).
      * rewrite m2m_act_delete in Hact. injection Hact as <-. cbn [rel] in Hin.
        by apply list_elem_of_filter in Hin as [_ Hin].
      * assert ((j, i) ∈ filter (λ p, fst p = j) (rel db1)) as Hin1
          by by apply list_elem_of_filter.
        rewrite (m2m_act_other_links db db1 act j) in Hin1 by done.
        by apply list_elem_of_filter in Hin1 as [_ Hin1].
Qed.

Lemma m2m_linked_insert_links sub_ids db :
  m2m_linked id (M2mDb (comodel db) (insert_links id sub_ids (rel db)))
  = m2m_linked id db
    ++ map snd (except (map (λ i, (id, i)) sub_ids)
                       (filter (λ p, fst p = id) (rel db))).
Proof.
  unfold m2m_linked, insert_links. cbn [rel]. rewrite filter_app, map_app. f_equal.
  f_equal. induction (except _ _) as [|p l IH] eqn:Hl in sub_ids |- *; [done|].
  assert (fst p = id) as Hp.
  { assert (p ∈ except (map (λ i, (id, i)) sub_ids)
                       (filter (λ p, fst p = id) (rel db))) as Hin
      by (rewrite Hl; by left).
    by apply elem_of_except in Hin as [(i & -> & _)%list_elem_of_fmap _]. }
  rewrite filter_cons_True by done. f_equal.
  assert (Forall (λ p, fst p = id) l) as Hall.
  { apply Forall_forall. intros q Hq.
    assert (q ∈ except (map (λ i, (id, i)) sub_ids)
                       (filter (λ p, fst p = id) (rel db))) as Hin
      by (rewrite Hl; by right).
    by apply elem_of_except in Hin as [(i & -> & _)%list_elem_of_fmap _]. }
  clear -Hall. induction Hall as [|q l Hq _ IH]; [done|].
  rewrite filter_cons_True by done. by f_equal.
Qed.

Lemma NoDup_m2m_linked_insert_links sub_ids db :
  NoDup (m2m_linked id db) →
  NoDup (m2m_linked id (M2mDb (comodel db) (insert_links id sub_ids (rel db)))).
Proof.
  intros Hnd. rewrite m2m_linked_insert_links. apply NoDup_app. split_and!.
  - done.
  - intros i Hi Hnew. unfold m2m_linked in Hi.
    apply list_elem_of_fmap in Hi as ([a b] & -> & [Ha Hin]%list_elem_of_filter).
    apply list_elem_of_fmap in Hnew as ([a' b'] & Heq & Hnew).
    simpl in *. subst.
    apply elem_of_except in Hnew as [(i & [= -> ->] & _)%list_elem_of_fmap Hnot].
    apply Hnot. by apply list_elem_of_filter.
  - apply (NoDup_fmap_2_strong snd); [|apply NoDup_except].
    intros [a b] [a' b'] [(i & [= -> ->] & _)%list_elem_of_fmap _]%elem_of_except
      [(i' & [= -> ->] & _)%list_elem_of_fmap _]%elem_of_except. simpl. by intros ->.
Qed.

Lemma NoDup_m2m_linked_filter (P : Z * Z → Prop) `{∀ p, Decision (P p)} db t :
  NoDup (m2m_linked id db) →
  NoDup (m2m_linked id (M2mDb t (filter P (rel db)))).
Proof.
  unfold m2m_linked. cbn [rel]. generalize (rel db). intros l.
  induction l as [|[a b] l IH]; [done|].
  destruct (decide (a = id)) as [->|Hne].
  - rewrite (filter_cons_True (λ p, fst p = id)) by done. cbn [map snd].
    intros [Hb Hnd]%NoDup_cons.
    destruct (decide (P (id, b))) as [Hp|Hp].
    + rewrite (filter_cons_True P) by done.
      rewrite (filter_cons_True (λ p, fst p = id)) by done. cbn [map snd].
      apply NoDup_cons. split; [|by apply IH].
      intros Hin. apply Hb.
      apply list_elem_of_fmap in Hin as ([a' b'] & -> & [Ha' Hin]%list_elem_of_filter).
      apply list_elem_of_filter in Hin as [_ Hin].
      apply list_elem_of_fmap. exists (a', b'). split; [done|].
      by apply list_elem_of_filter.
    + rewrite (filter_cons_False P) by done. by apply IH.
  - rewrite (filter_cons_False (λ p, fst p = id)) by done. intros Hnd.
    destruct (decide (P (a, b))) as [Hp|Hp].
    + rewrite (filter_cons_True P) by done.
      rewrite (filter_cons_False (λ p, fst p = id)) by done. by apply IH.
    + rewrite (filter_cons_False P) by done. by apply IH.
Qed.

(** X22: when no record is linked twice to a record, none is after
    commands of [many2many.set] other than [CREATE]: [link] inserts only
    the pairs that are not in the relation table yet, whatever ids it is
    given and however often. *)
Theorem x22_m2m_set_makes_no_duplicate_link (values : list (command vals))
    (db db' : m2m_db) :
  Forall (λ act, ∀ v, act ≠ CREATE v) values →
  NoDup (m2m_linked id db) →
  m2m_set self id values db = Ok db' →
  NoDup (m2m_linked id db').
Proof.
  unfold m2m_set. revert db.
  induction values as [|act values IH]; intros db Hcreate Hnd; cbn [foldM].
  - by intros [= <-].
  - apply Forall_cons in Hcreate as [Hact Hcreate].
    destruct (m2m_act self id db act) as [db1|e] eqn:Hstep; cbn [mbind res_bind]; [|done].
    apply IH; [done|]. clear IH.
    destruct act as [v|i v|i|i|i| |ids]; cbn [m2m_act] in Hstep.
    + by destruct (Hact v).
    + destruct (write [i] v (comodel db)); [|done]. by injection Hstep as <-.
    + injection Hstep as <-. by apply NoDup_m2m_linked_filter.
    + injection Hstep as <-. by apply NoDup_m2m_linked_filter.
    + injection Hstep as <-. rewrite link_insert_links.
      by apply NoDup_m2m_linked_insert_links.
    + injection Hstep as <-. unfold unlink_all. by apply NoDup_m2m_linked_filter.
    + injection Hstep as <-. rewrite link_insert_links.
      apply (NoDup_m2m_linked_insert_links ids (M2mDb (comodel db) (unlink_all self id db))).
      unfold unlink_all. by apply NoDup_m2m_linked_filter.
Qed.

End Many2manySet.

Lemma x21_witness :
  filter (λ p, fst p = 2%Z)
    (rel (M2mDb (Table {[ 7%Z := ∅; 8%Z := ∅ ]} 9) [(1%Z, 7%Z); (2%Z, 7%Z); (1%Z, 8%Z)]))
  = filter (λ p, fst p = 2%Z) [(1%Z, 7%Z); (2%Z, 7%Z)].
Proof.
  apply (proj1 (x21_m2m_set_keeps_the_links_of_others Examples.no_rule 1
                  [LINK_TO 8%Z; LINK_TO 7%Z]
                  (M2mDb (Table {[ 7%Z := ∅; 8%Z := ∅ ]} 9) [(1%Z, 7%Z); (2%Z, 7%Z)])
                  (M2mDb (Table {[ 7%Z := ∅; 8%Z := ∅ ]} 9)
                         [(1%Z, 7%Z); (2%Z, 7%Z); (1%Z, 8%Z)])
                  2 ltac:(lia) ltac:(vm_compute; reflexivity))).
  repeat constructor; discriminate.
Defined.

Lemma x22_witness :
  NoDup (m2m_linked 1
           (M2mDb (Table {[ 7%Z := ∅; 8%Z := ∅ ]} 9) [(1%Z, 7%Z); (1%Z, 8%Z)])).
Proof.
  apply (x22_m2m_set_makes_no_duplicate_link Examples.no_rule 1
           [LINK_TO 8%Z; LINK_TO 7%Z; LINK_TO 8%Z]
           (M2mDb (Table {[ 7%Z := ∅; 8%Z := ∅ ]} 9) [(1%Z, 7%Z)])
           (M2mDb (Table {[ 7%Z := ∅; 8%Z := ∅ ]} 9) [(1%Z, 7%Z); (1%Z, 8%Z)])).
  - repeat constructor; discriminate.
  - apply (bool_decide_unpack _). vm_compute. exact I.
  - vm_compute. reflexivity.
Defined.

End RelationalGetFacts.

(** * Further properties of the column descriptors *)

Module DescriptorFacts.
Import Columns ColumnsFacts.


Section Attributes.
Context `{PyValues}.

(** *** Running a computation on one descriptor *)

(** The descriptor after [setattr]. *)
Definition assigned (o : object) (name : string) (v : pyval) : object :=
  if bool_decide (name ∈ slots (obj_class o))
  then Object (obj_class o) (<[name := v]> (obj_slots o)) (obj_args o)
  else Object (obj_class o) (obj_slots o) (<[name := v]> (obj_args o)).

Lemma setattr_run a o h name v :
  h !! a = Some o → setattr a name v h = (<[a := assigned o name v]> h, Ok ()).
Proof. intros Ha. unfold setattr, assigned. rewrite Ha. by case_bool_decide. Qed.

Lemma getattr_run a o h name :
  h !! a = Some o → getattr a name h = (h, lookup_attr o name).
Proof.
  intros Ha. unfold getattr, mbind, M_bind, read, lift. by rewrite Ha.
Qed.

Lemma bind_run {A B} (m : M A) (k : A → M B) h :
  (m ≫= k) h = match m h with
               | (h', Ok x) => k x h'
               | (h', Raise e) => (h', Raise e)
               end.
Proof. reflexivity. Qed.

Lemma bind_Ok {A B} (m : M A) (k : A → M B) h h' y :
  (m ≫= k) h = (h', Ok y) → ∃ x h1, m h = (h1, Ok x) ∧ k x h1 = (h', Ok y).
Proof.
  rewrite bind_run. destruct (m h) as [h1 [x|e]]; [eauto|done].
Qed.

Lemma assigned_class o name v : obj_class (assigned o name v) = obj_class o.
Proof. unfold assigned. by case_bool_decide. Qed.

Lemma assigned_slot o name v n :
  obj_slots (assigned o name v) !! n
  = if bool_decide (n = name ∧ name ∈ slots (obj_class o)) then Some v
    else obj_slots o !! n.
Proof.
  unfold assigned. destruct (decide (name ∈ slots (obj_class o))) as [Hs|Hs].
  - rewrite (bool_decide_eq_true_2 _ Hs). simpl.
    destruct (decide (n = name)) as [->|Hne].
    + rewrite lookup_insert_eq. by rewrite bool_decide_eq_true_2.
    + rewrite lookup_insert_ne by done. rewrite bool_decide_eq_false_2; [done|tauto].
  - rewrite (bool_decide_eq_false_2 _ Hs). simpl.
    rewrite bool_decide_eq_false_2; [done|tauto].
Qed.

Lemma assigned_arg o name v n :
  obj_args (assigned o name v) !! n
  = if bool_decide (n = name ∧ name ∉ slots (obj_class o)) then Some v
    else obj_args o !! n.
Proof.
  unfold assigned. destruct (decide (name ∈ slots (obj_class o))) as [Hs|Hs].
  - rewrite (bool_decide_eq_true_2 _ Hs). simpl.
    rewrite bool_decide_eq_false_2; [done|tauto].
  - rewrite (bool_decide_eq_false_2 _ Hs). simpl.
    destruct (decide (n = name)) as [->|Hne].
    + rewrite lookup_insert_eq. by rewrite bool_decide_eq_true_2.
    + rewrite lookup_insert_ne by done. rewrite bool_decide_eq_false_2; [done|tauto].
Qed.


(** *** Assigning and reading an attribute *)







End Attributes.

(** *** What the constructors leave in a descriptor *)

Section Construct.
Context `{PyValues}.

(** The descriptor after [setattr] for each of the items. *)
Definition all_assigned (items : list (string * pyval)) (o : object) : object :=
  fold_left (λ o kv, assigned o (fst kv) (snd kv)) items o.

Lemma setattrs_run a items : ∀ o h,
  h !! a = Some o → setattrs a items h = (<[a := all_assigned items o]> h, Ok ()).
Proof.
  induction items as [|[key val] items IH]; intros o h Ha.
  - simpl. by rewrite insert_id.
  - cbn [setattrs]. rewrite bind_run, (setattr_run a o h key val Ha).
    rewrite (IH (assigned o key val)) by apply lookup_insert_eq.
    by rewrite insert_insert_eq.
Qed.

Lemma reset_args_run a o h :
  h !! a = Some o →
  reset_args a h = (<[a := Object (obj_class o) (obj_slots o) ∅]> h, Ok ()).
Proof. intros Ha. unfold reset_args. by rewrite Ha. Qed.

Lemma all_assigned_lookup items : NoDup (map fst items) → ∀ o,
  obj_class (all_assigned items o) = obj_class o
  ∧ ∀ n,
      obj_slots (all_assigned items o) !! n
      = (if bool_decide (n ∈ slots (obj_class o))
         then from_option Some (obj_slots o !! n)
                (list_to_map (M := gmap string pyval) items !! n)
         else obj_slots o !! n)
      ∧ obj_args (all_assigned items o) !! n
        = (if bool_decide (n ∈ slots (obj_class o))
           then obj_args o !! n
           else from_option Some (obj_args o !! n)
                  (list_to_map (M := gmap string pyval) items !! n)).
Proof.
  induction items as [|[k v] items IH]; intros Hnd o.
  - split; [done|]. intros n. simpl. rewrite lookup_empty. simpl.
    by case_bool_decide.
  - simpl in Hnd. apply NoDup_cons in Hnd as [Hk Hnd].
    destruct (IH Hnd (assigned o k v)) as [Hclass Hlookup].
    change (all_assigned ((k, v) :: items) o) with (all_assigned items (assigned o k v)).
    rewrite assigned_class in Hclass. split; [done|]. intros n.
    destruct (Hlookup n) as [Hslot Harg]. rewrite Hslot, Harg, assigned_class.
    rewrite assigned_slot, assigned_arg, list_to_map_cons.
    destruct (decide (n = k)) as [->|Hne].
    + rewrite lookup_insert_eq.
      rewrite (not_elem_of_list_to_map_1 (M := gmap string) items k) by done. simpl.
      destruct (decide (k ∈ slots (obj_class o))) as [Hs|Hs].
      * rewrite !(bool_decide_eq_true_2 (k ∈ _)) by done.
        rewrite bool_decide_eq_true_2 by done.
        by rewrite bool_decide_eq_false_2 by tauto.
      * rewrite !(bool_decide_eq_false_2 (k ∈ _)) by done.
        rewrite bool_decide_eq_false_2 by tauto.
        by rewrite bool_decide_eq_true_2 by done.
    + rewrite lookup_insert_ne by done.
      rewrite (bool_decide_eq_false_2 (n = k ∧ k ∈ _)) by tauto.
      by rewrite (bool_decide_eq_false_2 (n = k ∧ k ∉ _)) by tauto.
Qed.

Lemma lookup_rest (args : kwargs) (named : list string) n :
  rest args named !! n = if bool_decide (n ∈ named) then None else args !! n.
Proof.
  unfold rest. revert args. induction named as [|k named IH]; intros args; [done|].
  cbn [fold_left]. rewrite IH.
  destruct (decide (n = k)) as [->|Hne].
  - rewrite lookup_delete_eq. rewrite (bool_decide_eq_true_2 (k ∈ k :: named)) by by left.
    by case_bool_decide.
  - rewrite lookup_delete_ne by done. apply (f_equal (λ b : bool, if b then _ else _)).
    apply bool_decide_ext. rewrite elem_of_cons. split; [by right|].
    intros [?|?]; [congruence|done].
Qed.

(** [args[name] = args.get(name, default)] *)
Definition set_default (name : string) (default : pyval) (args : kwargs) : kwargs :=
  <[name := get args name default]> args.

Lemma lookup_set_default_eq name default (args : kwargs) :
  set_default name default args !! name = Some (get args name default).
Proof. apply lookup_insert_eq. Qed.

Lemma lookup_set_default_ne name default (args : kwargs) n :
  name ≠ n → set_default name default args !! n = args !! n.
Proof. apply lookup_insert_ne. Qed.

(** The parameters [_column.__init__] assigns. *)
Definition column_args (all : kwargs) (ondelete : pyval) : kwargs :=
  let args := rest all [ "string"; "required"; "readonly"; "domain"; "context";
                         "states"; "priority"; "change_default"; "size"; "ondelete";
                         "translate"; "select"; "manual" ] in
  let args := set_default "copy" (PBool true) args in
  let args := <["string" := get all "string" (PStr "unknown")]> args in
  let args := set_default "help" (PStr "") args in
  let args := <["required" := get all "required" (PBool false)]> args in
  let args := <["readonly" := get all "readonly" (PBool false)]> args in
  let args := <["_domain" := get all "domain" PEmptyList]> args in
  let args := <["_context" := get all "context" PEmptyDict]> args in
  let args := <["states" := get all "states" PNone]> args in
  let args := <["priority" := get all "priority" (PInt 0)]> args in
  let args := <["change_default" := get all "change_default" (PBool false)]> args in
  let args := <["size" := get all "size" PNone]> args in
  let args := <["ondelete" := ondelete]> args in
  let args := <["translate" := get all "translate" (PBool false)]> args in
  let args := <["select" := get all "select" (PBool false)]> args in
  let args := <["manual" := get all "manual" (PBool false)]> args in
  let args := set_default "write" (PBool false) args in
  let args := set_default "read" (PBool false) args in
  let args := set_default "selectable" (PBool true) args in
  let args := set_default "group_operator" PNone args in
  let args := set_default "groups" PNone args in
  let args := set_default "deprecated" PNone args in
  set_default "_prefetch" (PBool true) args.

Lemma column_init_unfold a all :
  column_init a all
  = (ondelete ← (if py_truthy (get all "ondelete" PNone)
                 then lift (py_lower (get all "ondelete" PNone)) else mret PNone);
     reset_args a;;
     setattrs a (map_to_list (column_args all ondelete));;
     _classic_write ← getattr a "_classic_write";
     no_prefetch ←
       (if negb (py_truthy _classic_write) then mret true
        else deprecated ← getattr a "deprecated";
             if py_truthy deprecated then mret true
             else manual ← getattr a "manual"; mret (py_truthy manual));
     if no_prefetch : bool then setattr a "_prefetch" (PBool false) else mret ()).
Proof. reflexivity. Qed.

Lemma column_slots_in c n : n ∈ column_slots → n ∈ slots c.
Proof. intros Hn. unfold slots. apply elem_of_app. by right. Qed.

(** The descriptor [_column.__init__] has assigned its parameters to. *)
Definition initialised (o : object) (all : kwargs) (ondelete : pyval) : object :=
  all_assigned (map_to_list (column_args all ondelete))
    (Object (obj_class o) (obj_slots o) ∅).

Lemma initialised_lookup o all ondelete :
  obj_class (initialised o all ondelete) = obj_class o
  ∧ ∀ n,
      obj_slots (initialised o all ondelete) !! n
      = (if bool_decide (n ∈ slots (obj_class o))
         then from_option Some (obj_slots o !! n) (column_args all ondelete !! n)
         else obj_slots o !! n)
      ∧ obj_args (initialised o all ondelete) !! n
        = (if bool_decide (n ∈ slots (obj_class o)) then None
           else column_args all ondelete !! n).
Proof.
  unfold initialised.
  destruct (all_assigned_lookup (map_to_list (column_args all ondelete))
              (NoDup_fst_map_to_list _) (Object (obj_class o) (obj_slots o) ∅))
    as [Hclass Hlookup].
  split; [done|]. intros n. destruct (Hlookup n) as [Hslot Harg].
  rewrite Hslot, Harg. cbn [obj_class obj_slots obj_args].
  rewrite list_to_map_to_list, lookup_empty.
  split; [done|]. destruct (bool_decide _); [done|].
  by destruct (column_args all ondelete !! n).
Qed.

(** What [_column.__init__] does, when it returns. *)
Lemma column_init_Ok a o all h h' :
  h !! a = Some o → is_function (obj_class o) = false →
  column_init a all h = (h', Ok ()) →
  ∃ ondelete,
    (if py_truthy (get all "ondelete" PNone)
     then py_lower (get all "ondelete" PNone) else Ok PNone) = Ok ondelete
    ∧ ∃ no_prefetch : bool,
        h' = <[a := if no_prefetch
                    then assigned (initialised o all ondelete) "_prefetch" (PBool false)
                    else initialised o all ondelete]> h
        ∧ (py_truthy (get all "manual" (PBool false)) = true
           ∨ py_truthy (get (rest all [ "string"; "required"; "readonly"; "domain";
                                        "context"; "states"; "priority"; "change_default";
                                        "size"; "ondelete"; "translate"; "select";
                                        "manual" ]) "deprecated" PNone) = true
           ∨ obj_class o = one2many ∨ obj_class o = many2many →
           py_truthy (PBool false) = false → no_prefetch = true).
Proof.
  intros Ha Hclass. rewrite column_init_unfold, bind_run.
  assert (∃ r, (if py_truthy (get all "ondelete" PNone)
                then py_lower (get all "ondelete" PNone) else Ok PNone) = r
               ∧ (if py_truthy (get all "ondelete" PNone)
                  then lift (py_lower (get all "ondelete" PNone)) else mret PNone) h
                 = (h, r)) as (r & Hr & ->).
  { destruct (py_truthy _); eauto. }
  destruct r as [ondelete|e]; [|done]. intros Hinit. exists ondelete. split; [done|].
  rewrite bind_run, (reset_args_run a o h Ha) in Hinit.
  rewrite bind_run, (setattrs_run a _ (Object (obj_class o) (obj_slots o) ∅)) in Hinit
    by apply lookup_insert_eq.
  rewrite insert_insert_eq in Hinit.
  fold (initialised o all ondelete) in Hinit.
  destruct (initialised_lookup o all ondelete) as [Hc Hlookup].
  set (o1 := initialised o all ondelete) in *.
  assert ((<[a := o1]> h) !! a = Some o1) as Ha1 by apply lookup_insert_eq.
  assert (∀ n v, n ∈ column_slots → column_args all ondelete !! n = Some v →
            lookup_attr o1 n = Ok v) as Hslot.
  { intros n v Hn Hv. unfold lookup_attr. rewrite Hc.
    rewrite (bool_decide_eq_true_2 _ (column_slots_in _ _ Hn)).
    destruct (Hlookup n) as [-> _].
    rewrite (bool_decide_eq_true_2 _ (column_slots_in _ _ Hn)), Hv. done. }
  assert (lookup_attr o1 "manual" = Ok (get all "manual" (PBool false))) as Hmanual.
  { apply Hslot; [apply (bool_decide_unpack _); vm_compute; exact I|].
    unfold column_args. cbv zeta.
    rewrite !lookup_set_default_ne by discriminate. apply lookup_insert_eq. }
  assert (lookup_attr o1 "deprecated"
          = Ok (get (rest all [ "string"; "required"; "readonly"; "domain"; "context";
                                "states"; "priority"; "change_default"; "size";
                                "ondelete"; "translate"; "select"; "manual" ])
                    "deprecated" PNone)) as Hdeprecated.
  { apply Hslot; [apply (bool_decide_unpack _); vm_compute; exact I|].
    unfold column_args. cbv zeta.
    rewrite !lookup_set_default_ne by discriminate.
    rewrite lookup_set_default_eq. f_equal. unfold get.
    repeat first [ rewrite lookup_set_default_ne by discriminate
                 | rewrite (lookup_insert_ne _ _ "deprecated") by discriminate ].
    done. }
  assert (∃ w, (obj_class o = one2many ∨ obj_class o = many2many → w = false)
               ∧ lookup_attr o1 "_classic_write" = Ok (PBool w)) as (w & Hw & Hcw).
  { exists (match obj_class o with one2many | many2many => false | _ => true end).
    split; [by intros [-> | ->]|].
    unfold lookup_attr. rewrite Hc.
    destruct (obj_class o); try discriminate Hclass;
      (rewrite bool_decide_eq_false_2
         by (intros Hin; revert Hin; apply (bool_decide_unpack _); vm_compute; exact I));
      reflexivity. }
  rewrite bind_run, (getattr_run a o1 _ "_classic_write" Ha1), Hcw in Hinit.
  rewrite bind_run in Hinit.
  destruct (negb (py_truthy (PBool w))) eqn:Hnw.
  { cbn [mret M_ret] in Hinit. rewrite (setattr_run a o1 _ _ _ Ha1) in Hinit.
    rewrite insert_insert_eq in Hinit. injection Hinit as <-.
    exists true. split; [done|]. done. }
  rewrite bind_run, (getattr_run a o1 _ "deprecated" Ha1), Hdeprecated in Hinit.
  destruct (py_truthy (get (rest all _) "deprecated" PNone)) eqn:Hdep.
  { cbn [mret M_ret] in Hinit. rewrite (setattr_run a o1 _ _ _ Ha1) in Hinit.
    rewrite insert_insert_eq in Hinit. injection Hinit as <-.
    exists true. split; [done|]. done. }
  rewrite bind_run, (getattr_run a o1 _ "manual" Ha1), Hmanual in Hinit.
  cbn [mret M_ret] in Hinit.
  destruct (py_truthy (get all "manual" (PBool false))) eqn:Hman.
  { rewrite (setattr_run a o1 _ _ _ Ha1) in Hinit.
    rewrite insert_insert_eq in Hinit. injection Hinit as <-.
    exists true. split; [done|]. done. }
  injection Hinit as <-. exists false. split; [done|].
  intros [?|[?|Hcls]] Hfalse; [done..|].
  rewrite (Hw Hcls), Hfalse in Hnw. done.
Qed.

End Construct.

Import Examples.


End DescriptorFacts.

(** * The descriptor a constructor returns *)

Module ConstructFacts.
Import Columns ColumnsFacts DescriptorFacts.

(** Membership in a list that is written out. *)
Ltac in_list := apply (bool_decide_unpack _); vm_compute; exact I.

Section Triples.
Context `{PyValues}.

(** [triple P a m Q]: from a heap whose object at [a] satisfies [P], a run
    of [m] that returns [x] leaves at [a] an object that satisfies [Q x]. *)
Definition triple {A} (P : object → Prop) (a : positive) (m : M A)
    (Q : A → object → Prop) : Prop :=
  ∀ h h' x o, h !! a = Some o → P o → m h = (h', Ok x) →
    ∃ o', h' !! a = Some o' ∧ Q x o'.

Lemma triple_bind {A B} P Q R a (m : M A) (k : A → M B) :
  triple P a m Q → (∀ x, triple (Q x) a (k x) R) → triple P a (m ≫= k) R.
Proof.
  intros Hm Hk h h' y o Ha HP Hrun.
  apply bind_Ok in Hrun as (x & h1 & Hm1 & Hk1).
  destruct (Hm _ _ _ _ Ha HP Hm1) as (o1 & Ha1 & HQ).
  exact (Hk x _ _ _ _ Ha1 HQ Hk1).
Qed.

Lemma triple_ret {A} P a (x : A) : triple P a (mret x : M A) (λ _, P).
Proof. intros h h' y o Ha HP [= <- <-]. eauto. Qed.

Lemma triple_raise {A} P Q a e : triple P a (raise e : M A) Q.
Proof. intros h h' y o Ha HP. discriminate. Qed.

Lemma triple_lift {A} P a (r : res A) : triple P a (lift r) (λ _, P).
Proof. intros h h' y o Ha HP [= <- ->]. eauto. Qed.

Lemma triple_getattr P a b n : triple P a (getattr b n) (λ _, P).
Proof.
  intros h h' y o Ha HP. unfold getattr, mbind, M_bind, read, lift.
  destruct (h !! b); [|done]. intros [= <- _]. eauto.
Qed.

Lemma triple_required_arg P a c args n :
  triple P a (required_arg c args n) (λ _, P).
Proof.
  unfold required_arg. destruct (args !! n); [apply triple_ret|apply triple_raise].
Qed.

Lemma triple_setattr P (Q : object → Prop) a n v :
  (∀ o, P o → Q (assigned o n v)) → triple P a (setattr a n v) (λ _, Q).
Proof.
  intros HPQ h h' y o Ha HP. rewrite (setattr_run a o h n v Ha). intros [= <- _].
  exists (assigned o n v). split; [apply lookup_insert_eq|auto].
Qed.

Lemma triple_weaken {A} (P P' : object → Prop) Q a (m : M A) :
  (∀ o, P o → P' o) → triple P' a m Q → triple P a m Q.
Proof. intros HP Hm h h' x o Ha Ho Hrun. exact (Hm h h' x o Ha (HP o Ho) Hrun). Qed.

(** *** After [_column.__init__] *)

(** The parameters with which a column is never prefetched. *)
Definition never_prefetched (c : class) (all : kwargs) : Prop :=
  py_truthy (get all "manual" (PBool false)) = true
  ∨ py_truthy (get all "deprecated" PNone) = true
  ∨ c = one2many ∨ c = many2many.

(** The new object of class [c] once [_column.__init__] has returned from
    the parameters [all]. *)
Definition after_init (c : class) (all : kwargs) (o1 : object) : Prop :=
  ∃ (ondelete : pyval) (no_prefetch : bool),
    (never_prefetched c all → py_truthy (PBool false) = false → no_prefetch = true)
    ∧ o1 = (if no_prefetch
            then assigned (initialised (Object c ∅ ∅) all ondelete) "_prefetch" (PBool false)
            else initialised (Object c ∅ ∅) all ondelete).

Lemma get_rest_ne (all : kwargs) named n d :
  n ∉ named → get (rest all named) n d = get all n d.
Proof.
  intros Hn. unfold get. rewrite lookup_rest. by rewrite bool_decide_eq_false_2.
Qed.

Lemma triple_column_init c a all :
  is_function c = false →
  triple (λ o, o = Object c ∅ ∅) a (column_init a all) (λ _, after_init c all).
Proof.
  intros Hf h h' [] o Ha -> Hrun.
  destruct (column_init_Ok a _ all h h' Ha Hf Hrun)
    as (ondelete & _ & no_prefetch & -> & Hno).
  eexists. split; [apply lookup_insert_eq|].
  exists ondelete, no_prefetch. split; [|done].
  intros Hnever Hfalse. apply Hno; [|done].
  rewrite get_rest_ne by (intros Hin; revert Hin; in_list).
  exact Hnever.
Qed.

(** The attributes [_column.to_field_args] reads. *)
Definition column_reads : list string :=
  [ "copy"; "select"; "manual"; "string"; "help"; "readonly"; "required"; "states";
    "groups"; "change_default"; "deprecated"; "group_operator"; "size"; "ondelete";
    "translate"; "_domain"; "_context" ].

Lemma column_args_read all ondelete n :
  n ∈ column_reads → is_Some (column_args all ondelete !! n).
Proof.
  assert (∀ k v (m : kwargs), is_Some (<[k := v]> m !! k)) as Hhere.
  { intros k v m. rewrite lookup_insert_eq. eauto. }
  assert (∀ k v (m : kwargs) j, is_Some (m !! j) → is_Some (<[k := v]> m !! j))
    as Hskip.
  { intros k v m j Hj. apply lookup_insert_is_Some'. by right. }
  intros Hn. unfold column_args. cbv zeta. unfold column_reads in Hn.
  repeat (apply elem_of_cons in Hn as [->|Hn];
          [repeat first [ apply Hhere | apply Hskip ]|]).
  by apply elem_of_nil in Hn.
Qed.

Lemma column_args_other all ondelete n :
  n ∉ column_slots →
  column_args all ondelete !! n
  = if bool_decide (n ∈ ["domain"; "context"]) then None else all !! n.
Proof.
  intros Hn. unfold column_args. cbv zeta.
  repeat first [ rewrite lookup_set_default_ne by (intros <-; apply Hn; in_list)
               | rewrite lookup_insert_ne by (intros <-; apply Hn; in_list) ].
  rewrite lookup_rest.
  destruct (decide (n ∈ ["domain"; "context"])) as [Hin|Hout].
  - rewrite (bool_decide_eq_true_2 _ Hin). rewrite bool_decide_eq_true_2; [done|].
    apply elem_of_cons in Hin as [->|Hin]; [in_list|].
    apply elem_of_cons in Hin as [->|Hin]; [in_list|]. by apply elem_of_nil in Hin.
  - rewrite (bool_decide_eq_false_2 _ Hout). rewrite bool_decide_eq_false_2; [done|].
    intros Hin.
    repeat (apply elem_of_cons in Hin as [->|Hin];
            [first [by apply Hn; in_list | by apply Hout; in_list]|]).
    by apply elem_of_nil in Hin.
Qed.

Lemma prefetch_slot c : "_prefetch" ∈ slots c.
Proof. apply column_slots_in. in_list. Qed.

Lemma after_init_facts c all o1 :
  after_init c all o1 →
  obj_class o1 = c
  ∧ (∀ n, n ∈ column_reads → is_Some (obj_slots o1 !! n))
  ∧ (∀ n, n ∈ slots c → n ∉ column_slots → n ∉ ["domain"; "context"] →
       obj_slots o1 !! n = all !! n)
  ∧ (∀ k, k ∉ slots c →
       obj_args o1 !! k = if bool_decide (k ∈ ["domain"; "context"]) then None
                          else all !! k)
  ∧ (never_prefetched c all → py_truthy (PBool false) = false →
     obj_slots o1 !! "_prefetch" = Some (PBool false)).
Proof.
  intros (ondelete & no_prefetch & Hno & ->).
  destruct (initialised_lookup (Object c ∅ ∅) all ondelete) as [Hclass Hlookup].
  cbn [obj_class obj_slots obj_args] in Hclass, Hlookup.
  set (o1 := initialised (Object c ∅ ∅) all ondelete) in *.
  assert (∀ n, n ∈ slots c → obj_slots o1 !! n = column_args all ondelete !! n)
    as Hslot.
  { intros n Hn. destruct (Hlookup n) as [-> _].
    rewrite (bool_decide_eq_true_2 _ Hn), lookup_empty.
    by destruct (column_args all ondelete !! n). }
  assert (∀ k, k ∉ slots c → obj_args o1 !! k = column_args all ondelete !! k)
    as Harg.
  { intros k Hk. destruct (Hlookup k) as [_ ->].
    by rewrite (bool_decide_eq_false_2 _ Hk). }
  assert (∀ k, k ∉ slots c → k ∉ column_slots) as Hcolumn.
  { intros k Hk Hin. by apply Hk, column_slots_in. }
  assert (obj_class o1 = c
          ∧ (∀ n, n ∈ column_reads → is_Some (obj_slots o1 !! n))
          ∧ (∀ n, n ∈ slots c → n ∉ column_slots → n ∉ ["domain"; "context"] →
               obj_slots o1 !! n = all !! n)
          ∧ (∀ k, k ∉ slots c →
               obj_args o1 !! k = if bool_decide (k ∈ ["domain"; "context"]) then None
                                  else all !! k)) as (H1 & H2 & H3 & H4).
  { split_and!; [done| | |].
    - intros n Hn. rewrite Hslot; [by apply column_args_read|].
      apply column_slots_in. revert Hn. unfold column_reads.
      intros Hn. repeat (apply elem_of_cons in Hn as [->|Hn]; [in_list|]).
      by apply elem_of_nil in Hn.
    - intros n Hn Hcol Hdc. rewrite (Hslot n Hn), column_args_other by done.
      by rewrite bool_decide_eq_false_2.
    - intros k Hk. rewrite (Harg k Hk). apply column_args_other. by apply Hcolumn. }
  destruct no_prefetch.
  - split_and!.
    + by rewrite assigned_class.
    + intros n Hn. rewrite assigned_slot. case_bool_decide; [eauto|by apply H2].
    + intros n Hn Hcol Hdc. rewrite assigned_slot.
      rewrite bool_decide_eq_false_2; [by apply H3|].
      intros [-> _]. apply Hcol. in_list.
    + intros k Hk. rewrite assigned_arg.
      rewrite bool_decide_eq_false_2; [by apply H4|].
      intros [_ Hp]. apply Hp. rewrite H1. apply prefetch_slot.
    + intros _ _. rewrite assigned_slot. rewrite bool_decide_eq_true_2; [done|].
      split; [done|]. rewrite H1. apply prefetch_slot.
  - split_and!; [done..|].
    intros Hnever Hfalse. by specialize (Hno Hnever Hfalse).
Qed.

Lemma after_init_change_default c all o1 :
  after_init c all o1 →
  obj_slots o1 !! "change_default" = Some (get all "change_default" (PBool false)).
Proof.
  intros (ondelete & no_prefetch & _ & ->).
  destruct (initialised_lookup (Object c ∅ ∅) all ondelete) as [_ Hlookup].
  cbn [obj_class obj_slots obj_args] in Hlookup.
  assert (obj_slots (initialised (Object c ∅ ∅) all ondelete) !! "change_default"
          = Some (get all "change_default" (PBool false))) as Hslot.
  { destruct (Hlookup "change_default") as [-> _].
    rewrite bool_decide_eq_true_2 by (apply column_slots_in; in_list).
    unfold column_args. cbv zeta.
    repeat first [ rewrite lookup_set_default_ne by discriminate
                 | rewrite (lookup_insert_ne _ _ "change_default") by discriminate ].
    by rewrite lookup_insert_eq. }
  destruct no_prefetch; [|done].
  rewrite assigned_slot. rewrite bool_decide_eq_false_2; [done|]. by intros [? _].
Qed.

(** *** After the constructor of the class *)

(** The slots the constructor of the class assigns once
    [_column.__init__] has returned, the last one first. *)
Definition post_names (c : class) : list string :=
  match c with
  | char => ["_symbol_set"; "_symbol_set_char"; "_symbol_f"]
  | html => ["_symbol_set"; "_symbol_f"; "_strip_style"; "_sanitize"]
  | float => ["_symbol_set"; "_symbol_f"; "_digits_compute"; "_digits"]
  | many2one => ["_auto_join"; "_obj"]
  | one2many => ["_auto_join"; "_limit"; "_fields_id"; "_obj"]
  | many2many => ["_auto_join"; "_limit"; "_id2"; "_id1"; "_rel"; "_obj"]
  | _ => []
  end.

(** The parameters the constructor of the class takes for itself or gives a
    value of its own before it calls [_column.__init__]. *)
Definition own_parameters (c : class) : list string :=
  match c with
  | reference | selection => ["selection"]
  | char => ["size"]
  | html => ["sanitize"; "strip_style"]
  | float => ["digits"; "digits_compute"]
  | binary => ["string"; "filters"; "_prefetch"]
  | many2one => ["obj"; "auto_join"; "ondelete"]
  | one2many => ["obj"; "fields_id"; "limit"; "auto_join"; "copy"; "_prefetch"]
  | many2many => ["obj"; "rel"; "id1"; "id2"; "limit"; "_prefetch"]
  | serialized => ["_prefetch"]
  | _ => []
  end.

(** The slots of the class that [_column.__init__] is handed a value for. *)
Definition given_slots (c : class) : list string :=
  match c with
  | reference | selection => ["selection"]
  | _ => []
  end.

(** [all_c], the parameters the constructor of [c] hands to
    [_column.__init__], against [all], the ones it was called with. *)
Definition passes (c : class) (all all_c : kwargs) : Prop :=
  (∀ k, k ∉ own_parameters c → all_c !! k = all !! k)
  ∧ (∀ n, n ∈ given_slots c → is_Some (all_c !! n)).

(** The object once the slots [ns] have been assigned after
    [_column.__init__]. *)
Definition then_set (c : class) (all : kwargs) (ns : list string) (o' : object) : Prop :=
  ∃ o1, after_init c all o1
    ∧ obj_class o' = c
    ∧ obj_args o' = obj_args o1
    ∧ (∀ n, n ∉ ns → obj_slots o' !! n = obj_slots o1 !! n)
    ∧ Forall (λ n, is_Some (obj_slots o' !! n)) ns.

(** The object a constructor returns. *)
Definition constructed (c : class) (all : kwargs) (o' : object) : Prop :=
  ∃ all_c, passes c all all_c ∧ then_set c all_c (post_names c) o'.

Lemma then_set_nil c all o1 : after_init c all o1 → then_set c all [] o1.
Proof.
  intros Hafter. exists o1. split_and!; try done.
  by destruct (after_init_facts c all o1 Hafter) as [? _].
Qed.

Lemma triple_then_set c all ns a n v :
  n ∈ slots c →
  triple (then_set c all ns) a (setattr a n v) (λ _, then_set c all (n :: ns)).
Proof.
  intros Hn. apply triple_setattr.
  intros o (o1 & Hafter & Hclass & Hargs & Hframe & Hset).
  exists o1. unfold assigned. rewrite Hclass, (bool_decide_eq_true_2 _ Hn).
  cbn [obj_class obj_slots obj_args]. split_and!; try done.
  - intros k Hk. apply not_elem_of_cons in Hk as [Hne Hk].
    rewrite lookup_insert_ne by done. by apply Hframe.
  - apply Forall_cons. split; [rewrite lookup_insert_eq; eauto|].
    eapply Forall_impl; [exact Hset|]. intros k Hk. cbv beta.
    apply lookup_insert_is_Some'. by right.
Qed.

Lemma triple_init_plain c a all all_c :
  is_function c = false → post_names c = [] → passes c all all_c →
  triple (λ o, o = Object c ∅ ∅) a (column_init a all_c) (λ _, constructed c all).
Proof.
  intros Hf Hpost Hpass h h' x o Ha Ho Hrun.
  destruct (triple_column_init c a all_c Hf h h' x o Ha Ho Hrun) as (o1 & Ha1 & Hafter).
  exists o1. split; [done|]. exists all_c. split; [done|].
  rewrite Hpost. by apply then_set_nil.
Qed.

Lemma triple_init_steps c a all all_c (k : unit → M unit) :
  is_function c = false → passes c all all_c →
  (∀ x, triple (then_set c all_c []) a (k x) (λ _, then_set c all_c (post_names c))) →
  triple (λ o, o = Object c ∅ ∅) a (column_init a all_c ≫= k) (λ _, constructed c all).
Proof.
  intros Hf Hpass Hk. eapply triple_bind.
  - intros h h' x o Ha Ho Hrun.
    destruct (triple_column_init c a all_c Hf h h' x o Ha Ho Hrun)
      as (o1 & Ha1 & Hafter).
    exists o1. split; [done|]. apply then_set_nil, Hafter.
  - intros x h h' y o Ha Ho Hrun.
    destruct (Hk x h h' y o Ha Ho Hrun) as (o' & Ha' & Hset).
    exists o'. split; [done|]. by exists all_c.
Qed.

End Triples.

(** The parameters that a constructor hands on are those it was given, but
    for its own. *)
Ltac solve_passes :=
  split;
  [ intros k Hk;
    rewrite ?lookup_insert_ne by (intros <-; apply Hk; in_list);
    rewrite ?lookup_rest;
    rewrite ?bool_decide_eq_false_2
      by (intros Hin; apply Hk;
          repeat (apply elem_of_cons in Hin as [->|Hin]; [in_list|]);
          by apply elem_of_nil in Hin);
    reflexivity
  | intros n Hn;
    repeat (apply elem_of_cons in Hn as [->|Hn]; [rewrite lookup_insert_eq; eauto|]);
    by apply elem_of_nil in Hn ].

(** Takes the constructor of a class apart. *)
Ltac init_steps :=
  repeat first
    [ apply triple_init_plain; [reflexivity|reflexivity|solve_passes]
    | apply triple_init_steps; [reflexivity|solve_passes|intros ?]
    | apply triple_then_set; in_list
    | apply triple_ret
    | apply triple_raise
    | eapply triple_bind; [apply triple_required_arg|intros ?]
    | eapply triple_bind; [apply triple_getattr|intros ?]
    | eapply triple_bind; [apply triple_lift|intros ?]
    | eapply triple_bind; [apply triple_ret|intros ?]
    | eapply triple_bind; [apply triple_then_set; in_list|intros ?]
    | match goal with
      | |- triple _ _ ((if ?b then _ else _) ≫= _) _ => destruct b
      | |- triple _ _ (if ?b then _ else _) _ => destruct b
      end ].

Section Constructed.
Context `{PyValues}.

Lemma init_constructed c a all :
  is_function c = false →
  triple (λ o, o = Object c ∅ ∅) a (init c a all) (λ _, constructed c all).
Proof.
  intros Hf. destruct c; try discriminate Hf; unfold init, set_symbol_set; cbv zeta;
    init_steps.
Qed.

Lemma construct_constructed c all h h' a :
  is_function c = false → construct c all h = (h', Ok a) →
  ∃ o', h' !! a = Some o' ∧ constructed c all o'.
Proof.
  intros Hf Hrun. unfold construct in Hrun.
  apply bind_Ok in Hrun as (self & h1 & Halloc & Hrun).
  apply bind_Ok in Hrun as ([] & h2 & Hinit & Hret).
  injection Hret as <- <-. unfold alloc in Halloc. injection Halloc as <- <-.
  eapply (init_constructed c _ all Hf); [apply lookup_insert_eq|reflexivity|exact Hinit].
Qed.

(** The attributes [to_field_args] of the class reads besides those of
    [_column.to_field_args]. *)
Definition class_reads (c : class) : list string :=
  match c with
  | reference | selection => ["selection"]
  | html => ["_sanitize"; "_strip_style"]
  | float => ["_digits_compute"; "_digits"]
  | many2one => ["_obj"; "_auto_join"]
  | one2many => ["_obj"; "_fields_id"; "_auto_join"; "_limit"]
  | many2many => ["_obj"; "_rel"; "_id1"; "_id2"; "_limit"]
  | _ => []
  end.


Lemma constructed_facts c all o' :
  is_function c = false → constructed c all o' →
  obj_class o' = c
  ∧ (∀ n, n ∈ column_reads ++ class_reads c → ∃ v, lookup_attr o' n = Ok v)
  ∧ (∀ k, k ∉ slots c → k ∉ own_parameters c → k ∉ ["domain"; "context"] →
       obj_args o' !! k = all !! k)
  ∧ (never_prefetched c all → py_truthy (PBool false) = false →
     lookup_attr o' "_prefetch" = Ok (PBool false)).
Proof.
  intros Hf (all_c & [Hpass Hgiven] & o1 & Hafter & Hclass & Hargs & Hframe & Hset).
  destruct (after_init_facts c all_c o1 Hafter) as (H1 & H2 & H3 & H4 & H5).
  assert (∀ n v, n ∈ slots c → obj_slots o' !! n = Some v → lookup_attr o' n = Ok v)
    as Hslot.
  { intros n v Hn Hv. unfold lookup_attr.
    by rewrite Hclass, (bool_decide_eq_true_2 _ Hn), Hv. }
  split_and!.
  - done.
  - intros n Hn.
    assert (n ∈ slots c) as Hs.
    { apply elem_of_app in Hn as [Hn|Hn].
      - apply column_slots_in. revert Hn. unfold column_reads. intros Hn.
        repeat (apply elem_of_cons in Hn as [->|Hn]; [in_list|]).
        by apply elem_of_nil in Hn.
      - revert n Hn. apply Forall_forall.
        destruct c; try discriminate Hf; in_list. }
    assert (is_Some (obj_slots o' !! n)) as [v Hv]; [|by eauto].
    destruct (decide (n ∈ post_names c)) as [Hpost|Hpost].
    { clear Hn Hs. revert n Hpost. by apply Forall_forall. }
    rewrite (Hframe n Hpost).
    apply elem_of_app in Hn as [Hn|Hn]; [by apply H2|].
    assert (n ∈ given_slots c) as Hg.
    { assert (Forall (λ n, n ∈ post_names c ∨ n ∈ given_slots c) (class_reads c))
        as Hreads by (destruct c; try discriminate Hf; in_list).
      rewrite Forall_forall in Hreads. by destruct (Hreads n Hn). }
    assert (Forall (λ n, (n ∉ column_slots) ∧ (n ∉ ["domain"; "context"])) (given_slots c))
      as Hout by (destruct c; try discriminate Hf; in_list).
    rewrite Forall_forall in Hout. destruct (Hout n Hg) as [Hcol Hdc].
    rewrite (H3 n Hs Hcol Hdc). by apply Hgiven.
  - intros k Hk Hown Hdc. rewrite Hargs, (H4 k Hk).
    rewrite (bool_decide_eq_false_2 _ Hdc). by apply Hpass.
  - intros Hnever Hfalse. apply Hslot; [apply prefetch_slot|].
    assert ("_prefetch" ∉ post_names c) as Hpost
      by (destruct c; try discriminate Hf; in_list).
    rewrite (Hframe _ Hpost). apply H5; [|done].
    assert (∀ n d, n ∉ own_parameters c → get all_c n d = get all n d) as Hget.
    { intros n d Hn. unfold get. by rewrite (Hpass n Hn). }
    unfold never_prefetched in *.
    rewrite !Hget by (destruct c; try discriminate Hf; in_list).
    done.
Qed.



(** X24: a column built with a true [manual] or [deprecated], and any
    [one2many] or [many2many] column, is not prefetched: its [_prefetch]
    reads [False], also when [_prefetch=True] was among the parameters. The
    classes are those that are not function-backed, and [False] is taken
    to be false. *)
Theorem x24_manual_deprecated_x2many_are_not_prefetched (c : class) (args : kwargs)
    (h h' : heap) (a : positive) :
  is_function c = false →
  py_truthy (PBool false) = false →
  py_truthy (get args "manual" (PBool false)) = true
  ∨ py_truthy (get args "deprecated" PNone) = true
  ∨ c = one2many ∨ c = many2many →
  construct c args h = (h', Ok a) →
  getattr a "_prefetch" h' = (h', Ok (PBool false)).
Proof.
  intros Hf Hfalse Hnever Hrun.
  destruct (construct_constructed c args h h' a Hf Hrun) as (o' & Ha & Hc).
  destruct (constructed_facts c args o' Hf Hc) as (_ & _ & _ & Hprefetch).
  rewrite (getattr_run a o' h' _ Ha). f_equal. by apply Hprefetch.
Qed.


Lemma init_one2many_change_default a all :
  py_eq (get all "change_default" (PBool false)) (PBool true) = true →
  triple (λ o, o = Object one2many ∅ ∅) a (init one2many a all) (λ _ _, False).
Proof.
  intros Heq. unfold init. cbv zeta.
  eapply triple_bind; [apply triple_required_arg|intros obj].
  eapply triple_bind; [apply triple_required_arg|intros fields_id].
  eapply triple_bind; [by apply triple_column_init|intros []].
  eapply triple_weaken; [intros o; apply then_set_nil|].
  do 4 (eapply triple_bind; [apply triple_then_set; in_list|intros ?]).
  intros h h' y o Ha (o1 & Hafter & Hclass & _ & Hframe & _).
  rewrite bind_run, (getattr_run a o h _ Ha).
  assert (lookup_attr o "change_default"
          = Ok (get all "change_default" (PBool false))) as ->.
  { unfold lookup_attr. rewrite Hclass.
    rewrite bool_decide_eq_true_2 by in_list.
    rewrite Hframe by in_list.
    rewrite (after_init_change_default _ _ _ Hafter). f_equal. unfold get.
    rewrite !lookup_insert_ne by discriminate.
    rewrite lookup_rest. by rewrite bool_decide_eq_false_2 by in_list. }
  by rewrite Heq.
Qed.

(** X26: a [one2many] column cannot be the condition of a default value:
    the constructor returns no column when [change_default] is given a
    value equal to [True]. *)
Theorem x26_one2many_refuses_change_default (args : kwargs) (h h' : heap)
    (r : res positive) :
  py_eq (get args "change_default" (PBool false)) (PBool true) = true →
  construct one2many args h = (h', r) →
  ∃ e, r = Raise e.
Proof.
  intros Heq Hrun. destruct r as [a|e]; [exfalso|by eauto].
  unfold construct in Hrun.
  apply bind_Ok in Hrun as (self & h1 & Halloc & Hrun).
  apply bind_Ok in Hrun as ([] & h2 & Hinit & _).
  unfold alloc in Halloc. injection Halloc as <- <-.
  destruct (init_one2many_change_default _ args Heq _ _ _ _
              (lookup_insert_eq _ _ _) eq_refl Hinit) as (_ & _ & []).
Qed.

(** X27: the relation of a [many2many] column is the name of a table: the
    constructor returns no column when [rel] is given and contains a
    dot. *)
Theorem x27_many2many_refuses_dotted_relation (args : kwargs) (h h' : heap)
    (r : res positive) :
  py_truthy (get args "rel" PNone) = true →
  py_contains_dot (get args "rel" PNone) = Ok true →
  construct many2many args h = (h', r) →
  ∃ e, r = Raise e.
Proof.
  intros Hrel Hdot Hrun. destruct r as [a|e]; [exfalso|by eauto].
  unfold construct in Hrun.
  apply bind_Ok in Hrun as (self & h1 & _ & Hrun).
  apply bind_Ok in Hrun as ([] & h2 & Hinit & _).
  unfold init in Hinit. cbv zeta in Hinit.
  apply bind_Ok in Hinit as (obj & h3 & _ & Hinit).
  apply bind_Ok in Hinit as ([] & h4 & _ & Hinit).
  apply bind_Ok in Hinit as ([] & h5 & _ & Hinit).
  apply bind_Ok in Hinit as (dotted & h6 & Hdotted & Hinit).
  rewrite Hrel, Hdot in Hdotted. injection Hdotted as <- <-.
  apply bind_Ok in Hinit as (? & ? & Hraise & _). discriminate Hraise.
Qed.

End Constructed.

Import Examples.

Lemma x24_witness :
  @getattr example_values 1 "_prefetch"
    (fst (@construct example_values one2many
            {[ "obj" := SStr "res.partner"; "fields_id" := SStr "parent_id";
               "_prefetch" := SBool true ]} ∅))
  = (fst (@construct example_values one2many
            {[ "obj" := SStr "res.partner"; "fields_id" := SStr "parent_id";
               "_prefetch" := SBool true ]} ∅),
     Ok (SBool false)).
Proof.
  apply (@x24_manual_deprecated_x2many_are_not_prefetched example_values one2many
           {[ "obj" := SStr "res.partner"; "fields_id" := SStr "parent_id";
              "_prefetch" := SBool true ]} ∅ _ 1 eq_refl eq_refl).
  - right. right. left. reflexivity.
  - assert (snd (@construct example_values one2many
                   {[ "obj" := SStr "res.partner"; "fields_id" := SStr "parent_id";
                      "_prefetch" := SBool true ]} ∅) = Ok 1%positive) as Hsnd
      by (vm_compute; reflexivity).
    rewrite <- Hsnd. apply surjective_pairing.
Defined.


Lemma x26_witness :
  ∃ e, snd (@construct example_values one2many
              {[ "obj" := SStr "res.partner"; "fields_id" := SStr "parent_id";
                 "change_default" := SBool true ]} ∅) = Raise e.
Proof.
  apply (@x26_one2many_refuses_change_default example_values
           {[ "obj" := SStr "res.partner"; "fields_id" := SStr "parent_id";
              "change_default" := SBool true ]} ∅
           (fst (@construct example_values one2many
                   {[ "obj" := SStr "res.partner"; "fields_id" := SStr "parent_id";
                      "change_default" := SBool true ]} ∅))).
  - vm_compute. reflexivity.
  - apply surjective_pairing.
Defined.

Lemma x27_witness :
  ∃ e, snd (@construct example_values many2many
              {[ "obj" := SStr "res.partner"; "rel" := SStr "res.partner_rel" ]} ∅)
       = Raise e.
Proof.
  apply (@x27_many2many_refuses_dotted_relation example_values
           {[ "obj" := SStr "res.partner"; "rel" := SStr "res.partner_rel" ]} ∅
           (fst (@construct example_values many2many
                   {[ "obj" := SStr "res.partner"; "rel" := SStr "res.partner_rel" ]}
                   ∅))).
  - vm_compute. reflexivity.
  - vm_compute. reflexivity.
  - apply surjective_pairing.
Defined.

End ConstructFacts.
